(** * The py3dtiles converter: orchestration and manifest repair

    A shallow embedding of [src/converter.py]: the pathlib paths it builds,
    the file system it inspects and mutates, the JSON manifests it walks,
    the two repair passes and the conversion pipeline around them. *)

From Stdlib Require Import Ascii.
From stdpp Require Import gmap strings list fin_maps pretty.

Set Warnings "-register-all".

Local Open Scope Z_scope.

(** ** Python strings *)

Module Str.

(** [s.startswith(p)] *)
Fixpoint startswith (s p : string) : bool :=
  match p with
  | EmptyString => true
  | String a p' =>
      match s with
      | EmptyString => false
      | String b s' => Ascii.eqb b a && startswith s' p'
      end
  end.

(** [s[n:]] *)
Fixpoint drop (n : nat) (s : string) : string :=
  match n, s with
  | O, _ => s
  | S _, EmptyString => EmptyString
  | S k, String _ r => drop k r
  end.

(** [s.endswith(p)] *)
Definition endswith (s p : string) : bool :=
  (String.length p <=? String.length s)%nat
  && String.eqb (drop (String.length s - String.length p) s) p.

(** [c in s] for a one-character [c] *)
Fixpoint contains (c : ascii) (s : string) : bool :=
  match s with
  | EmptyString => false
  | String a r => Ascii.eqb a c || contains c r
  end.

(** [bool(s)]: the empty string is falsy *)
Definition truthy (s : string) : bool :=
  match s with EmptyString => false | _ => true end.

(** [s.split(c)] *)
Fixpoint split (c : ascii) (s : string) : list string :=
  match s with
  | EmptyString => [EmptyString]
  | String a r =>
      if Ascii.eqb a c then EmptyString :: split c r
      else match split c r with
           | [] => [String a EmptyString]
           | w :: ws => String a w :: ws
           end
  end.

(** [c.join(l)] *)
Fixpoint join (c : string) (l : list string) : string :=
  match l with
  | [] => EmptyString
  | [x] => x
  | x :: r => x +:+ c +:+ join c r
  end.

Definition lower_ascii (a : ascii) : ascii :=
  let n := nat_of_ascii a in
  if (65 <=? n)%nat && (n <=? 90)%nat then ascii_of_nat (n + 32) else a.

(** [s.lower()], on the ASCII letters *)
Fixpoint lower (s : string) : string :=
  match s with
  | EmptyString => EmptyString
  | String a r => String (lower_ascii a) (lower r)
  end.

(** [s.rfind(c)]: the index of the last [c], if any *)
Fixpoint rfind (c : ascii) (s : string) : option nat :=
  match s with
  | EmptyString => None
  | String a r =>
      match rfind c r with
      | Some i => Some (S i)
      | None => if Ascii.eqb a c then Some O else None
      end
  end.

(** [s[:n]] *)
Fixpoint take (n : nat) (s : string) : string :=
  match n, s with
  | O, _ => EmptyString
  | S _, EmptyString => EmptyString
  | S k, String a r => String a (take k r)
  end.

End Str.

(** ** Exceptions

    Every class below derives from [Exception], so each is caught by the
    [except Exception] clauses of the source. *)

Inductive exc : Type :=
  | RuntimeError (msg : string)
  | ValueError (msg : string)
  | OSError (msg : string)
  | FileNotFoundError
  | FileExistsError
  | IsADirectoryError
  | NotADirectoryError
  | PermissionError
  | JSONDecodeError
  | AttributeError
  | LaspyError.

(** ** pathlib paths

    A [Path] is represented by its [parts]: for an absolute path the first
    part is the anchor ["/"] (or ["//"]), as [PurePosixPath.parts] has it. *)

Abbreviation Path := (list string).

Module Pathlib.

Definition is_anchor (s : string) : bool :=
  String.eqb s "/" || String.eqb s "//".

(** the anchor of a path string: ["//x"] keeps two slashes, any other
    number of leading slashes is one root *)
Definition anchor_of (s : string) : option string :=
  match s with
  | String "/"%char (String "/"%char (String "/"%char _)) => Some "/"
  | String "/"%char (String "/"%char _) => Some "//"
  | String "/"%char _ => Some "/"
  | _ => None
  end.

(** the components of a path string: empty and ["."] components vanish *)
Definition components (s : string) : list string :=
  List.filter (λ c, negb (String.eqb c "" || String.eqb c "."))
              (Str.split "/" s).

(** [Path(s)] *)
Definition of_string (s : string) : Path :=
  match anchor_of s with
  | Some a => a :: components s
  | None => components s
  end.

(** [p / s]: an absolute right operand replaces the left one *)
Definition join (p : Path) (s : string) : Path :=
  match anchor_of s with
  | Some a => a :: components s
  | None => p ++ components s
  end.

(** [str(p)] *)
Definition to_string (p : Path) : string :=
  match p with
  | [] => "."
  | a :: r => if is_anchor a then a +:+ Str.join "/" r else Str.join "/" p
  end.

(** [p.name] *)
Definition name (p : Path) : string :=
  match p with
  | [] => ""
  | a :: r =>
      match last r with
      | Some n => n
      | None => if is_anchor a then "" else a
      end
  end.

(** [p.parent] *)
Definition parent (p : Path) : Path :=
  match p with
  | [] => []
  | a :: r =>
      match r with
      | [] => if is_anchor a then p else []
      | _ => removelast p
      end
  end.

(** [p.suffix]: from the last dot of the name, unless the dot is the
    first or the last character *)
Definition suffix (p : Path) : string :=
  let n := name p in
  match Str.rfind "." n with
  | Some i =>
      if (0 <? i)%nat && (i <? String.length n - 1)%nat
      then Str.drop i n else ""
  | None => ""
  end.

(** [p.with_name(n)], for a name without separators *)
Definition with_name (p : Path) (n : string) : exc + Path :=
  if String.eqb (name p) "" then inl (ValueError "has an empty name")
  else inr (removelast p ++ [n]).

(** [p.with_suffix(s)] *)
Definition with_suffix (p : Path) (s : string) : exc + Path :=
  let n := name p in
  if String.eqb n "" then inl (ValueError "has an empty name")
  else
    let stem := Str.take (String.length n - String.length (suffix p)) n in
    inr (removelast p ++ [stem +:+ s]).

End Pathlib.

Notation "p // s" := (Pathlib.join p s) (at level 40, left associativity).

(** ** JSON values, as [json.load] builds them *)

Inductive json : Type :=
  | JNull
  | JBool (b : bool)
  | JInt (z : Z)
  | JFloat (repr : string)
  | JStr (s : string)
  | JArr (items : list json)
  | JObj (entries : list (string * json)).

(** A Python [dict] keeps its keys in insertion order; assigning to a key
    that is present keeps its position. *)
Module Dict.

(** [d.get(k)] *)
Fixpoint get (k : string) (d : list (string * json)) : option json :=
  match d with
  | [] => None
  | (k', v) :: r => if String.eqb k' k then Some v else get k r
  end.

(** [d[k] = v] *)
Fixpoint set (k : string) (v : json) (d : list (string * json))
  : list (string * json) :=
  match d with
  | [] => [(k, v)]
  | (k', v') :: r =>
      if String.eqb k' k then (k', v) :: r else (k', v') :: set k v r
  end.

End Dict.

(** ** The file system

    A file holds text, a JSON document or a point cloud.  [Doc j] stands for
    the bytes [json.dump] writes for [j], which [json.load] reads back as
    [j]; [Text] is text that is no JSON document (and the log of the engine,
    which nothing loads).  [Cloud] is a LAS/LAZ point cloud: whether it is
    compressed, and what [header.parse_crs()] makes of it ([None]: it
    raises; [Some b]: [bool(crs)] is [b]). *)

Inductive content : Type :=
  | Text (s : string)
  | Doc (j : json)
  | Cloud (compressed : bool) (crs : option bool).

(** A path names a file, a directory, or an entry on which [stat] fails
    with an error that pathlib does not take for absence.  There are no
    links: two paths name the same entry only through [..]. *)
Inductive node : Type :=
  | File (writable : bool) (mtime : Z) (data : content)
  | Dir
  | Broken.

(** The file system: what is at each path, the time, and the modification
    time of each directory -- the time at which an entry was last created
    in it or removed from it. *)
Record world : Type := World {
  nodes : gmap Path node;
  clock : Z;
  dir_mtime : Path → Z
}.

(** ** Computations that raise and that change the file system *)

Definition M (A : Type) : Type := world → (exc + A) * world.

Definition ret {A} (a : A) : M A := λ w, (inr a, w).

Definition raise {A} (e : exc) : M A := λ w, (inl e, w).

Definition bind {A B} (m : M A) (k : A → M B) : M B :=
  λ w, match m w with
       | (inr a, w') => k a w'
       | (inl e, w') => (inl e, w')
       end.

(** [try: m  except Exception as e: ...]: the outcome of [m], reified *)
Definition try {A} (m : M A) : M (exc + A) :=
  λ w, let '(r, w') := m w in (inr r, w').

(** a pure step that may raise *)
Definition lift {A} (r : exc + A) : M A := λ w, (r, w).

#[global] Instance M_ret : MRet M := @ret.
#[global] Instance M_bind : MBind M := λ A B k m, bind m k.

Module Fs.

(** the current directory and the roots always exist *)
Definition implicit (p : Path) : bool :=
  match p with
  | [] => true
  | [a] => Pathlib.is_anchor a
  | _ => false
  end.

(** what is at the path [p], taken as it is spelled: the paths that the
    code builds from its arguments hold no [..] of its own making, and
    are looked up part by part as the caller wrote them.  What the code
    reads from a file may hold [..]; such a string is resolved first, by
    [reach] below. *)
Definition entry (w : world) (p : Path) : option node :=
  if implicit p then Some Dir else nodes w !! p.

(** [p.exists()] *)
Definition exists_ (p : Path) : M bool :=
  λ w, match entry w p with
       | Some Broken => (inl (OSError "stat"), w)
       | Some _ => (inr true, w)
       | None => (inr false, w)
       end.

(** [p.is_file()] *)
Definition is_file (p : Path) : M bool :=
  λ w, match entry w p with
       | Some Broken => (inl (OSError "stat"), w)
       | Some (File _ _ _) => (inr true, w)
       | _ => (inr false, w)
       end.

(** [p.is_dir()] *)
Definition is_dir (p : Path) : M bool :=
  λ w, match entry w p with
       | Some Broken => (inl (OSError "stat"), w)
       | Some Dir => (inr true, w)
       | _ => (inr false, w)
       end.

(** [..] taken from [p]: its parent.  Above the current directory the path
    grows by [..]; a root is its own parent. *)
Definition up (p : Path) : Path :=
  match last p with
  | None => [".."]
  | Some c =>
      if String.eqb c ".." then p ++ [".."]
      else if implicit p then p
      else removelast p
  end.

(** where the components [rest] lead from [p], as the system resolves
    them: a name leads to the entry of that name, [..] leaves a directory
    for its parent and leads nowhere from what is no directory *)
Fixpoint follow (w : world) (p : Path) (rest : list string) : option Path :=
  match rest with
  | [] => Some p
  | c :: r =>
      if String.eqb c ".." then
        match entry w p with
        | Some Dir => follow w (up p) r
        | _ => None
        end
      else follow w (p ++ [c]) r
  end.

(** the entry that [p / s] names, for a string [s] that the code has read
    from a file: [p] is taken as the caller spells it, the components of
    [s] are resolved, and an absolute [s] is resolved from its root.
    There is none when the way leads through what is no directory. *)
Definition reach (w : world) (p : Path) (s : string) : option Path :=
  match Pathlib.anchor_of s with
  | Some a => follow w [a] (Pathlib.components s)
  | None => follow w p (Pathlib.components s)
  end.

(** [p.stat().st_mtime] *)
Definition st_mtime (p : Path) : M Z :=
  λ w, match entry w p with
       | Some (File _ t _) => (inr t, w)
       | Some Dir => (inr (dir_mtime w p), w)
       | Some Broken => (inl (OSError "stat"), w)
       | None => (inl FileNotFoundError, w)
       end.

(** opening [p] for reading and taking its whole content *)
Definition read (p : Path) : M content :=
  λ w, match entry w p with
       | Some (File _ _ c) => (inr c, w)
       | Some Dir => (inl IsADirectoryError, w)
       | Some Broken => (inl (OSError "open"), w)
       | None => (inl FileNotFoundError, w)
       end.

(** the directory [d] has just gained or lost an entry *)
Definition touched (d : Path) (w : world) : Path → Z :=
  λ q, if bool_decide (q = d) then clock w else dir_mtime w q.

(** the file system once [c] is stored at [p]: a file that was not there
    is a new entry of its directory *)
Definition put (p : Path) (c : content) (w : world) : world :=
  World (<[p := File true (clock w) c]> (nodes w)) (clock w + 1)
        (match entry w p with
         | None => touched (Pathlib.parent p) w
         | Some _ => dir_mtime w
         end).

(** opening [p] for writing and storing [c]: the file is created when
    its directory exists *)
Definition write (p : Path) (c : content) : M unit :=
  λ w, match entry w p with
       | Some (File true _ _) => (inr tt, put p c w)
       | Some (File false _ _) => (inl PermissionError, w)
       | Some Dir => (inl IsADirectoryError, w)
       | Some Broken => (inl (OSError "open"), w)
       | None =>
           match entry w (Pathlib.parent p) with
           | Some Dir => (inr tt, put p c w)
           | Some (File _ _ _) => (inl NotADirectoryError, w)
           | Some Broken => (inl (OSError "open"), w)
           | None => (inl FileNotFoundError, w)
           end
       end.

(** the file system once the directory [p] is made: a new entry of its
    parent, with the time of its making *)
Definition made (p : Path) (w : world) : world :=
  World (<[p := Dir]> (nodes w)) (clock w)
        (λ q, if bool_decide (q = p) then clock w
              else touched (Pathlib.parent p) w q).

(** [p.mkdir(parents=True, exist_ok=True)], ancestors first *)
Fixpoint mkdir_each (ps : list Path) : M unit :=
  match ps with
  | [] => ret tt
  | p :: r =>
      λ w, match entry w p with
           | Some Dir => mkdir_each r w
           | None => mkdir_each r (made p w)
           | Some (File _ _ _) =>
               (inl (match r with
                     | [] => FileExistsError
                     | _ => NotADirectoryError
                     end), w)
           | Some Broken => (inl (OSError "mkdir"), w)
           end
  end.

(** the non-empty prefixes of [p], shortest first *)
Definition ancestors (p : Path) : list Path :=
  List.map (λ n, take n p) (seq 1 (length p)).

Definition mkdir_parents (p : Path) : M unit := mkdir_each (ancestors p).

(** [q] is [p] or lies below it; below the current directory lie the
    relative paths that do not leave it *)
Definition inside (p q : Path) : bool :=
  bool_decide (p `prefix_of` q)
  && match p, q with
     | [], c :: _ => negb (Pathlib.is_anchor c || String.eqb c "..")
     | _, _ => true
     end.

(** [shutil.rmtree(p)]: the tree below [p] is removed, then [p] itself,
    which the system refuses for the current directory and for a root *)
Definition rmtree (p : Path) : M unit :=
  λ w, match entry w p with
       | Some Dir =>
           let rest := filter (λ kv, ¬ inside p kv.1) (nodes w) in
           if implicit p
           then (inl (OSError "rmdir"), World rest (clock w) (touched p w))
           else (inr tt,
                 World rest (clock w) (touched (Pathlib.parent p) w))
       | Some (File _ _ _) => (inl NotADirectoryError, w)
       | Some Broken => (inl (OSError "rmtree"), w)
       | None => (inl FileNotFoundError, w)
       end.

(** the name of [q] when it lies directly inside [d] *)
Definition child_name (d q : Path) : option string :=
  match drop (length d) q with
  | [n] => if bool_decide (take (length d) q = d) then Some n else None
  | _ => None
  end.

(** the names of the entries directly inside [d] *)
Definition listdir (w : world) (d : Path) : list string :=
  omap (λ kv : Path * node, child_name d kv.1) (map_to_list (nodes w)).

(** [fnmatch]: [*] matches any run of characters, [?] any one *)
Fixpoint fnmatch (pat s : string) : bool :=
  match pat with
  | EmptyString => match s with EmptyString => true | _ => false end
  | String "*"%char pat' =>
      (fix star (s : string) : bool :=
         fnmatch pat' s
         || match s with
            | EmptyString => false
            | String _ r => star r
            end) s
  | String "?"%char pat' =>
      match s with
      | EmptyString => false
      | String _ r => fnmatch pat' r
      end
  | String c pat' =>
      match s with
      | EmptyString => false
      | String a r => Ascii.eqb a c && fnmatch pat' r
      end
  end.

(** [d.glob(pat)], for a pattern without separators: nothing when [d]
    is not a directory *)
Definition glob (d : Path) (pat : string) : M (list Path) :=
  λ w, match entry w d with
       | Some Dir =>
           (inr (List.map (λ n, d ++ [n])
                          (List.filter (fnmatch pat) (listdir w d))), w)
       | _ => (inr [], w)
       end.

End Fs.

(** the file system as it is now *)
Definition snapshot : M world := λ w, (inr w, w).

(** [json.load] of the file at [p] *)
Definition json_load (p : Path) : M json :=
  c ← Fs.read p;
  match c with
  | Doc j => ret j
  | _ => raise JSONDecodeError
  end.

(** [json.dump(data, f, separators=(",", ":"))] into the file at [p] *)
Definition json_dump (p : Path) (data : json) : M unit :=
  Fs.write p (Doc data).

(** ** The tree walk shared by both repair passes

    Both passes define the same [walk]; they differ in the function applied
    to each reference object.  The Python functions mutate the tree in place
    and raise a flag; here they return the new tree with the flag. *)

Section Walk.

Variable maybe_fix : json → json * bool.

(** [content = node.get("content")] and the fix of a [dict] found there *)
Definition fix_content (d : list (string * json))
  : list (string * json) * bool :=
  match Dict.get "content" d with
  | Some (JObj o) =>
      let '(c, m) := maybe_fix (JObj o) in (Dict.set "content" c d, m)
  | _ => (d, false)
  end.

(** [for c in contents: if isinstance(c, dict): maybe_fix(c)] *)
Fixpoint fix_each (cs : list json) : list json * bool :=
  match cs with
  | [] => ([], false)
  | c :: r =>
      let '(c', m) := match c with
                      | JObj _ => maybe_fix c
                      | _ => (c, false)
                      end in
      let '(r', m') := fix_each r in
      (c' :: r', m || m')
  end.

Definition fix_contents (d : list (string * json))
  : list (string * json) * bool :=
  match Dict.get "contents" d with
  | Some (JArr cs) =>
      let '(cs', m) := fix_each cs in (Dict.set "contents" (JArr cs') d, m)
  | _ => (d, false)
  end.

(** [walk].  The inner [walk_children d] is [node.get("children")] with
    every [dict] of that list walked, [None] when the key is absent or its
    value is not a list.  It looks the key up in the entries [d] the node
    came with: the two steps before it assign to other keys only (see
    [walk_eq] below, which states [walk] in the order of the source). *)
Fixpoint walk (node : json) : json * bool :=
  match node with
  | JObj d =>
      let walk_each :=
        fix walk_each (cs : list json) : list json * bool :=
          match cs with
          | [] => ([], false)
          | c :: r =>
              let '(c', m) := match c with
                              | JObj _ => walk c
                              | _ => (c, false)
                              end in
              let '(r', m') := walk_each r in
              (c' :: r', m || m')
          end in
      let walk_children :=
        fix walk_children (d : list (string * json))
          : option (list json * bool) :=
          match d with
          | [] => None
          | (k, v) :: r =>
              if String.eqb k "children" then
                match v with
                | JArr cs => Some (walk_each cs)
                | _ => None
                end
              else walk_children r
          end in
      let '(d1, m1) := fix_content d in
      let '(d2, m2) := fix_contents d1 in
      match walk_children d with
      | Some (cs', m3) =>
          (JObj (Dict.set "children" (JArr cs') d2), m1 || m2 || m3)
      | None => (JObj d2, m1 || m2)
      end
  | _ => (node, false)
  end.

(** [for child in children: if isinstance(child, dict): walk(child)] *)
Fixpoint walk_each (cs : list json) : list json * bool :=
  match cs with
  | [] => ([], false)
  | c :: r =>
      let '(c', m) := match c with
                      | JObj _ => walk c
                      | _ => (c, false)
                      end in
      let '(r', m') := walk_each r in
      (c' :: r', m || m')
  end.

(** [node.get("children")] with its items walked, as [walk] has it *)
Fixpoint walk_children (d : list (string * json))
  : option (list json * bool) :=
  match d with
  | [] => None
  | (k, v) :: r =>
      if String.eqb k "children" then
        match v with
        | JArr cs => Some (walk_each cs)
        | _ => None
        end
      else walk_children r
  end.

(** [walk(data.get("root", {}))]: [data.get] raises on a document that is
    not an object *)
Definition walk_root (data : json) : exc + json * bool :=
  match data with
  | JObj d =>
      match Dict.get "root" d with
      | Some root =>
          let '(root', m) := walk root in
          inr (JObj (Dict.set "root" root' d), m)
      | None => inr (data, snd (walk (JObj [])))
      end
  | _ => inl AttributeError
  end.

End Walk.

(** [candidate.exists() and candidate.is_file()] inside [try], for the
    entry that the candidate path names, if any: an exception leaves the
    reference as it is, and so does a path that names nothing *)
Definition exists_and_is_file (w : world) (candidate : option Path) : bool :=
  match candidate with
  | Some p =>
      match try (e ← Fs.exists_ p;
                 if (e : bool) then Fs.is_file p else ret false) w with
      | (inr (inr b), _) => b
      | _ => false
      end
  | None => false
  end.

(** ** Pass A: [rewrite_child_tileset_uris_if_needed] *)

Module PassA.

Definition bare_name (uri_val : string) : bool :=
  Str.startswith uri_val "tileset." && Str.endswith uri_val ".json"
  && negb (Str.contains "/" uri_val).

Definition maybe_fix_uri (w : world) (points_dir : Path) (obj : json)
  : json * bool :=
  match obj with
  | JObj d =>
      match Dict.get "uri" d with
      | Some (JStr uri_val) =>
          if bare_name uri_val then
            let candidate := Fs.reach w points_dir uri_val in
            if exists_and_is_file w candidate
            then (JObj (Dict.set "uri" (JStr ("points/" +:+ uri_val)) d),
                  true)
            else (obj, false)
          else (obj, false)
      | _ => (obj, false)
      end
  | _ => (obj, false)
  end.

Definition rewrite_child_tileset_uris_if_needed (tiles_dir : Path)
  : M bool :=
  let main_tileset := tiles_dir // "tileset.json" in
  let points_dir := tiles_dir // "points" in
  e ← Fs.exists_ main_tileset;
  if negb e then ret false else
  loaded ← try (json_load main_tileset);
  match loaded with
  | inl _ => ret false
  | inr data =>
      w ← snapshot;
      match walk_root (maybe_fix_uri w points_dir) data with
      | inl _ => ret false
      | inr (data', modified) =>
          if modified then
            written ← try (json_dump main_tileset data');
            match written with
            | inl _ => ret false
            | inr _ => ret modified
            end
          else ret modified
      end
  end.

End PassA.

(** ** Pass B: [normalize_sub_tileset_uris_in_points] *)

Module PassB.

Definition maybe_fix (w : world) (points_dir : Path) (obj : json)
  : json * bool :=
  match obj with
  | JObj d =>
      match Dict.get "uri" d with
      | Some (JStr uri_val) =>
          if Str.startswith uri_val "points/" then
            let trimmed := Str.drop (String.length "points/") uri_val in
            let candidate := Fs.reach w points_dir trimmed in
            if exists_and_is_file w candidate
            then (JObj (Dict.set "uri" (JStr trimmed) d), true)
            else (obj, false)
          else (obj, false)
      | _ => (obj, false)
      end
  | _ => (obj, false)
  end.

Definition fix_uris_in_data (w : world) (points_dir : Path) (data : json)
  : json * bool :=
  match walk_root (maybe_fix w points_dir) data with
  | inl _ => (data, false)
  | inr r => r
  end.

(** the body of [for ts_file in points_dir.glob("tileset.*.json")] *)
Definition visit (points_dir ts_file : Path) (modified_count : nat)
  : M nat :=
  loaded ← try (json_load ts_file);
  match loaded with
  | inl _ => ret modified_count
  | inr data =>
      w ← snapshot;
      let '(data', modified) := fix_uris_in_data w points_dir data in
      if modified then
        written ← try (json_dump ts_file data');
        match written with
        | inl _ => ret modified_count
        | inr _ => ret (S modified_count)
        end
      else ret modified_count
  end.

Fixpoint for_each (points_dir : Path) (files : list Path)
    (modified_count : nat) : M nat :=
  match files with
  | [] => ret modified_count
  | ts_file :: rest =>
      n ← visit points_dir ts_file modified_count;
      for_each points_dir rest n
  end.

Definition normalize_sub_tileset_uris_in_points (tiles_dir : Path)
  : M nat :=
  let points_dir := tiles_dir // "points" in
  e ← Fs.exists_ points_dir;
  if negb e then ret O else
  d ← Fs.is_dir points_dir;
  if negb d then ret O else
  files ← Fs.glob points_dir "tileset.*.json";
  for_each points_dir files O.

End PassB.

(** ** The conversion pipeline *)

(** [str(e)].  The text of a [RuntimeError], [ValueError] or [OSError] is
    the one it was raised with; for the errors that the system and the
    libraries raise, the text here stands for a message of theirs. *)
Definition exc_str (e : exc) : string :=
  match e with
  | RuntimeError m | ValueError m | OSError m => m
  | FileNotFoundError => "No such file or directory"
  | FileExistsError => "File exists"
  | IsADirectoryError => "Is a directory"
  | NotADirectoryError => "Not a directory"
  | PermissionError => "Permission denied"
  | JSONDecodeError => "Expecting value"
  | AttributeError => "object has no attribute"
  | LaspyError => "laspy error"
  end.

Section Converter.

(** The environment of the process: the interpreter's own path
    ([sys.executable]), [shutil.which], whether laspy has a LAZ backend,
    and [subprocess.run] of the engine with both output streams captured
    into one text: it yields that text and the exit code, and does to the
    file system whatever the engine does. *)
Variable sys_executable : string.
Variable which : string → option string.
Variable laz_backend : bool.
Variable subprocess_run : list string → M (string * Z).

(** [laspy.read(p)]: what the header says about the CRS *)
Definition laspy_read (p : Path) : M (option bool) :=
  c ← Fs.read p;
  match c with
  | Cloud compressed crs =>
      if compressed && negb laz_backend then raise LaspyError else ret crs
  | _ => raise LaspyError
  end.

(** [las.write(str(las_path))], uncompressed for a [.las] name *)
Definition las_write (crs : option bool) (las_path : Path) : M unit :=
  Fs.write las_path (Cloud false crs).

Definition uncompress_laz_to_las (laz_path : Path) : M Path :=
  las_path ← lift (Pathlib.with_suffix laz_path ".las");
  e ← Fs.exists_ las_path;
  fresh ← (if (e : bool) then
              r ← try (t_las ← Fs.st_mtime las_path;
                        t_laz ← Fs.st_mtime laz_path;
                        ret (t_laz <=? t_las));
              match r with
              | inr b => ret b
              | inl _ => ret false
              end
            else ret false);
  if (fresh : bool) then ret las_path else
  r ← try (las ← laspy_read laz_path; las_write las las_path);
  match r with
  | inr _ => ret las_path
  | inl e =>
      raise (RuntimeError ("Failed to uncompress " +:+ Pathlib.name laz_path
                           +:+ " to LAS: " +:+ exc_str e))
  end.

Definition resolve_py3dtiles_executable : M Path :=
  py3dtiles_exe ←
    lift (Pathlib.with_name (Pathlib.of_string sys_executable) "py3dtiles");
  e ← Fs.exists_ py3dtiles_exe;
  if (e : bool) then ret py3dtiles_exe else
  match which "py3dtiles" with
  | Some found =>
      if Str.truthy found then ret (Pathlib.of_string found)
      else raise (RuntimeError "py3dtiles not found in venv or PATH")
  | None => raise (RuntimeError "py3dtiles not found in venv or PATH")
  end.

(** an optional string is truthy when it is given and not empty *)
Definition given (o : option string) : bool :=
  match o with
  | Some s => Str.truthy s
  | None => false
  end.

(** "Ensure output directory exists" and "Clear output directory if
    overwrite requested" *)
Definition prepare_output_dir (output_dir : Path) (overwrite : bool)
  : M unit :=
  Fs.mkdir_parents output_dir;;
  if overwrite then
    e ← Fs.exists_ output_dir;
    (if (e : bool) then Fs.rmtree output_dir else ret tt);;
    Fs.mkdir_parents output_dir
  else ret tt.

(** "Ensure we have an uncompressed LAS file" *)
Definition choose_tiles_input (input_path : Path) : M Path :=
  if String.eqb (Str.lower (Pathlib.suffix input_path)) ".laz" then
    r ← try (uncompress_laz_to_las input_path);
    match r with
    | inr las => ret las
    | inl _ => ret input_path
    end
  else ret input_path.

(** "Detect CRS from input file" *)
Definition detect_crs (tiles_input : Path) : M bool :=
  r ← try (laspy_read tiles_input);
  match r with
  | inr (Some crs) => ret crs
  | _ => ret false
  end.

(** "Build py3dtiles command" *)
Definition build_command (py3dtiles_exe output_dir : Path) (has_crs : bool)
    (srs_out extra_fields : option string) (tiles_input : Path)
  : list string :=
  let cmd := [Pathlib.to_string py3dtiles_exe; "convert"; "--out";
              Pathlib.to_string output_dir] in
  let cmd := if has_crs && given srs_out
             then (cmd ++ ["--srs_out"; default "" srs_out])
                  ++ ["--pyproj-always-xy"]
             else cmd in
  let cmd := if given extra_fields
             then cmd ++ ["--extra-fields"; default "" extra_fields]
             else cmd in
  cmd ++ [Pathlib.to_string tiles_input].

Definition engine_failed (returncode : Z) : exc :=
  RuntimeError ("tiles conversion (py3dtiles) failed with exit code "
                +:+ pretty returncode +:+ "; see tiles_log.txt").

Definition missing_output : exc :=
  RuntimeError "tiles conversion did not produce tileset.json".

(** "Post-process: fix potential URI issues in tileset structure" *)
Definition post_process (output_dir : Path) : M unit :=
  try (modified_main ←
         PassA.rewrite_child_tileset_uris_if_needed output_dir;
       normalized_count ←
         PassB.normalize_sub_tileset_uris_in_points output_dir;
       ret tt);;
  ret tt.

(** what follows the command line: run the engine, keep its log, check
    its outcome, repair the manifests *)
Definition run_and_check (cmd : list string) (output_dir : Path) : M Path :=
  proc ← subprocess_run cmd;
  let '(stdout, returncode) := proc in
  let log_file := output_dir // "tiles_log.txt" in
  Fs.write log_file (Text stdout);;
  if negb (returncode =? 0) then raise (engine_failed returncode) else
  let tileset_json := output_dir // "tileset.json" in
  e ← Fs.exists_ tileset_json;
  if negb e then raise missing_output else
  post_process output_dir;;
  ret tileset_json.

Definition convert_las_to_3dtiles (input_path output_dir : Path)
    (extra_fields srs_out : option string) (overwrite : bool) : M Path :=
  prepare_output_dir output_dir overwrite;;
  tiles_input ← choose_tiles_input input_path;
  has_crs ← detect_crs tiles_input;
  py3dtiles_exe ← resolve_py3dtiles_executable;
  let cmd := build_command py3dtiles_exe output_dir has_crs srs_out
                           extra_fields tiles_input in
  run_and_check cmd output_dir.

End Converter.

(** ** The references of a manifest

    The data model of the manifest: a tile may hold one reference under
    ["content"], a list of references under ["contents"] and a list of
    tiles under ["children"]; a reference is an object whose ["uri"] is a
    string.  A position names one reference site of a tree. *)

Inductive step : Type :=
  | AtContent
  | AtContents (i : nat)
  | AtChild (i : nat).

Definition uri_of (obj : json) : option string :=
  match obj with
  | JObj d =>
      match Dict.get "uri" d with
      | Some (JStr u) => Some u
      | _ => None
      end
  | _ => None
  end.

Fixpoint uri_at (node : json) (pos : list step) : option string :=
  match pos with
  | [] => None
  | s :: rest =>
      match node with
      | JObj d =>
          match s, rest with
          | AtContent, [] => Dict.get "content" d ≫= uri_of
          | AtContents i, [] =>
              match Dict.get "contents" d with
              | Some (JArr cs) => cs !! i ≫= uri_of
              | _ => None
              end
          | AtChild i, _ =>
              match Dict.get "children" d with
              | Some (JArr cs) =>
                  match cs !! i with
                  | Some child => uri_at child rest
                  | None => None
                  end
              | _ => None
              end
          | _, _ => None
          end
      | _ => None
      end
  end.

(** the root tile of a manifest document *)
Definition manifest_root (data : json) : json :=
  match data with
  | JObj d => default (JObj []) (Dict.get "root" d)
  | _ => JNull
  end.

Definition manifest_uri_at (data : json) (pos : list step) : option string :=
  uri_at (manifest_root data) pos.

(** a regular file is at [p] *)
Definition is_regular (w : world) (p : Path) : bool :=
  match Fs.entry w p with
  | Some (File _ _ _) => true
  | _ => false
  end.

(** what a pass does to the uri of a reference, given the uris it rewrites
    and what it rewrites them to *)
Definition rewritten (rw : string → option string) (u : string) : string :=
  default u (rw u).

Definition rewrite_uri (rw : string → option string) (obj : json)
  : json * bool :=
  match obj with
  | JObj d =>
      match Dict.get "uri" d with
      | Some (JStr u) =>
          match rw u with
          | Some u' => (JObj (Dict.set "uri" (JStr u') d), true)
          | None => (obj, false)
          end
      | _ => (obj, false)
      end
  | _ => (obj, false)
  end.

(** the uris Pass A rewrites, and to what: a bare [tileset.*.json] name
    that is a file under [points_dir] *)
Definition pass_a_rule (w : world) (points_dir : Path) (u : string)
  : option string :=
  if PassA.bare_name u && is_regular w (points_dir // u)
  then Some ("points/" +:+ u) else None.

(** [points_dir / s] names a regular file *)
Definition reaches_file (w : world) (points_dir : Path) (s : string)
  : bool :=
  match Fs.reach w points_dir s with
  | Some p => is_regular w p
  | None => false
  end.

(** the uris Pass B rewrites, and to what: a uri that starts with
    ["points/"] and whose remainder, joined to [points_dir], names a
    regular file *)
Definition pass_b_rule (w : world) (points_dir : Path) (u : string)
  : option string :=
  if Str.startswith u "points/"
     && reaches_file w points_dir (Str.drop (String.length "points/") u)
  then Some (Str.drop (String.length "points/") u) else None.

(** the document Pass B writes back to the file at [f], when it writes:
    [f] is a writable file holding a document in which the walk rewrites
    something *)
Definition pass_b_fixes (w : world) (points_dir f : Path) : option json :=
  match Fs.entry w f with
  | Some (File true _ (Doc data)) =>
      let '(data', modified) := PassB.fix_uris_in_data w points_dir data in
      if modified then Some data' else None
  | _ => None
  end.

(** the files Pass B visits: the entries directly inside [points_dir] whose
    name matches [tileset.*.json] *)
Definition pass_b_files (w : world) (points_dir : Path) : list Path :=
  List.map (λ n, points_dir ++ [n])
           (List.filter (Fs.fnmatch "tileset.*.json")
                        (Fs.listdir w points_dir)).

(** a directory is at [p] *)
Definition is_directory (w : world) (p : Path) : bool :=
  match Fs.entry w p with
  | Some Dir => true
  | _ => false
  end.

(** two file systems with regular files at the same paths, and directories
    at the same paths *)
Definition same_files (w w0 : world) : Prop :=
  ∀ q, is_regular w q = is_regular w0 q
       ∧ is_directory w q = is_directory w0 q.

(** nothing that Pass B strips a uri to can be stripped again: whenever a
    string that starts with [points/], joined to [points_dir], names a
    regular file, what is left of it after that prefix, joined to
    [points_dir], names none -- under [points_dir] or anywhere else *)
Definition no_nested_prefix (w : world) (points_dir : Path) : Prop :=
  ∀ s, Str.startswith s "points/" = true →
       reaches_file w points_dir s = true →
       reaches_file w points_dir (Str.drop (String.length "points/") s)
       = false.

(** ** What a computation leaves in place *)

(** every step of [m] takes the file system to one related by [R] *)
Definition preserving {A} (R : world → world → Prop) (m : M A) : Prop :=
  ∀ w r w', m w = (r, w') → R w w'.

(** the directories of [w] are directories of [w'] *)
Definition keeps_dirs (w w' : world) : Prop :=
  ∀ q, Fs.entry w q = Some Dir → Fs.entry w' q = Some Dir.

(** the entry at [p] is the same *)
Definition keeps (p : Path) (w w' : world) : Prop :=
  Fs.entry w' p = Fs.entry w p.

(** [p] can be opened for writing: a writable file is there, or nothing is
    and its directory exists *)
Definition can_write (w : world) (p : Path) : Prop :=
  match Fs.entry w p with
  | Some (File true _ _) => True
  | None => Fs.entry w (Pathlib.parent p) = Some Dir
  | _ => False
  end.

(** ** The size of a document *)

Fixpoint json_size (j : json) : nat :=
  match j with
  | JArr l =>
      S ((fix sum (l : list json) : nat :=
            match l with
            | [] => O
            | x :: r => (json_size x + sum r)%nat
            end) l)
  | JObj d =>
      S ((fix sum (d : list (string * json)) : nat :=
            match d with
            | [] => O
            | (_, v) :: r => (json_size v + sum r)%nat
            end) d)
  | _ => 1%nat
  end.

(** ** parameters.py *)

Module Parameters.

(** what [parser.parse_args(args)] returns: [--input] and [--output-dir]
    are required paths, [--extra-fields] defaults to [None], [--srs-out] is
    a string that defaults to ["4978"], [--overwrite] is a flag *)
Record Namespace : Type := {
  ns_input_path : Path;
  ns_output_dir : Path;
  ns_extra_fields : option string;
  ns_srs_out : string;
  ns_overwrite : bool
}.

Record t : Type := {
  input_path : Path;
  output_dir : Path;
  extra_fields : option string;
  srs_out : option string;
  overwrite : bool
}.

(** [from_args], after the arguments are parsed: an empty [--srs-out]
    becomes [None] *)
Definition from_args (parsed : Namespace) : t :=
  let srs_out := if Str.truthy (ns_srs_out parsed)
                 then Some (ns_srs_out parsed) else None in
  {| input_path := ns_input_path parsed;
     output_dir := ns_output_dir parsed;
     extra_fields := ns_extra_fields parsed;
     srs_out := srs_out;
     overwrite := ns_overwrite parsed |}.

End Parameters.

(** ** run.py *)

(** [list(d.rglob("*"))]: every entry below [d], nothing when [d] is not a
    directory *)
Definition rglob_all (d : Path) : M (list Path) :=
  is_dir ← Fs.is_dir d;
  if negb is_dir then ret [] else
  w ← snapshot;
  ret (List.filter (λ q, bool_decide (d `prefix_of` q ∧ q ≠ d))
                   (map_to_list (nodes w)).*1).

Section Runner.

(** [parser.parse_args(args)], which is argparse's: it returns the parsed
    values, or leaves through [SystemExit] with a code of its own -- 2
    after reporting arguments it refuses, 0 after printing the help. *)
Variable parse_args : list string → Z + Parameters.Namespace.

Variable sys_executable : string.
Variable which : string → option string.
Variable laz_backend : bool.
Variable subprocess_run : list string → M (string * Z).

(** [suffix.lower() in ['.las', '.laz']] *)
Definition accepted_suffix (input_path : Path) : bool :=
  let suffix := Str.lower (Pathlib.suffix input_path) in
  String.eqb suffix ".las" || String.eqb suffix ".laz".

(** [main], run on the arguments of the process; its value is the exit
    code of the process.  [sys.exit] raises [SystemExit], which is no
    [Exception]: the [except Exception] clause does not catch it, neither
    when [main] itself exits nor when argparse does inside [from_args]. *)
Definition main (args : list string) : M Z :=
  match parse_args args with
  | inl code => ret code
  | inr parsed =>
      let params := Parameters.from_args parsed in
      r ← try (exists_ ← Fs.exists_ (Parameters.input_path params);
               if negb exists_ then ret 1 else
               if negb (accepted_suffix (Parameters.input_path params))
               then ret 1 else
               tileset_json ←
                 convert_las_to_3dtiles sys_executable which laz_backend
                   subprocess_run (Parameters.input_path params)
                   (Parameters.output_dir params)
                   (Parameters.extra_fields params)
                   (Parameters.srs_out params)
                   (Parameters.overwrite params);
               output_files ← rglob_all (Parameters.output_dir params);
               ret 0);
      match r with
      | inr code => ret code
      | inl _ => ret 1
      end
  end.

End Runner.

(** ** What a repair may change in a manifest

    Two reference objects are variants when they have the same keys in the
    same order and the same values, but for strings under ["uri"]; two
    tiles, when they differ in their references and in the tiles below them
    only. *)

Definition entry_variant (key : string) (R : json → json → Prop)
    (kv kv' : string * json) : Prop :=
  kv.1 = kv'.1 ∧ (kv.2 = kv'.2 ∨ (kv.1 = key ∧ R kv.2 kv'.2)).

Definition both_strings (v v' : json) : Prop :=
  ∃ s s', v = JStr s ∧ v' = JStr s'.

Definition ref_variant (obj obj' : json) : Prop :=
  obj = obj'
  ∨ ∃ d d', obj = JObj d ∧ obj' = JObj d'
            ∧ Forall2 (entry_variant "uri" both_strings) d d'.

Definition refs_variant (v v' : json) : Prop :=
  ∃ l l', v = JArr l ∧ v' = JArr l' ∧ Forall2 ref_variant l l'.

Inductive tile_variant : json → json → Prop :=
  | tile_same node : tile_variant node node
  | tile_repaired d d' :
      Forall2 (λ kv kv',
                 kv.1 = kv'.1
                 ∧ (kv.2 = kv'.2
                    ∨ (kv.1 = "content" ∧ ref_variant kv.2 kv'.2)
                    ∨ (kv.1 = "contents" ∧ refs_variant kv.2 kv'.2)
                    ∨ (kv.1 = "children"
                       ∧ ∃ l l', kv.2 = JArr l ∧ kv'.2 = JArr l'
                                 ∧ Forall2 tile_variant l l')))
              d d' →
      tile_variant (JObj d) (JObj d').

(** two documents that differ in their root tile only *)
Definition manifest_variant (data data' : json) : Prop :=
  data = data'
  ∨ ∃ d d', data = JObj d ∧ data' = JObj d'
            ∧ Forall2 (entry_variant "root" tile_variant) d d'.

(** ** The freshness of an uncompressed copy *)

(** [las_path] exists and is not older than [laz_path] *)
Definition las_is_fresh (w : world) (las_path laz_path : Path) : bool :=
  match Fs.entry w las_path with
  | None => false
  | Some _ =>
      match Fs.st_mtime las_path w, Fs.st_mtime laz_path w with
      | (inr t_las, _), (inr t_laz, _) => t_laz <=? t_las
      | _, _ => false
      end
  end.

(** what [laspy.read] makes of the file at [p]: the CRS record of a point
    cloud it can decode *)
Definition readable_cloud (laz_backend : bool) (w : world) (p : Path)
  : option (option bool) :=
  match Fs.entry w p with
  | Some (File _ _ (Cloud compressed crs)) =>
      if compressed && negb laz_backend then None else Some crs
  | _ => None
  end.

(** ** What a repair may change in the output directory

    Two entries are variants when they are the same, or both are writable
    files that hold manifests which are variants of each other; a file
    system is a repaired version of another when every path holds variants
    in the two: no entry appears, none goes away, none changes its kind. *)

Definition node_variant (n n' : node) : Prop :=
  n = n' ∨ ∃ t t' data data',
             n = File true t (Doc data) ∧ n' = File true t' (Doc data')
             ∧ manifest_variant data data'.

Definition repaired (w w' : world) : Prop :=
  ∀ p, option_Forall2 node_variant (Fs.entry w p) (Fs.entry w' p).

(** ** The non-empty proper prefixes of a path: its directories *)

Definition proper_ancestor (q p : Path) : Prop :=
  q `prefix_of` p ∧ q ≠ p ∧ q ≠ [].

(** ** Sample output directories *)

Module Sample.

Definition reference (u : string) : json :=
  JObj [("boundingVolume", JNull); ("uri", JStr u)].

Definition tile (content : string) (children : list json) : json :=
  JObj [("geometricError", JInt 4); ("content", reference content);
        ("children", JArr children)].

(** a root manifest that names two auxiliary manifests by bare name, a
    payload by its path, and an auxiliary manifest that is not there *)
Definition root_manifest : json :=
  JObj [("asset", JObj [("version", JStr "1.0")]);
        ("root",
         tile "tileset.1.json"
           [tile "mesh/tile_0.b3dm" [];
            JObj [("contents",
                   JArr [reference "tileset.2.json";
                         reference "tileset.9.json"])]])].

(** an auxiliary manifest that names its payload with the redundant
    prefix *)
Definition aux_manifest (payload : string) : json :=
  JObj [("root", tile ("points/" +:+ payload) [])].

Definition out : Path := ["out"].

Definition file (c : content) : node := File true 0 c.

Definition output_dir : world :=
  World (list_to_map
           [(["out"], Dir);
            (["out"; "tileset.json"], file (Doc root_manifest));
            (["out"; "points"], Dir);
            (["out"; "points"; "tileset.1.json"],
             file (Doc (aux_manifest "tile_7.pnts")));
            (["out"; "points"; "tileset.2.json"],
             file (Doc (aux_manifest "tile_8.pnts")));
            (["out"; "points"; "tileset.3.json"], file (Text "{ oops"));
            (["out"; "points"; "tile_7.pnts"], file (Text "pnts"));
            (["out"; "points"; "mesh"], Dir);
            (["out"; "points"; "mesh"; "tile_0.b3dm"], file (Text "b3dm"))])
        1 (λ _, 0).

(** the same directory with one more auxiliary manifest, named with
    letters between the dots *)
Definition lettered_dir : world :=
  World (<[ ["out"; "points"; "tileset.abc.json"] :=
              file (Doc (aux_manifest "tile_7.pnts")) ]>
           (nodes output_dir))
        1 (λ _, 0).

(** a directory whose [points/] has a [points/] of its own, with a
    payload of the same name at both levels *)
Definition nested_dir : world :=
  World (list_to_map
           [(["out"], Dir);
            (["out"; "points"], Dir);
            (["out"; "points"; "tileset.1.json"],
             file (Doc (aux_manifest "points/a.pnts")));
            (["out"; "points"; "a.pnts"], file (Text "pnts"));
            (["out"; "points"; "points"], Dir);
            (["out"; "points"; "points"; "a.pnts"], file (Text "pnts"))])
        1 (λ _, 0).

(** a root manifest whose references are [tileset.json] itself and a name
    with letters between the dots, both present under [points/] *)
Definition odd_names_manifest : json :=
  JObj [("root", tile "tileset.json" [tile "tileset.abc.json" []])].

Definition odd_names_dir : world :=
  World (list_to_map
           [(["out"], Dir);
            (["out"; "tileset.json"], file (Doc odd_names_manifest));
            (["out"; "points"], Dir);
            (["out"; "points"; "tileset.json"],
             file (Doc (aux_manifest "tile_7.pnts")));
            (["out"; "points"; "tileset.abc.json"],
             file (Doc (aux_manifest "tile_8.pnts")))])
        1 (λ _, 0).

(** a directory that holds the input, and nothing else *)
Definition input_dir : world :=
  World (list_to_map
           [(["in"], Dir);
            (["in"; "plot.las"], file (Cloud false (Some true)))])
        1 (λ _, 0).

(** an earlier conversion's output, next to the input *)
Definition input_and_output_dir : world :=
  World (<[ ["in"] := Dir ]>
           (<[ ["in"; "plot.las"] := file (Cloud false (Some true)) ]>
              (nodes output_dir)))
        1 (λ _, 0).

(** an interpreter with no [py3dtiles] next to it, and none on [PATH] *)
Definition python : string := "/usr/bin/python3".
Definition empty_path (name : string) : option string := None.
Definition venv_path (name : string) : option string :=
  Some ("/venv/bin/" +:+ name).

(** an engine that fails without writing anything *)
Definition failing_engine (cmd : list string) : M (string * Z) :=
  λ w, (inr ("error: cannot read input", 2), w).

(** an engine that writes a root manifest and succeeds, leaving a [points]
    entry that cannot be inspected *)
Definition careless_engine (cmd : list string) : M (string * Z) :=
  λ w, (inr ("done", 0),
        World (<[ ["out"; "tileset.json"] := file (Doc root_manifest) ]>
                 (<[ ["out"; "points"] := Broken ]> (nodes w)))
              (clock w) (dir_mtime w)).

(** an engine that succeeds without writing anything *)
Definition idle_engine (cmd : list string) : M (string * Z) :=
  λ w, (inr ("done", 0), w).

(** a compressed point cloud, alone in its directory *)
Definition laz_dir : world :=
  World (list_to_map
           [(["in"], Dir);
            (["in"; "plot.laz"], File true 5 (Cloud true (Some true)))])
        9 (λ _, 0).

(** the same with a directory where the decompressed copy would be, made
    after the input was written *)
Definition laz_and_directory_dir : world :=
  World (list_to_map
           [(["in"], Dir);
            (["in"; "plot.laz"], File true 5 (Cloud true (Some true)));
            (["in"; "plot.las"], Dir)])
        9 (λ q, if bool_decide (q = ["in"; "plot.las"]) then 7 else 0).

(** the same after an earlier decompression *)
Definition laz_and_las_dir : world :=
  World (list_to_map
           [(["in"], Dir);
            (["in"; "plot.laz"], File true 5 (Cloud true (Some true)));
            (["in"; "plot.las"], File true 7 (Cloud false (Some true)))])
        9 (λ _, 0).

(** an output directory whose auxiliary manifests name files outside
    [points/]: one by an absolute path behind the prefix, one through
    [..] *)
Definition escaping_dir : world :=
  World (list_to_map
           [(["/"; "etc"], Dir);
            (["/"; "etc"; "hostname"], file (Text "host"));
            (["out"], Dir);
            (["out"; "tileset.json"], file (Doc root_manifest));
            (["out"; "points"], Dir);
            (["out"; "points"; "tileset.1.json"],
             file (Doc (aux_manifest "/etc/hostname")));
            (["out"; "points"; "tileset.2.json"],
             file (Doc (aux_manifest "../tileset.json")))])
        1 (λ _, 0).

(** an argument parser that knows one way of giving the two required
    options, and the help *)
Definition argparse (args : list string) : Z + Parameters.Namespace :=
  match args with
  | ["--input"; input; "--output-dir"; output] =>
      inr {| Parameters.ns_input_path := Pathlib.of_string input;
             Parameters.ns_output_dir := Pathlib.of_string output;
             Parameters.ns_extra_fields := None;
             Parameters.ns_srs_out := "4978";
             Parameters.ns_overwrite := false |}
  | ["--help"] => inl 0
  | _ => inl 2
  end.

(** the interpreter of a virtual environment, with the engine next to
    it *)
Definition venv_python : string := "/venv/bin/python".

Definition venv_dir : world :=
  World (list_to_map
           [(["/"; "venv"], Dir);
            (["/"; "venv"; "bin"], Dir);
            (["/"; "venv"; "bin"; "python"], file (Text "elf"));
            (["/"; "venv"; "bin"; "py3dtiles"], file (Text "#!python"))])
        1 (λ _, 0).

(** a regular file where the output directory should be *)
Definition blocked_dir : world :=
  World (<[ ["out"] := file (Text "notes") ]> (nodes input_dir)) 1 (λ _, 0).

(** an earlier output whose log is read-only *)
Definition read_only_log_dir : world :=
  World (<[ ["out"; "tiles_log.txt"] := File false 0 (Text "old") ]>
           (nodes input_and_output_dir))
        1 (λ _, 0).

End Sample.

(** * Properties *)

(** ** Stepping through a computation *)

Lemma bind_ok {A B} (m : M A) (k : A → M B) w a w' :
  m w = (inr a, w') → (m ≫= k) w = k a w'.
Proof. intros H. unfold mbind, M_bind, bind. by rewrite H. Qed.

Lemma bind_raise {A B} (m : M A) (k : A → M B) w e w' :
  m w = (inl e, w') → (m ≫= k) w = (inl e, w').
Proof. intros H. unfold mbind, M_bind, bind. by rewrite H. Qed.

(** ** The command line *)

Section Command.

Variables (exe out inp : Path) (srs extra : option string).

Lemma build_command_shape has_crs :
  build_command exe out has_crs srs extra inp
  = [Pathlib.to_string exe; "convert"; "--out"; Pathlib.to_string out]
    ++ (if has_crs && given srs
        then ["--srs_out"; default "" srs; "--pyproj-always-xy"] else [])
    ++ (if given extra then ["--extra-fields"; default "" extra] else [])
    ++ [Pathlib.to_string inp].
Proof.
  unfold build_command.
  destruct (has_crs && given srs), (given extra); reflexivity.
Qed.

End Command.

(** the arguments the caller supplies are not themselves the two
    transform options *)
Definition not_a_transform_flag (s : string) : Prop :=
  s ≠ "--srs_out" ∧ s ≠ "--pyproj-always-xy".

(** C5. The command line holds the coordinate-transform option, followed by
    the requested CRS and by the axis-order option, exactly when CRS
    metadata was detected and a non-empty output CRS was requested; without
    detected metadata neither option occurs, whatever CRS was requested.
    (An option is told from a value by the caller's own strings -- the
    executable, the output directory, the extra fields, the input -- not
    being spelled like the two options.) *)
Theorem crs_flags_iff_crs_detected_and_requested
    (exe out inp : Path) (has_crs : bool) (srs extra : option string)
    (Hexe : not_a_transform_flag (Pathlib.to_string exe))
    (Hout : not_a_transform_flag (Pathlib.to_string out))
    (Hextra : not_a_transform_flag (default "" extra))
    (Hinp : not_a_transform_flag (Pathlib.to_string inp)) :
  let cmd := build_command exe out has_crs srs extra inp in
  ("--srs_out" ∈ cmd ↔ has_crs = true ∧ given srs = true)
  ∧ ("--pyproj-always-xy" ∈ cmd ↔ has_crs = true ∧ given srs = true)
  ∧ (has_crs = true → given srs = true →
     ∃ v rest, srs = Some v ∧
       cmd = [Pathlib.to_string exe; "convert"; "--out";
              Pathlib.to_string out; "--srs_out"; v; "--pyproj-always-xy"]
             ++ rest)
  ∧ (has_crs = false → ("--srs_out" ∉ cmd) ∧ ("--pyproj-always-xy" ∉ cmd)).
Proof.
  intros cmd. subst cmd. rewrite build_command_shape.
  destruct Hexe as [He1 He2], Hout as [Ho1 Ho2], Hextra as [Hx1 Hx2],
           Hinp as [Hi1 Hi2].
  assert (Hno : ∀ f, (f = "--srs_out" ∨ f = "--pyproj-always-xy") →
            f ∉ [Pathlib.to_string exe; "convert"; "--out";
                 Pathlib.to_string out]
                ++ [] ++ (if given extra
                          then ["--extra-fields"; default "" extra] else [])
                ++ [Pathlib.to_string inp]).
  { intros f Hf Hin.
    destruct (given extra); simpl in Hin;
      repeat (apply elem_of_cons in Hin as [Hin | Hin]);
      try (by apply elem_of_nil in Hin);
      destruct Hf; subst; congruence. }
  destruct (has_crs && given srs) eqn:Hboth.
  - apply andb_true_iff in Hboth as [-> Hg]. rewrite Hg.
    split; [split; [done|intros _; set_solver]|].
    split; [split; [done|intros _; set_solver]|].
    split; [|done]. intros _ _. destruct srs as [v|]; [|done].
    exists v. eexists. split; [done|]. reflexivity.
  - assert (Hnot : ¬ (has_crs = true ∧ given srs = true)).
    { intros [-> Hg]. by rewrite Hg in Hboth. }
    split; [split; [|done]|].
    { intros Hin. exfalso. eapply Hno; [|exact Hin]. by left. }
    split; [split; [|done]|].
    { intros Hin. exfalso. eapply Hno; [|exact Hin]. by right. }
    split; [intros ? ?; by destruct Hnot|].
    intros _. split; apply Hno; auto.
Qed.

Lemma crs_flags_witness :
  let cmd := build_command ["/"; "venv"; "bin"; "py3dtiles"] ["out"] true
               (Some "4978") (Some "PredInstance") ["in"; "plot.las"] in
  ("--srs_out" ∈ cmd ↔ true = true ∧ given (Some "4978") = true)
  ∧ ("--pyproj-always-xy" ∈ cmd ↔ true = true ∧ given (Some "4978") = true)
  ∧ (true = true → given (Some "4978") = true →
     ∃ v rest, Some "4978" = Some v ∧
       cmd = ["/venv/bin/py3dtiles"; "convert"; "--out"; "out"; "--srs_out";
              v; "--pyproj-always-xy"] ++ rest)
  ∧ (true = false → ("--srs_out" ∉ cmd) ∧ ("--pyproj-always-xy" ∉ cmd)).
Proof.
  apply (crs_flags_iff_crs_detected_and_requested
           ["/"; "venv"; "bin"; "py3dtiles"] ["out"] ["in"; "plot.las"] true
           (Some "4978") (Some "PredInstance"));
    split; vm_compute; discriminate.
Defined.

(** ** Dictionaries *)

Lemma dict_get_set_eq k v d : Dict.get k (Dict.set k v d) = Some v.
Proof.
  induction d as [|[k' v'] d IH]; simpl.
  - by rewrite String.eqb_refl.
  - destruct (String.eqb k' k) eqn:E; simpl; rewrite E; done.
Qed.

Lemma dict_get_set_ne k k' v d :
  k ≠ k' → Dict.get k' (Dict.set k v d) = Dict.get k' d.
Proof.
  intros Hne. induction d as [|[k0 v0] d IH]; simpl.
  - destruct (String.eqb k k') eqn:E; [|done].
    apply String.eqb_eq in E. done.
  - destruct (String.eqb k0 k) eqn:E; simpl.
    + apply String.eqb_eq in E. subst k0.
      destruct (String.eqb k k') eqn:E'; [|done].
      apply String.eqb_eq in E'. done.
    + by rewrite IH.
Qed.

Lemma dict_set_same k v d : Dict.get k d = Some v → Dict.set k v d = d.
Proof.
  induction d as [|[k0 v0] d IH]; simpl; [done|].
  destruct (String.eqb k0 k) eqn:E.
  - by intros [= ->].
  - intros H. by rewrite IH.
Qed.

(** ** Induction over the tree *)

Lemma json_size_item c cs :
  c ∈ cs → (json_size c < json_size (JArr cs))%nat.
Proof.
  induction 1 as [c cs|c c' cs _ IH]; simpl in *; lia.
Qed.

Lemma json_size_value k d v :
  Dict.get k d = Some v → (json_size v < json_size (JObj d))%nat.
Proof.
  induction d as [|[k0 v0] d IH]; simpl; [done|].
  destruct (String.eqb k0 k).
  - intros [= ->]. lia.
  - intros H. apply IH in H. simpl in H. lia.
Qed.

(** induction over the tiles of a manifest: a tile's children are the
    items of its ["children"] list *)
Lemma tile_ind (P : json → Prop) :
  (∀ node,
     (∀ d cs c, node = JObj d → Dict.get "children" d = Some (JArr cs) →
                c ∈ cs → P c) →
     P node) →
  ∀ node, P node.
Proof.
  intros Hstep node.
  induction (Nat.lt_wf_0_projected json_size node) as [node _ IH].
  apply Hstep. intros d cs c -> Hget Hin. apply IH.
  apply json_size_value in Hget. apply json_size_item in Hin. lia.
Qed.

(** ** The walk, reference by reference *)

Lemma walk_ext (f g : json → json * bool) :
  (∀ obj, f obj = g obj) → ∀ node, walk f node = walk g node.
Proof.
  intros Hfg node. induction node as [node IH] using tile_ind.
  destruct node as [| | | | | |d]; try reflexivity.
  assert (Hc : ∀ d, fix_content f d = fix_content g d).
  { intros d0. unfold fix_content.
    destruct (Dict.get "content" d0) as [[]|]; try done. by rewrite Hfg. }
  assert (He : ∀ cs, fix_each f cs = fix_each g cs).
  { induction cs as [|c cs IHcs]; [done|]. simpl. rewrite IHcs.
    destruct c; try done. by rewrite Hfg. }
  assert (Hs : ∀ d, fix_contents f d = fix_contents g d).
  { intros d0. unfold fix_contents.
    destruct (Dict.get "contents" d0) as [[]|]; try done. by rewrite He. }
  assert (Hw : ∀ d0, (∀ cs c, Dict.get "children" d0 = Some (JArr cs) →
                        c ∈ cs → walk f c = walk g c) →
                walk_children f d0 = walk_children g d0).
  { induction d0 as [|[k v] d0 IHd]; [done|]. intros Hin. simpl in *.
    destruct (String.eqb k "children").
    - destruct v as [| | | | |cs|]; try done. f_equal.
      specialize (Hin cs).
      induction cs as [|c cs IHcs]; [done|]. simpl.
      rewrite IHcs; [|intros c' ? ?; apply Hin; [done|by right]].
      destruct c; try done. rewrite (Hin _ eq_refl); [done|by left].
    - apply IHd, Hin. }
  change (walk f (JObj d)) with
    (let '(d1, m1) := fix_content f d in
     let '(d2, m2) := fix_contents f d1 in
     match walk_children f d with
     | Some (cs', m3) =>
         (JObj (Dict.set "children" (JArr cs') d2), m1 || m2 || m3)
     | None => (JObj d2, m1 || m2)
     end).
  change (walk g (JObj d)) with
    (let '(d1, m1) := fix_content g d in
     let '(d2, m2) := fix_contents g d1 in
     match walk_children g d with
     | Some (cs', m3) =>
         (JObj (Dict.set "children" (JArr cs') d2), m1 || m2 || m3)
     | None => (JObj d2, m1 || m2)
     end).
  rewrite Hc. destruct (fix_content g d) as [d1 m1].
  rewrite Hs. destruct (fix_contents g d1) as [d2 m2].
  rewrite Hw; [done|]. intros cs c Hget Hin. by eapply IH.
Qed.

Section WalkTheory.

Variable maybe_fix : json → json * bool.
Variable rw : string → option string.
Hypothesis maybe_fix_rw : ∀ obj, maybe_fix obj = rewrite_uri rw obj.

Lemma uri_of_rewrite obj :
  uri_of (maybe_fix obj).1 = rewritten rw <$> uri_of obj.
Proof.
  rewrite maybe_fix_rw. unfold rewrite_uri, rewritten.
  destruct obj as [| | | | | |d]; try done. simpl.
  destruct (Dict.get "uri" d) as [[| | | |u| |]|] eqn:E; simpl;
    rewrite ?E; try done.
  destruct (rw u) as [u'|]; simpl; [|simpl; by rewrite E].
  by rewrite dict_get_set_eq.
Qed.

Lemma rewrite_flag obj :
  (maybe_fix obj).2 = true ↔ ∃ u, uri_of obj = Some u ∧ is_Some (rw u).
Proof.
  rewrite maybe_fix_rw. unfold rewrite_uri.
  destruct obj as [| | | | | |d]; simpl;
    try (split; [done|by intros (? & ? & ?)]).
  destruct (Dict.get "uri" d) as [[| | | |u| |]|]; simpl;
    try (split; [done|by intros (? & ? & ?)]).
  destruct (rw u) as [u'|] eqn:E; simpl.
  - split; [|done]. intros _. exists u. by rewrite E.
  - split; [done|]. intros (u0 & [= <-] & [? Hs]). congruence.
Qed.

Lemma rewrite_unchanged obj : (maybe_fix obj).2 = false → (maybe_fix obj).1 = obj.
Proof.
  rewrite maybe_fix_rw. unfold rewrite_uri.
  destruct obj as [| | | | | |d]; try done.
  destruct (Dict.get "uri" d) as [[| | | |u| |]|]; try done.
  by destruct (rw u).
Qed.

Lemma maybe_fix_not_obj c :
  match c with JObj _ => maybe_fix c | _ => (c, false) end = maybe_fix c.
Proof. rewrite maybe_fix_rw. by destruct c. Qed.

Lemma walk_not_obj c :
  match c with JObj _ => walk maybe_fix c | _ => (c, false) end
  = walk maybe_fix c.
Proof. by destruct c. Qed.

Lemma fix_each_eq cs :
  fix_each maybe_fix cs
  = ((λ c, (maybe_fix c).1) <$> cs, existsb (λ c, (maybe_fix c).2) cs).
Proof.
  induction cs as [|c cs IH]; [done|]. simpl.
  rewrite maybe_fix_not_obj, IH. by destruct (maybe_fix c).
Qed.

Lemma walk_each_eq cs :
  walk_each maybe_fix cs
  = ((λ c, (walk maybe_fix c).1) <$> cs,
     existsb (λ c, (walk maybe_fix c).2) cs).
Proof.
  induction cs as [|c cs IH]; [done|]. simpl.
  rewrite walk_not_obj, IH. by destruct (walk maybe_fix c).
Qed.

Lemma walk_children_get d :
  walk_children maybe_fix d
  = match Dict.get "children" d with
    | Some (JArr cs) => Some (walk_each maybe_fix cs)
    | _ => None
    end.
Proof.
  induction d as [|[k v] d IH]; [done|]. simpl.
  destruct (String.eqb k "children"); [by destruct v|done].
Qed.

Lemma fix_content_get k d :
  k ≠ "content" →
  Dict.get k (fix_content maybe_fix d).1 = Dict.get k d.
Proof.
  intros Hk. unfold fix_content.
  destruct (Dict.get "content" d) as [[]|]; try done.
  destruct (maybe_fix _). simpl. by rewrite dict_get_set_ne.
Qed.

Lemma fix_contents_get k d :
  k ≠ "contents" →
  Dict.get k (fix_contents maybe_fix d).1 = Dict.get k d.
Proof.
  intros Hk. unfold fix_contents.
  destruct (Dict.get "contents" d) as [[]|]; try done.
  destruct (fix_each _ _). simpl. by rewrite dict_get_set_ne.
Qed.

(** [walk] in the order of the source: [children = node.get("children")]
    is read from the node after the two fixes before it *)
Lemma walk_eq d :
  walk maybe_fix (JObj d)
  = let '(d1, m1) := fix_content maybe_fix d in
    let '(d2, m2) := fix_contents maybe_fix d1 in
    match Dict.get "children" d2 with
    | Some (JArr cs) =>
        let '(cs', m3) := walk_each maybe_fix cs in
        (JObj (Dict.set "children" (JArr cs') d2), m1 || m2 || m3)
    | _ => (JObj d2, m1 || m2)
    end.
Proof.
  change (walk maybe_fix (JObj d)) with
    (let '(d1, m1) := fix_content maybe_fix d in
     let '(d2, m2) := fix_contents maybe_fix d1 in
     match walk_children maybe_fix d with
     | Some (cs', m3) =>
         (JObj (Dict.set "children" (JArr cs') d2), m1 || m2 || m3)
     | None => (JObj d2, m1 || m2)
     end).
  rewrite walk_children_get.
  pose proof (fix_content_get "children" d) as H1.
  destruct (fix_content maybe_fix d) as [d1 m1]. simpl in H1.
  pose proof (fix_contents_get "children" d1) as H2.
  destruct (fix_contents maybe_fix d1) as [d2 m2]. simpl in H2.
  rewrite H2, H1 by done.
  by destruct (Dict.get "children" d) as [[]|].
Qed.

(** the three keys of a walked tile *)
Lemma walk_obj d :
  ∃ d', (walk maybe_fix (JObj d)).1 = JObj d'
    ∧ Dict.get "content" d'
      = (λ c, (maybe_fix c).1) <$> Dict.get "content" d
    ∧ Dict.get "contents" d'
      = (λ v, match v with
              | JArr cs => JArr ((λ c, (maybe_fix c).1) <$> cs)
              | _ => v
              end) <$> Dict.get "contents" d
    ∧ Dict.get "children" d'
      = (λ v, match v with
              | JArr cs => JArr ((λ c, (walk maybe_fix c).1) <$> cs)
              | _ => v
              end) <$> Dict.get "children" d.
Proof.
  rewrite walk_eq.
  assert (H1 : Dict.get "content" (fix_content maybe_fix d).1
               = (λ c, (maybe_fix c).1) <$> Dict.get "content" d).
  { unfold fix_content.
    destruct (Dict.get "content" d) as [c|] eqn:E; [|simpl; by rewrite E].
    destruct c; simpl; rewrite ?E, ?maybe_fix_rw; try done.
    rewrite <- maybe_fix_rw. destruct (maybe_fix _). simpl.
    by rewrite dict_get_set_eq. }
  pose proof (fix_content_get "contents" d) as H1s.
  pose proof (fix_content_get "children" d) as H1c.
  destruct (fix_content maybe_fix d) as [d1 m1]. simpl in *.
  assert (H2 : Dict.get "contents" (fix_contents maybe_fix d1).1
               = (λ v, match v with
                       | JArr cs => JArr ((λ c, (maybe_fix c).1) <$> cs)
                       | _ => v
                       end) <$> Dict.get "contents" d1).
  { unfold fix_contents.
    destruct (Dict.get "contents" d1) as [v|] eqn:E; [|simpl; by rewrite E].
    destruct v; simpl; rewrite ?E; try done.
    rewrite fix_each_eq. simpl. by rewrite dict_get_set_eq. }
  pose proof (fix_contents_get "content" d1) as H2t.
  pose proof (fix_contents_get "children" d1) as H2c.
  destruct (fix_contents maybe_fix d1) as [d2 m2]. simpl in *.
  rewrite H1s in H2 by done. rewrite H1c in H2c by done.
  rewrite H1 in H2t by done.
  specialize (H2t ltac:(done)). specialize (H2c ltac:(done)).
  rewrite H2c.
  destruct (Dict.get "children" d) as [[| | | | |cs|]|];
    try (eexists; split; [done|]; by rewrite ?H2t, ?H2, ?H2c).
  rewrite walk_each_eq. eexists. split; [done|].
  by rewrite !dict_get_set_ne, dict_get_set_eq, H2t, H2 by done.
Qed.

(** every reference site keeps its place, and holds the rewritten uri *)
Lemma uri_at_walk pos : ∀ node,
  uri_at (walk maybe_fix node).1 pos = rewritten rw <$> uri_at node pos.
Proof.
  induction pos as [|s rest IH]; intros node; [done|].
  destruct node as [| | | | | |d]; try done.
  destruct (walk_obj d) as (d' & -> & Hc & Hs & Hch).
  cbn [uri_at]. destruct s as [|i|i].
  - destruct rest; [|done]. rewrite Hc.
    destruct (Dict.get "content" d) as [c|]; [|done]. simpl.
    apply uri_of_rewrite.
  - destruct rest; [|done]. rewrite Hs.
    destruct (Dict.get "contents" d) as [[| | | | |cs|]|]; try done. simpl.
    rewrite list_lookup_fmap.
    destruct (cs !! i) as [c|]; [|done]. simpl. apply uri_of_rewrite.
  - rewrite Hch.
    destruct (Dict.get "children" d) as [[| | | | |cs|]|]; try done. simpl.
    rewrite list_lookup_fmap.
    destruct (cs !! i) as [c|]; [|done]. simpl. apply IH.
Qed.

Lemma walk_flag d :
  (walk maybe_fix (JObj d)).2
  = from_option (λ c, (maybe_fix c).2) false (Dict.get "content" d)
    || match Dict.get "contents" d with
       | Some (JArr cs) => existsb (λ c, (maybe_fix c).2) cs
       | _ => false
       end
    || match Dict.get "children" d with
       | Some (JArr cs) => existsb (λ c, (walk maybe_fix c).2) cs
       | _ => false
       end.
Proof.
  rewrite walk_eq.
  pose proof (fix_content_get "contents" d) as H1s.
  pose proof (fix_content_get "children" d) as H1c.
  assert (H1 : (fix_content maybe_fix d).2
               = from_option (λ c, (maybe_fix c).2) false
                             (Dict.get "content" d)).
  { unfold fix_content.
    destruct (Dict.get "content" d) as [c|]; [|done].
    destruct c; simpl; rewrite ?maybe_fix_rw; try done.
    rewrite <- maybe_fix_rw. by destruct (maybe_fix _). }
  destruct (fix_content maybe_fix d) as [d1 m1]. simpl in *.
  pose proof (fix_contents_get "children" d1) as H2c.
  assert (H2 : (fix_contents maybe_fix d1).2
               = match Dict.get "contents" d1 with
                 | Some (JArr cs) => existsb (λ c, (maybe_fix c).2) cs
                 | _ => false
                 end).
  { unfold fix_contents.
    destruct (Dict.get "contents" d1) as [[]|]; try done.
    by rewrite fix_each_eq. }
  destruct (fix_contents maybe_fix d1) as [d2 m2]. simpl in *.
  rewrite H1s in H2 by done. rewrite H2c, H1c by done. subst m1 m2.
  destruct (Dict.get "children" d) as [[| | | | |cs|]|]; simpl;
    rewrite ?orb_false_r; try done.
  by rewrite walk_each_eq.
Qed.

(** the flag is raised exactly when some reference is rewritten *)
Lemma walk_modified node :
  (walk maybe_fix node).2 = true
  ↔ ∃ pos u, uri_at node pos = Some u ∧ is_Some (rw u).
Proof.
  split.
  - induction node as [node IH] using tile_ind.
    destruct node as [| | | | | |d]; try done.
    rewrite walk_flag. intros H.
    apply orb_true_iff in H as [H|H]; [apply orb_true_iff in H as [H|H]|].
    + destruct (Dict.get "content" d) as [c|] eqn:E; [|done]. simpl in H.
      apply rewrite_flag in H as (u & Hu & Hr).
      exists [AtContent], u. split; [|done]. simpl. by rewrite E.
    + destruct (Dict.get "contents" d) as [[| | | | |cs|]|] eqn:E;
        try done.
      apply existsb_exists in H as (c & Hin & H).
      apply list_elem_of_In, list_elem_of_lookup in Hin as [i Hi].
      apply rewrite_flag in H as (u & Hu & Hr).
      exists [AtContents i], u. split; [|done]. simpl.
      by rewrite E, Hi.
    + destruct (Dict.get "children" d) as [[| | | | |cs|]|] eqn:E;
        try done.
      apply existsb_exists in H as (c & Hin & H).
      apply list_elem_of_In in Hin.
      destruct (IH d cs c eq_refl E Hin H) as (pos & u & Hu & Hr).
      apply list_elem_of_lookup in Hin as [i Hi].
      exists (AtChild i :: pos), u. split; [|done]. simpl.
      by rewrite E, Hi.
  - intros (pos & u & Hu & Hr). revert node Hu.
    induction pos as [|s rest IH]; intros node Hu; [done|].
    destruct node as [| | | | | |d]; try done.
    rewrite walk_flag. cbn [uri_at] in Hu. destruct s as [|i|i].
    + destruct rest; [|done].
      destruct (Dict.get "content" d) as [c|]; [|done]. simpl in *.
      apply orb_true_iff; left. apply orb_true_iff; left.
      apply rewrite_flag. eauto.
    + destruct rest; [|done].
      destruct (Dict.get "contents" d) as [[| | | | |cs|]|]; try done.
      destruct (cs !! i) as [c|] eqn:Hi; [|done]. simpl in Hu.
      apply orb_true_iff; left. apply orb_true_iff; right.
      apply existsb_exists. exists c. split.
      * apply list_elem_of_In, list_elem_of_lookup. eauto.
      * apply rewrite_flag. eauto.
    + destruct (Dict.get "children" d) as [[| | | | |cs|]|]; try done.
      destruct (cs !! i) as [c|] eqn:Hi; [|done].
      apply orb_true_iff; right.
      apply existsb_exists. exists c. split.
      * apply list_elem_of_In, list_elem_of_lookup. eauto.
      * by apply IH.
Qed.

Lemma existsb_false {A} (f : A → bool) (l : list A) x :
  existsb f l = false → x ∈ l → f x = false.
Proof.
  intros H Hin. destruct (f x) eqn:E; [|done].
  rewrite <- H. symmetry. apply existsb_exists. exists x.
  by rewrite <- list_elem_of_In.
Qed.

Lemma fmap_fixed {A} (f : A → A) (l : list A) :
  (∀ x, x ∈ l → f x = x) → f <$> l = l.
Proof.
  induction l as [|x l IH]; [done|]. intros H. rewrite fmap_cons.
  rewrite H by left. rewrite IH; [done|]. intros y ?. apply H. by right.
Qed.

(** a walk that raises no flag leaves the tree as it is *)
Lemma walk_unchanged node :
  (walk maybe_fix node).2 = false → (walk maybe_fix node).1 = node.
Proof.
  induction node as [node IH] using tile_ind.
  destruct node as [| | | | | |d]; try done.
  rewrite walk_eq.
  assert (H1 : (fix_content maybe_fix d).2 = false →
               (fix_content maybe_fix d).1 = d).
  { unfold fix_content.
    destruct (Dict.get "content" d) as [c|] eqn:E; [|done].
    destruct c; try done.
    pose proof (rewrite_unchanged (JObj entries)) as Hu.
    destruct (maybe_fix (JObj entries)) as [c m]. simpl in *.
    intros ->. rewrite Hu by done. by apply dict_set_same. }
  pose proof (fix_content_get "children" d) as H1c.
  destruct (fix_content maybe_fix d) as [d1 m1]. simpl in H1, H1c.
  assert (H2 : (fix_contents maybe_fix d1).2 = false →
               (fix_contents maybe_fix d1).1 = d1).
  { unfold fix_contents.
    destruct (Dict.get "contents" d1) as [v|] eqn:E; [|done].
    destruct v as [| | | | |cs|]; try done.
    rewrite fix_each_eq. simpl. intros Hf.
    rewrite fmap_fixed; [by apply dict_set_same|].
    intros c Hc. apply rewrite_unchanged.
    by apply (existsb_false _ _ _ Hf). }
  pose proof (fix_contents_get "children" d1) as H2c.
  destruct (fix_contents maybe_fix d1) as [d2 m2]. simpl in H2, H2c.
  rewrite H1c in H2c by done.
  destruct (Dict.get "children" d2) as [v|] eqn:E.
  - destruct v as [| | | | |cs|]; simpl;
      try (intros Hm; apply orb_false_iff in Hm as [-> ->];
           by rewrite H2, H1).
    rewrite walk_each_eq. simpl. intros Hm.
    apply orb_false_iff in Hm as [Hm Hm3].
    apply orb_false_iff in Hm as [-> ->].
    specialize (H1 eq_refl). specialize (H2 eq_refl). subst d2 d1.
    rewrite fmap_fixed; [by rewrite dict_set_same|].
    intros c Hc. apply (IH d cs c eq_refl); [by rewrite <- H2c by done|done|].
    by apply (existsb_false _ _ _ Hm3).
  - simpl. intros Hm. apply orb_false_iff in Hm as [-> ->].
    by rewrite H2, H1.
Qed.

(** when no rewritten uri is itself rewritten, a second walk finds
    nothing to do *)
Lemma walk_twice node :
  (∀ u u', rw u = Some u' → rw u' = None) →
  walk maybe_fix (walk maybe_fix node).1 = ((walk maybe_fix node).1, false).
Proof.
  intros Hrw.
  assert (H : (walk maybe_fix (walk maybe_fix node).1).2 = false).
  { destruct (walk maybe_fix (walk maybe_fix node).1).2 eqn:E; [|done].
    apply walk_modified in E as (pos & u & Hu & [u' Hr]).
    rewrite uri_at_walk in Hu.
    destruct (uri_at node pos) as [u0|]; [|done].
    injection Hu as <-. unfold rewritten in Hr.
    destruct (rw u0) as [u1|] eqn:E0; simpl in Hr.
    - apply Hrw in E0. congruence.
    - congruence. }
  pose proof (walk_unchanged _ H) as H'.
  destruct (walk maybe_fix (walk maybe_fix node).1). simpl in *. congruence.
Qed.

End WalkTheory.

(** ** The file system *)

Lemma exists_and_is_file_eq w candidate :
  exists_and_is_file w candidate
  = match candidate with
    | Some p => is_regular w p
    | None => false
    end.
Proof.
  destruct candidate as [p|]; [|done].
  unfold exists_and_is_file, is_regular, try, mbind, M_bind, bind,
    Fs.exists_, Fs.is_file, ret.
  destruct (Fs.entry w p) as [[]|] eqn:E; simpl; rewrite ?E; done.
Qed.

(** ** Resolving what is read from a manifest *)

(** without [..] the components lead where they are joined *)
Lemma follow_plain w rest : ∀ p,
  ".." ∉ rest → Fs.follow w p rest = Some (p ++ rest).
Proof.
  induction rest as [|c r IH]; intros p Hr; simpl.
  - by rewrite app_nil_r.
  - apply not_elem_of_cons in Hr as [Hc Hr].
    destruct (String.eqb c "..") eqn:E.
    + apply String.eqb_eq in E. by subst.
    + rewrite IH by done. by rewrite <- app_assoc.
Qed.

(** from a place where nothing is, the components lead nowhere else *)
Lemma follow_nowhere w p0 rest : ∀ p q,
  (∀ q', p0 `prefix_of` q' → Fs.entry w q' = None) →
  p0 `prefix_of` p → Fs.follow w p rest = Some q → p0 `prefix_of` q.
Proof.
  induction rest as [|c r IH]; intros p q Hnone Hp; simpl.
  - by intros [= <-].
  - destruct (String.eqb c "..").
    + by rewrite (Hnone p Hp).
    + apply IH; [done|]. by apply prefix_app_r.
Qed.

Lemma reach_plain w p s :
  ".." ∉ Pathlib.components s → Fs.reach w p s = Some (p // s).
Proof.
  intros Hs. unfold Fs.reach, Pathlib.join.
  destruct (Pathlib.anchor_of s); by rewrite follow_plain.
Qed.

Lemma entry_not_implicit w p n :
  Fs.entry w p = Some n → n ≠ Dir → Fs.implicit p = false.
Proof.
  unfold Fs.entry. destruct (Fs.implicit p); [|done]. by intros [= <-].
Qed.

Lemma entry_put p c w q :
  Fs.implicit p = false →
  Fs.entry (Fs.put p c w) q
  = if decide (q = p) then Some (File true (clock w) c) else Fs.entry w q.
Proof.
  intros Hp. unfold Fs.entry, Fs.put. simpl. case_decide as Hq.
  - subst q. by rewrite Hp, lookup_insert_eq.
  - by rewrite lookup_insert_ne.
Qed.

(** overwriting a file leaves every path of the kind it had *)
Lemma is_regular_put p c w q :
  is_regular w p = true → is_regular (Fs.put p c w) q = is_regular w q.
Proof.
  intros Hp. unfold is_regular in *.
  destruct (Fs.entry w p) as [[]|] eqn:E; try done.
  rewrite entry_put by (by eapply entry_not_implicit).
  case_decide; [subst; by rewrite E|done].
Qed.

Lemma is_directory_put p c w q :
  is_regular w p = true → is_directory (Fs.put p c w) q = is_directory w q.
Proof.
  intros Hp. unfold is_regular, is_directory in *.
  destruct (Fs.entry w p) as [[]|] eqn:E; try done.
  rewrite entry_put by (by eapply entry_not_implicit).
  case_decide; [subst; by rewrite E|done].
Qed.

Lemma same_files_refl w : same_files w w.
Proof. by intros q. Qed.

Lemma same_files_put p c w w0 :
  is_regular w p = true → same_files w w0 → same_files (Fs.put p c w) w0.
Proof.
  intros Hp Hs q. rewrite is_regular_put, is_directory_put by done.
  apply Hs.
Qed.

(** the way a string leads depends on where the directories are *)
Lemma follow_same w w0 rest : ∀ p,
  same_files w w0 → Fs.follow w p rest = Fs.follow w0 p rest.
Proof.
  induction rest as [|c r IH]; intros p Hs; [done|]. simpl.
  destruct (String.eqb c ".."); [|by apply IH].
  pose proof (proj2 (Hs p)) as Hd. unfold is_directory in Hd.
  destruct (Fs.entry w p) as [[]|], (Fs.entry w0 p) as [[]|];
    try done; by apply IH.
Qed.

Lemma reaches_file_same w w0 points_dir s :
  same_files w w0 → reaches_file w points_dir s = reaches_file w0 points_dir s.
Proof.
  intros Hs. unfold reaches_file, Fs.reach.
  destruct (Pathlib.anchor_of s); rewrite (follow_same w w0) by done;
    (destruct (Fs.follow w0 _ _); [apply Hs|done]).
Qed.

Lemma exists_file w p wr t c :
  Fs.entry w p = Some (File wr t c) → Fs.exists_ p w = (inr true, w).
Proof. intros H. unfold Fs.exists_. by rewrite H. Qed.

Lemma json_load_doc w p wr t j :
  Fs.entry w p = Some (File wr t (Doc j)) → json_load p w = (inr j, w).
Proof.
  intros H. unfold json_load, mbind, M_bind, bind, Fs.read. by rewrite H.
Qed.

Lemma json_dump_writable w p t c j :
  Fs.entry w p = Some (File true t c) →
  json_dump p j w = (inr tt, Fs.put p (Doc j) w).
Proof. intros H. unfold json_dump, Fs.write. by rewrite H. Qed.

Lemma json_dump_read_only w p t c j :
  Fs.entry w p = Some (File false t c) →
  json_dump p j w = (inl PermissionError, w).
Proof. intros H. unfold json_dump, Fs.write. by rewrite H. Qed.

(** ** The two passes as uri rewriting *)

Lemma contains_not_bare u : Str.contains "/" u = true → PassA.bare_name u = false.
Proof. unfold PassA.bare_name. intros ->. by rewrite andb_false_r. Qed.

Lemma split_without_separator c s :
  Str.contains c s = false → Str.split c s = [s].
Proof.
  induction s as [|a s IH]; [done|]. simpl.
  intros [-> Hs]%orb_false_iff. by rewrite IH.
Qed.

(** a bare name, joined to a directory, is the entry of that name in it *)
Lemma bare_name_joined p u : PassA.bare_name u = true → p // u = p ++ [u].
Proof.
  unfold PassA.bare_name. intros [[Hs _]%andb_true_iff Hc]%andb_true_iff.
  apply negb_true_iff in Hc. destruct u as [|a u]; [done|].
  simpl in Hs. apply andb_true_iff in Hs as [->%Ascii.eqb_eq _].
  unfold Pathlib.join, Pathlib.components. simpl Pathlib.anchor_of.
  by rewrite split_without_separator.
Qed.

(** a bare name has nothing to resolve *)
Lemma reach_bare_name w p u :
  PassA.bare_name u = true → Fs.reach w p u = Some (p // u).
Proof.
  intros Hb. apply reach_plain. revert Hb.
  unfold PassA.bare_name. intros [[Hs _]%andb_true_iff Hc]%andb_true_iff.
  apply negb_true_iff in Hc. destruct u as [|a u]; [done|].
  simpl in Hs. apply andb_true_iff in Hs as [->%Ascii.eqb_eq _].
  unfold Pathlib.components. rewrite split_without_separator by done.
  simpl. by intros [[=]|[]%elem_of_nil]%elem_of_cons.
Qed.

Lemma pass_a_maybe_fix w points_dir obj :
  PassA.maybe_fix_uri w points_dir obj
  = rewrite_uri (pass_a_rule w points_dir) obj.
Proof.
  unfold PassA.maybe_fix_uri, rewrite_uri, pass_a_rule.
  destruct obj as [| | | | | |d]; try done.
  destruct (Dict.get "uri" d) as [[| | | |u| |]|]; try done.
  destruct (PassA.bare_name u) eqn:Hb; [|done].
  rewrite exists_and_is_file_eq, reach_bare_name by done.
  by destruct (is_regular w (points_dir // u)).
Qed.

Lemma pass_b_maybe_fix w points_dir obj :
  PassB.maybe_fix w points_dir obj
  = rewrite_uri (pass_b_rule w points_dir) obj.
Proof.
  unfold PassB.maybe_fix, rewrite_uri, pass_b_rule.
  destruct obj as [| | | | | |d]; try done.
  destruct (Dict.get "uri" d) as [[| | | |u| |]|]; try done.
  rewrite exists_and_is_file_eq. fold (reaches_file w points_dir
    (Str.drop (String.length "points/") u)).
  destruct (Str.startswith u "points/"); [|done].
  by destruct (reaches_file w _ _).
Qed.

Lemma uri_at_empty pos : uri_at (JObj []) pos = None.
Proof. by destruct pos as [|[] []]. Qed.

(** [walk_root] on the references of the manifest *)
Section WalkRoot.

Variable maybe_fix : json → json * bool.
Variable rw : string → option string.
Hypothesis maybe_fix_rw : ∀ obj, maybe_fix obj = rewrite_uri rw obj.

Lemma walk_root_uri_at data data' m pos :
  walk_root maybe_fix data = inr (data', m) →
  manifest_uri_at data' pos = rewritten rw <$> manifest_uri_at data pos.
Proof using maybe_fix_rw.
  unfold walk_root, manifest_uri_at, manifest_root.
  destruct data as [| | | | | |d]; try done.
  destruct (Dict.get "root" d) as [root|] eqn:E.
  - pose proof (uri_at_walk maybe_fix rw maybe_fix_rw pos root) as H.
    destruct (walk maybe_fix root) as [root' m']. intros [= <- <-].
    by rewrite dict_get_set_eq.
  - intros [= <- <-]. rewrite E. simpl. by rewrite uri_at_empty.
Qed.

Lemma walk_root_modified data data' m :
  walk_root maybe_fix data = inr (data', m) →
  m = true ↔ ∃ pos u, manifest_uri_at data pos = Some u ∧ is_Some (rw u).
Proof using maybe_fix_rw.
  unfold walk_root, manifest_uri_at, manifest_root.
  destruct data as [| | | | | |d]; try done.
  destruct (Dict.get "root" d) as [root|] eqn:E.
  - pose proof (walk_modified maybe_fix rw maybe_fix_rw root) as H.
    destruct (walk maybe_fix root) as [root' m']. by intros [= <- <-].
  - intros [= <- <-]. simpl. split; [done|].
    intros (pos & u & H & _). by rewrite uri_at_empty in H.
Qed.

Lemma walk_root_unchanged data data' :
  walk_root maybe_fix data = inr (data', false) → data' = data.
Proof using maybe_fix_rw.
  unfold walk_root. destruct data as [| | | | | |d]; try done.
  destruct (Dict.get "root" d) as [root|] eqn:E; [|by intros [= <-]].
  pose proof (walk_unchanged maybe_fix rw maybe_fix_rw root) as H.
  destruct (walk maybe_fix root) as [root' m']. intros [= <- ->].
  simpl in H. rewrite H by done. by rewrite dict_set_same.
Qed.

Lemma walk_root_not_object data e pos :
  walk_root maybe_fix data = inl e → manifest_uri_at data pos = None.
Proof.
  unfold walk_root, manifest_uri_at, manifest_root.
  destruct data as [| | | | | |d]; try (by destruct pos).
  destruct (Dict.get "root" d); [by destruct (walk _ _)|done].
Qed.

Lemma walk_root_twice data data' m :
  (∀ u u', rw u = Some u' → rw u' = None) →
  walk_root maybe_fix data = inr (data', m) →
  walk_root maybe_fix data' = inr (data', false).
Proof using maybe_fix_rw.
  intros Hrw. unfold walk_root. destruct data as [| | | | | |d]; try done.
  destruct (Dict.get "root" d) as [root|] eqn:E.
  - pose proof (walk_twice maybe_fix rw maybe_fix_rw root Hrw) as H.
    destruct (walk maybe_fix root) as [root' m']. intros [= <- <-].
    rewrite dict_get_set_eq. simpl in H. rewrite H.
    by rewrite dict_set_same by apply dict_get_set_eq.
  - intros [= <- <-]. by rewrite E.
Qed.

End WalkRoot.

(** run the first action of a sequence, given what it yields *)
Ltac step H :=
  first [rewrite (bind_ok _ _ _ _ _ H) | rewrite (bind_raise _ _ _ _ _ H)];
  cbv beta; cbn [negb]; cbv beta iota.

Lemma try_ok {A} (m : M A) w r w' : m w = (r, w') → try m w = (inr r, w').
Proof. intros H. unfold try. by rewrite H. Qed.

Lemma snapshot_eq w : snapshot w = (inr w, w).
Proof. done. Qed.

Lemma rewritten_pass_a w points_dir u :
  rewritten (pass_a_rule w points_dir) u
  = if PassA.bare_name u && is_regular w (points_dir // u)
    then "points/" +:+ u else u.
Proof. unfold rewritten, pass_a_rule. by destruct (_ && _). Qed.

Lemma is_Some_pass_a w points_dir u :
  is_Some (pass_a_rule w points_dir u)
  ↔ PassA.bare_name u = true ∧ is_regular w (points_dir // u) = true.
Proof.
  unfold pass_a_rule.
  destruct (PassA.bare_name u), (is_regular w (points_dir // u)); simpl;
    split; try done; try (by intros [? ?]); by intros [].
Qed.

(** what Pass A returns and leaves behind, by the outcome of the walk *)
Lemma pass_a_run w tiles_dir wr t data :
  Fs.entry w (tiles_dir // "tileset.json") = Some (File wr t (Doc data)) →
  PassA.rewrite_child_tileset_uris_if_needed tiles_dir w
  = match walk_root (PassA.maybe_fix_uri w (tiles_dir // "points")) data with
    | inr (data', true) =>
        if wr
        then (inr true, Fs.put (tiles_dir // "tileset.json") (Doc data') w)
        else (inr false, w)
    | _ => (inr false, w)
    end.
Proof.
  intros Hmain. unfold PassA.rewrite_child_tileset_uris_if_needed.
  step (exists_file _ _ _ _ _ Hmain).
  step (try_ok _ _ _ _ (json_load_doc _ _ _ _ _ Hmain)).
  step (snapshot_eq w).
  destruct (walk_root _ data) as [e|[data' []]]; try done.
  destruct wr.
  - by step (try_ok _ _ _ _ (json_dump_writable _ _ _ _ data' Hmain)).
  - by step (try_ok _ _ _ _ (json_dump_read_only _ _ _ _ data' Hmain)).
Qed.

(** C1. Pass A, run on a root manifest it can read and write: every
    reference of the tree keeps its place; its uri becomes the same name
    prefixed with [points/] if and only if it is a bare name (starts with
    [tileset.], ends with [.json], has no path separator) and a file of
    that name exists under the [points/] subdirectory (the entry of that
    name directly inside it), and is left unchanged otherwise -- in
    particular when it contains a path separator; and the pass reports
    [modified = true] exactly when some reference was rewritten. *)
Theorem pass_a_rewrites_exactly_present_bare_names
    (w : world) (tiles_dir : Path) (t : Z) (data : json)
    (Hmain : Fs.entry w (tiles_dir // "tileset.json")
             = Some (File true t (Doc data))) :
  let points_dir := tiles_dir // "points" in
  let present u :=
    PassA.bare_name u && is_regular w (points_dir // u) in
  ∃ modified data' w',
    PassA.rewrite_child_tileset_uris_if_needed tiles_dir w
    = (inr modified, w')
    ∧ json_load (tiles_dir // "tileset.json") w' = (inr data', w')
    ∧ (∀ pos,
         manifest_uri_at data' pos
         = (λ u, if present u then "points/" +:+ u else u)
             <$> manifest_uri_at data pos)
    ∧ (modified = true
       ↔ ∃ pos u, manifest_uri_at data pos = Some u ∧ present u = true)
    ∧ (∀ pos u, manifest_uri_at data pos = Some u →
                Str.contains "/" u = true →
                manifest_uri_at data' pos = Some u)
    ∧ (∀ u, PassA.bare_name u = true → points_dir // u = points_dir ++ [u]).
Proof.
  intros points_dir present.
  cut (∃ modified data' w',
         PassA.rewrite_child_tileset_uris_if_needed tiles_dir w
         = (inr modified, w')
         ∧ json_load (tiles_dir // "tileset.json") w' = (inr data', w')
         ∧ (∀ pos,
              manifest_uri_at data' pos
              = (λ u, if present u then "points/" +:+ u else u)
                  <$> manifest_uri_at data pos)
         ∧ (modified = true
            ↔ ∃ pos u, manifest_uri_at data pos = Some u ∧ present u = true)
         ∧ (∀ pos u, manifest_uri_at data pos = Some u →
                     Str.contains "/" u = true →
                     manifest_uri_at data' pos = Some u)).
  { intros (m & data' & w' & H1 & H2 & H3 & H4 & H5).
    exists m, data', w'. repeat (split; [done|]).
    intros u. apply bare_name_joined. }
  pose proof (pass_a_maybe_fix w points_dir) as Hfix.
  assert (Hexpected : ∀ data' m,
            walk_root (PassA.maybe_fix_uri w points_dir) data = inr (data', m) →
            (∀ pos, manifest_uri_at data' pos
                    = (λ u, if present u then "points/" +:+ u else u)
                        <$> manifest_uri_at data pos)
            ∧ (m = true
               ↔ ∃ pos u, manifest_uri_at data pos = Some u
                          ∧ present u = true)).
  { intros data' m Hw. split.
    - intros pos. rewrite (walk_root_uri_at _ _ Hfix _ _ _ pos Hw).
      destruct (manifest_uri_at data pos) as [u|]; [|done]. simpl.
      by rewrite rewritten_pass_a.
    - rewrite (walk_root_modified _ _ Hfix _ _ _ Hw).
      split; intros (pos & u & Hu & Hp); exists pos, u; (split; [done|]).
      + apply is_Some_pass_a in Hp as [Hb Hr]. unfold present.
        by rewrite Hb, Hr.
      + apply is_Some_pass_a. by apply andb_true_iff. }
  assert (Hsep : ∀ data',
            (∀ pos, manifest_uri_at data' pos
                    = (λ u, if present u then "points/" +:+ u else u)
                        <$> manifest_uri_at data pos) →
            ∀ pos u, manifest_uri_at data pos = Some u →
                     Str.contains "/" u = true →
                     manifest_uri_at data' pos = Some u).
  { intros data' Hall pos u Hu Hc. rewrite Hall, Hu. simpl.
    unfold present. by rewrite (contains_not_bare _ Hc). }
  rewrite (pass_a_run _ _ _ _ _ Hmain). fold points_dir.
  destruct (walk_root _ data) as [e|[data' m]] eqn:Hw.
  - (* the document is not an object: it holds no reference *)
    assert (Hnone : ∀ pos, manifest_uri_at data pos = None)
      by (intros pos; by eapply walk_root_not_object).
    exists false, data, w. split; [done|].
    split; [by eapply json_load_doc|].
    split; [intros pos; by rewrite Hnone|].
    split; [|intros pos u; by rewrite Hnone].
    split; [done|]. intros (pos & u & Hu & _). by rewrite Hnone in Hu.
  - destruct (Hexpected _ _ eq_refl) as [Hall Hm]. destruct m.
    + exists true, data', (Fs.put (tiles_dir // "tileset.json") (Doc data') w).
      split; [done|]. split; [|by auto].
      eapply json_load_doc. rewrite entry_put, decide_True; [done..|].
      by eapply entry_not_implicit.
    + apply (walk_root_unchanged _ _ Hfix) in Hw as ->.
      exists false, data, w. split; [done|].
      split; [by eapply json_load_doc|]. by auto.
Qed.

Lemma pass_a_rewrites_witness :
  let w := Sample.output_dir in
  let present u :=
    PassA.bare_name u && is_regular w (Sample.out // "points" // u) in
  ∃ modified data' w',
    PassA.rewrite_child_tileset_uris_if_needed Sample.out w
    = (inr modified, w')
    ∧ json_load (Sample.out // "tileset.json") w' = (inr data', w')
    ∧ (∀ pos,
         manifest_uri_at data' pos
         = (λ u, if present u then "points/" +:+ u else u)
             <$> manifest_uri_at Sample.root_manifest pos)
    ∧ (modified = true
       ↔ ∃ pos u, manifest_uri_at Sample.root_manifest pos = Some u
                  ∧ present u = true)
    ∧ (∀ pos u, manifest_uri_at Sample.root_manifest pos = Some u →
                Str.contains "/" u = true →
                manifest_uri_at data' pos = Some u)
    ∧ (∀ u, PassA.bare_name u = true →
            Sample.out // "points" // u = (Sample.out // "points") ++ [u]).
Proof.
  apply (pass_a_rewrites_exactly_present_bare_names
           Sample.output_dir Sample.out 0 Sample.root_manifest).
  vm_compute. reflexivity.
Defined.

(** ** Pass B, file by file *)

Lemma pass_b_rule_same w w0 points_dir u :
  same_files w w0 → pass_b_rule w points_dir u = pass_b_rule w0 points_dir u.
Proof.
  intros H. unfold pass_b_rule. by rewrite (reaches_file_same w w0).
Qed.

Lemma walk_root_ext (f g : json → json * bool) data :
  (∀ obj, f obj = g obj) → walk_root f data = walk_root g data.
Proof.
  intros H. unfold walk_root. destruct data; try done.
  destruct (Dict.get "root" _); by rewrite !(walk_ext f g H).
Qed.

Lemma fix_uris_same w w0 points_dir data :
  same_files w w0 →
  PassB.fix_uris_in_data w points_dir data
  = PassB.fix_uris_in_data w0 points_dir data.
Proof.
  intros H. unfold PassB.fix_uris_in_data.
  rewrite (walk_root_ext (PassB.maybe_fix w points_dir)
                         (PassB.maybe_fix w0 points_dir)); [done|].
  intros obj. rewrite !pass_b_maybe_fix. unfold rewrite_uri.
  destruct obj as [| | | | | |d]; try done.
  destruct (Dict.get "uri" d) as [[| | | |u| |]|]; try done.
  by rewrite (pass_b_rule_same w w0).
Qed.

Lemma pass_b_fixes_same w w0 points_dir f :
  same_files w w0 → Fs.entry w f = Fs.entry w0 f →
  pass_b_fixes w points_dir f = pass_b_fixes w0 points_dir f.
Proof.
  intros Hs He. unfold pass_b_fixes. rewrite He.
  destruct (Fs.entry w0 f) as [[[] t []|
                                 |]|]; try done.
  by rewrite (fix_uris_same w w0).
Qed.

Lemma json_load_fails w p :
  (∀ wr t j, Fs.entry w p ≠ Some (File wr t (Doc j))) →
  ∃ e, json_load p w = (inl e, w).
Proof.
  intros H. unfold json_load, mbind, M_bind, bind, Fs.read.
  destruct (Fs.entry w p) as [[wr t []| |]|] eqn:E; eauto.
  by destruct (H wr t j).
Qed.

Lemma visit_run points_dir f count w :
  PassB.visit points_dir f count w
  = match pass_b_fixes w points_dir f with
    | Some data' => (inr (S count), Fs.put f (Doc data') w)
    | None => (inr count, w)
    end.
Proof.
  unfold PassB.visit, pass_b_fixes.
  destruct (Fs.entry w f) as [[wr t c| |]|] eqn:E.
  - destruct c as [s|data|z o].
    + destruct (json_load_fails w f) as [e He]; [congruence|].
      step (try_ok _ _ _ _ He). by destruct wr.
    + step (try_ok _ _ _ _ (json_load_doc _ _ _ _ _ E)).
      step (snapshot_eq w).
      destruct (PassB.fix_uris_in_data w points_dir data) as [data' []];
        [|by destruct wr].
      destruct wr.
      * by step (try_ok _ _ _ _ (json_dump_writable _ _ _ _ data' E)).
      * by step (try_ok _ _ _ _ (json_dump_read_only _ _ _ _ data' E)).
    + destruct (json_load_fails w f) as [e He]; [congruence|].
      step (try_ok _ _ _ _ He). by destruct wr.
  - destruct (json_load_fails w f) as [e He]; [congruence|].
    by step (try_ok _ _ _ _ He).
  - destruct (json_load_fails w f) as [e He]; [congruence|].
    by step (try_ok _ _ _ _ He).
  - destruct (json_load_fails w f) as [e He]; [congruence|].
    by step (try_ok _ _ _ _ He).
Qed.

Lemma pass_b_fixes_file w points_dir f data' :
  pass_b_fixes w points_dir f = Some data' → is_regular w f = true.
Proof.
  unfold pass_b_fixes, is_regular. by destruct (Fs.entry w f) as [[]|].
Qed.

(** the loop over the files: its count, and the file system it leaves *)
Lemma for_each_run points_dir w0 files : ∀ w count,
  NoDup files → same_files w w0 →
  (∀ f, f ∈ files → Fs.entry w f = Fs.entry w0 f) →
  ∃ w',
    PassB.for_each points_dir files count w
    = (inr (count + length (filter (λ f, is_Some (pass_b_fixes w0 points_dir f))
                                   files))%nat, w')
    ∧ same_files w' w0
    ∧ (∀ p, p ∉ files → Fs.entry w' p = Fs.entry w p)
    ∧ (∀ f, f ∈ files →
         match pass_b_fixes w0 points_dir f with
         | Some data' => ∃ t, Fs.entry w' f = Some (File true t (Doc data'))
         | None => Fs.entry w' f = Fs.entry w0 f
         end).
Proof.
  induction files as [|f files IH]; intros w count Hnd Hsame Hent.
  - exists w. simpl. rewrite Nat.add_0_r.
    split; [done|]. split; [done|]. split; [done|].
    intros f Hf. by apply elem_of_nil in Hf.
  - apply NoDup_cons in Hnd as [Hf Hnd]. cbn [PassB.for_each].
    assert (Hfix : pass_b_fixes w points_dir f = pass_b_fixes w0 points_dir f)
      by (apply pass_b_fixes_same; [done|apply Hent; by left]).
    pose proof (visit_run points_dir f count w) as Hv. rewrite Hfix in Hv.
    destruct (pass_b_fixes w0 points_dir f) as [data'|] eqn:E.
    + assert (Hreg : is_regular w f = true)
        by (eapply pass_b_fixes_file; by rewrite Hfix).
      assert (Himp : Fs.implicit f = false).
      { unfold is_regular in Hreg.
        destruct (Fs.entry w f) as [[]|] eqn:E'; try done.
        by eapply entry_not_implicit. }
      step Hv.
      destruct (IH (Fs.put f (Doc data') w) (S count) Hnd)
        as (w' & Hrun & Hs' & Hother & Hfiles).
      { by apply same_files_put. }
      { intros g Hg. rewrite entry_put, decide_False by set_solver.
        apply Hent. by right. }
      exists w'. rewrite Hrun.
      rewrite filter_cons_True by (by rewrite E).
      split; [f_equal; f_equal; simpl; lia|]. split; [done|].
      split.
      * intros p Hp. rewrite Hother by set_solver.
        rewrite entry_put, decide_False by set_solver. done.
      * intros g Hg. apply elem_of_cons in Hg as [->|Hg]; [|by apply Hfiles].
        rewrite E. rewrite Hother by done.
        rewrite entry_put, decide_True by done. eauto.
    + step Hv.
      destruct (IH w count Hnd Hsame) as (w' & Hrun & Hs' & Hother & Hfiles).
      { intros g Hg. apply Hent. by right. }
      exists w'. rewrite Hrun.
      rewrite filter_cons_False by (rewrite E; by intros [? ?]).
      split; [done|]. split; [done|]. split.
      * intros p Hp. apply Hother. set_solver.
      * intros g Hg. apply elem_of_cons in Hg as [->|Hg]; [|by apply Hfiles].
        rewrite E. rewrite Hother by done. apply Hent. by left.
Qed.

(** ** The files Pass B visits *)

Lemma child_name_Some d q n : Fs.child_name d q = Some n ↔ q = d ++ [n].
Proof.
  unfold Fs.child_name. split.
  - destruct (drop (length d) q) as [|n' [|]] eqn:E; try done.
    case_bool_decide as Ht; [|done]. intros [= ->].
    by rewrite <- (take_drop (length d) q), E, Ht.
  - intros ->. rewrite drop_app_length, take_app_length.
    by rewrite bool_decide_eq_true_2.
Qed.

Lemma visited_among_keys d (l : list (Path * node)) f :
  f ∈ List.map (λ n, d ++ [n])
        (List.filter (Fs.fnmatch "tileset.*.json")
                     (omap (λ kv : Path * node, Fs.child_name d kv.1) l)) ↔
  ∃ n, f = d ++ [n] ∧ Fs.fnmatch "tileset.*.json" n = true ∧ f ∈ l.*1.
Proof.
  rewrite list_elem_of_In, in_map_iff. split.
  - intros (n & <- & Hn). apply filter_In in Hn as [Hn Hm].
    apply list_elem_of_In, list_elem_of_omap in Hn as ([q v] & Hq & Hc).
    apply child_name_Some in Hc. simpl in Hc. subst q.
    exists n. split; [done|]. split; [done|].
    apply list_elem_of_fmap. by exists (d ++ [n], v).
  - intros (n & -> & Hm & Hin). exists n. split; [done|].
    apply filter_In. split; [|done].
    apply list_elem_of_In, list_elem_of_omap.
    apply list_elem_of_fmap in Hin as ([q v] & Hq & Hin). simpl in Hq.
    exists (q, v). split; [done|]. by apply child_name_Some.
Qed.

Lemma visited_NoDup d (l : list (Path * node)) :
  NoDup l.*1 →
  NoDup (List.map (λ n, d ++ [n])
           (List.filter (Fs.fnmatch "tileset.*.json")
                        (omap (λ kv : Path * node, Fs.child_name d kv.1) l))).
Proof.
  induction l as [|[q v] l IH]; [constructor|].
  rewrite fmap_cons. intros [Hq Hnd]%NoDup_cons. cbn [omap list_omap].
  destruct (Fs.child_name d (q, v).1) as [n|] eqn:E; [|by apply IH].
  cbn [List.filter]. destruct (Fs.fnmatch _ n); [|by apply IH].
  cbn [List.map]. apply NoDup_cons. split; [|by apply IH].
  apply child_name_Some in E. simpl in E. subst q.
  intros (n' & _ & _ & Hin)%visited_among_keys. done.
Qed.

Lemma pass_b_files_NoDup w d : NoDup (pass_b_files w d).
Proof. apply visited_NoDup, NoDup_fst_map_to_list. Qed.

(** Pass B visits the entries directly inside [points/] whose name matches
    the pattern, and no other path *)
Lemma elem_of_pass_b_files w d f :
  f ∈ pass_b_files w d ↔
  ∃ n, f = d ++ [n] ∧ Fs.fnmatch "tileset.*.json" n = true
       ∧ is_Some (nodes w !! f).
Proof.
  unfold pass_b_files, Fs.listdir. rewrite visited_among_keys.
  split; intros (n & -> & Hm & Hin); exists n; (split; [done|]);
    (split; [done|]).
  - apply list_elem_of_fmap in Hin as ([q v] & -> & Hin).
    apply elem_of_map_to_list in Hin. by exists v.
  - destruct Hin as [v Hv]. apply list_elem_of_fmap.
    exists (d ++ [n], v). split; [done|]. by apply elem_of_map_to_list.
Qed.

Lemma glob_dir w d :
  Fs.entry w d = Some Dir →
  Fs.glob d "tileset.*.json" w = (inr (pass_b_files w d), w).
Proof. intros H. unfold Fs.glob. by rewrite H. Qed.

(** what Pass B returns and leaves behind when [points/] is a directory *)
Lemma pass_b_run w tiles_dir :
  let points_dir := tiles_dir // "points" in
  Fs.entry w points_dir = Some Dir →
  ∃ w',
    PassB.normalize_sub_tileset_uris_in_points tiles_dir w
    = (inr (length (filter (λ f, is_Some (pass_b_fixes w points_dir f))
                           (pass_b_files w points_dir))), w')
    ∧ same_files w' w
    ∧ (∀ p, p ∉ pass_b_files w points_dir → Fs.entry w' p = Fs.entry w p)
    ∧ (∀ f, f ∈ pass_b_files w points_dir →
         match pass_b_fixes w points_dir f with
         | Some data' => ∃ t, Fs.entry w' f = Some (File true t (Doc data'))
         | None => Fs.entry w' f = Fs.entry w f
         end).
Proof.
  intros points_dir Hdir.
  unfold PassB.normalize_sub_tileset_uris_in_points. fold points_dir.
  assert (He : Fs.exists_ points_dir w = (inr true, w))
    by (unfold Fs.exists_; by rewrite Hdir).
  assert (Hd : Fs.is_dir points_dir w = (inr true, w))
    by (unfold Fs.is_dir; by rewrite Hdir).
  step He. step Hd. step (glob_dir _ _ Hdir).
  apply (for_each_run points_dir w (pass_b_files w points_dir) w O);
    [apply pass_b_files_NoDup|apply same_files_refl|done].
Qed.

Lemma rewritten_pass_b w points_dir u :
  rewritten (pass_b_rule w points_dir) u
  = if Str.startswith u "points/"
       && reaches_file w points_dir (Str.drop (String.length "points/") u)
    then Str.drop (String.length "points/") u else u.
Proof. unfold rewritten, pass_b_rule. by destruct (_ && _). Qed.

Lemma is_Some_pass_b w points_dir u :
  is_Some (pass_b_rule w points_dir u)
  ↔ Str.startswith u "points/"
    && reaches_file w points_dir (Str.drop (String.length "points/") u)
    = true.
Proof.
  unfold pass_b_rule. destruct (_ && _); split; done.
Qed.

(** a relative string without [..] is looked for under the directory *)
Lemma reaches_file_plain w points_dir s :
  Pathlib.anchor_of s = None → ".." ∉ Pathlib.components s →
  reaches_file w points_dir s
  = is_regular w (points_dir ++ Pathlib.components s).
Proof.
  intros Ha Hs. unfold reaches_file. rewrite reach_plain by done.
  unfold Pathlib.join. by rewrite Ha.
Qed.

(** [fix_uris_in_data] on the references of a document *)
Lemma fix_uris_spec w points_dir data :
  (∀ pos,
     manifest_uri_at (PassB.fix_uris_in_data w points_dir data).1 pos
     = rewritten (pass_b_rule w points_dir) <$> manifest_uri_at data pos)
  ∧ ((PassB.fix_uris_in_data w points_dir data).2 = true
     ↔ ∃ pos u, manifest_uri_at data pos = Some u
                ∧ is_Some (pass_b_rule w points_dir u)).
Proof.
  pose proof (pass_b_maybe_fix w points_dir) as Hfix.
  unfold PassB.fix_uris_in_data.
  destruct (walk_root _ data) as [e|[data' m]] eqn:Hw; simpl.
  - assert (Hnone : ∀ pos, manifest_uri_at data pos = None)
      by (intros pos; by eapply walk_root_not_object).
    split; [intros pos; by rewrite Hnone|].
    split; [done|]. intros (pos & u & Hu & _). by rewrite Hnone in Hu.
  - split.
    + intros pos. by eapply walk_root_uri_at.
    + by eapply walk_root_modified.
Qed.

(** C2, as the code has it.  Pass B, when [points/] is a directory.  In
    every auxiliary manifest it visits, the walk turns a reference's uri
    into the rest after the leading [points/] if and only if the uri starts
    with [points/] and that rest, joined to the [points/] directory, names
    a regular file; every other uri is left as it is.  For a rest that is
    relative and has no [..] component that file is the one at that
    relative path under [points/]; an absolute rest, or one with [..],
    names a file elsewhere.  A writable manifest in which some uri was
    rewritten is written back; any other file is left untouched; and the
    pass returns the number of manifests written back. *)
Theorem pass_b_strips_prefix_of_present_files
    (w : world) (tiles_dir : Path)
    (Hdir : Fs.entry w (tiles_dir // "points") = Some Dir) :
  let points_dir := tiles_dir // "points" in
  let stripped u := Str.drop (String.length "points/") u in
  let redundant u :=
    Str.startswith u "points/" && reaches_file w points_dir (stripped u) in
  let persisted f := is_Some (pass_b_fixes w points_dir f) in
  ∃ n w',
    PassB.normalize_sub_tileset_uris_in_points tiles_dir w = (inr n, w')
    ∧ n = length (filter persisted (pass_b_files w points_dir))
    ∧ (∀ f wr t data,
        f ∈ pass_b_files w points_dir →
        Fs.entry w f = Some (File wr t (Doc data)) →
        let some_rewrite :=
          ∃ pos u, manifest_uri_at data pos = Some u ∧ redundant u = true in
        ∃ data',
          (∀ pos, manifest_uri_at data' pos
                  = (λ u, if redundant u then stripped u else u)
                      <$> manifest_uri_at data pos)
          ∧ (persisted f ↔ some_rewrite ∧ wr = true)
          ∧ (persisted f → json_load f w' = (inr data', w'))
          ∧ (¬ persisted f → Fs.entry w' f = Fs.entry w f))
    ∧ (∀ rest, Pathlib.anchor_of rest = None →
               ".." ∉ Pathlib.components rest →
               reaches_file w points_dir rest
               = is_regular w (points_dir ++ Pathlib.components rest)).
Proof.
  intros points_dir stripped redundant persisted.
  destruct (pass_b_run w tiles_dir Hdir) as (w' & Hrun & _ & _ & Hfiles).
  fold points_dir in Hrun, Hfiles.
  eexists _, w'. split; [exact Hrun|]. split; [done|].
  split; [|intros rest; apply reaches_file_plain].
  intros f wr t data Hf Hent some_rewrite.
  destruct (fix_uris_spec w points_dir data) as [Huri Hmod].
  specialize (Hfiles f Hf). unfold persisted, pass_b_fixes in *.
  rewrite Hent in *.
  destruct (PassB.fix_uris_in_data w points_dir data) as [data' m].
  simpl in Huri, Hmod. exists data'.
  assert (Hsome : m = true ↔ some_rewrite).
  { rewrite Hmod. unfold some_rewrite, redundant.
    split; intros (pos & u & Hu & Hr); exists pos, u; (split; [done|]);
      by apply is_Some_pass_b. }
  split.
  { intros pos. rewrite Huri.
    destruct (manifest_uri_at data pos) as [u|]; [|done]. simpl.
    by rewrite rewritten_pass_b. }
  destruct wr, m; simpl in *.
  - split; [split; [intros _; split; [by apply Hsome|done]|done]|].
    split; [|by intros []]. intros _. destruct Hfiles as [t' Ht'].
    by eapply json_load_doc.
  - split; [split; [by intros []|]|].
    { intros [Hs _]. by apply Hsome in Hs. }
    split; [by intros []|done].
  - split; [split; [by intros []|by intros [_ ?]]|].
    split; [by intros []|done].
  - split; [split; [by intros []|by intros [_ ?]]|].
    split; [by intros []|done].
Qed.

Lemma pass_b_strips_prefix_witness :
  let w := Sample.output_dir in
  let points_dir := Sample.out // "points" in
  let stripped u := Str.drop (String.length "points/") u in
  let redundant u :=
    Str.startswith u "points/" && reaches_file w points_dir (stripped u) in
  let persisted f := is_Some (pass_b_fixes w points_dir f) in
  ∃ n w',
    PassB.normalize_sub_tileset_uris_in_points Sample.out w = (inr n, w')
    ∧ n = length (filter persisted (pass_b_files w points_dir))
    ∧ (∀ f wr t data,
        f ∈ pass_b_files w points_dir →
        Fs.entry w f = Some (File wr t (Doc data)) →
        let some_rewrite :=
          ∃ pos u, manifest_uri_at data pos = Some u ∧ redundant u = true in
        ∃ data',
          (∀ pos, manifest_uri_at data' pos
                  = (λ u, if redundant u then stripped u else u)
                      <$> manifest_uri_at data pos)
          ∧ (persisted f ↔ some_rewrite ∧ wr = true)
          ∧ (persisted f → json_load f w' = (inr data', w'))
          ∧ (¬ persisted f → Fs.entry w' f = Fs.entry w f))
    ∧ (∀ rest, Pathlib.anchor_of rest = None →
               ".." ∉ Pathlib.components rest →
               reaches_file w points_dir rest
               = is_regular w (points_dir ++ Pathlib.components rest)).
Proof.
  apply (pass_b_strips_prefix_of_present_files Sample.output_dir Sample.out).
  vm_compute. reflexivity.
Defined.

(** C2, as the claim states it, fails: a uri is also stripped when what is
    left of it names a file that is not under [points/].  The rest of
    [points//etc/hostname] is absolute and names [/etc/hostname]; the rest
    of [points/../tileset.json] names the root manifest, one directory
    up.  Both uris are rewritten, both manifests are written back and
    counted, and neither rest is a file at that path under [points/]. *)
Lemma pass_b_strips_to_a_file_outside_points :
  let w := Sample.escaping_dir in
  let points_dir := Sample.out // "points" in
  ∃ w' data1 data2,
    PassB.normalize_sub_tileset_uris_in_points Sample.out w
    = (inr 2%nat, w')
    ∧ manifest_uri_at (Sample.aux_manifest "/etc/hostname") [AtContent]
      = Some "points//etc/hostname"
    ∧ json_load ["out"; "points"; "tileset.1.json"] w' = (inr data1, w')
    ∧ manifest_uri_at data1 [AtContent] = Some "/etc/hostname"
    ∧ Fs.reach w points_dir "/etc/hostname" = Some ["/"; "etc"; "hostname"]
    ∧ is_regular w (points_dir ++ Pathlib.components "/etc/hostname")
      = false
    ∧ manifest_uri_at (Sample.aux_manifest "../tileset.json") [AtContent]
      = Some "points/../tileset.json"
    ∧ json_load ["out"; "points"; "tileset.2.json"] w' = (inr data2, w')
    ∧ manifest_uri_at data2 [AtContent] = Some "../tileset.json"
    ∧ Fs.reach w points_dir "../tileset.json" = Some ["out"; "tileset.json"]
    ∧ is_regular w (points_dir ++ Pathlib.components "../tileset.json")
      = false.
Proof.
  exists (PassB.normalize_sub_tileset_uris_in_points Sample.out
            Sample.escaping_dir).2.
  do 2 eexists.
  do 10 (split; [vm_compute; reflexivity|]). vm_compute. reflexivity.
Qed.

(** ** The pattern [tileset.*.json] *)

Lemma fnmatch_star p s :
  Fs.fnmatch (String "*" p) s
  = Fs.fnmatch p s
    || match s with
       | EmptyString => false
       | String _ r => Fs.fnmatch (String "*" p) r
       end.
Proof. by destruct s. Qed.

Lemma fnmatch_json r : Fs.fnmatch ".json" r = true ↔ r = ".json".
Proof.
  split.
  - intros H.
    do 5 (destruct r as [|a r]; [done|]; simpl in H;
          apply andb_true_iff in H as [Ha H];
          apply Ascii.eqb_eq in Ha; subst a).
    by destruct r.
  - by intros ->.
Qed.

Lemma fnmatch_star_json r :
  Fs.fnmatch "*.json" r = true ↔ ∃ mid, r = mid +:+ ".json".
Proof.
  induction r as [|a r IH]; rewrite fnmatch_star.
  - split; [done|]. intros (mid & H). by destruct mid.
  - rewrite orb_true_iff, fnmatch_json, IH. split.
    + intros [H|(mid & ->)]; [by exists ""|by exists (String a mid)].
    + intros ([|b mid] & H); [by left|]. right. exists mid.
      by injection H.
Qed.

Lemma fnmatch_tileset n :
  Fs.fnmatch "tileset.*.json" n = true
  ↔ ∃ mid, n = "tileset." +:+ mid +:+ ".json".
Proof.
  split.
  - intros H.
    do 8 (destruct n as [|a n]; [done|]; simpl in H;
          apply andb_true_iff in H as [Ha H];
          apply Ascii.eqb_eq in Ha; subst a).
    apply fnmatch_star_json in H as [mid ->]. by exists mid.
  - intros (mid & ->).
    change (Fs.fnmatch "*.json" (mid +:+ ".json") = true).
    apply fnmatch_star_json. by exists mid.
Qed.

Lemma entry_lookup w p n :
  Fs.entry w p = Some n → n ≠ Dir → nodes w !! p = Some n.
Proof.
  intros H Hn. pose proof (entry_not_implicit _ _ _ H Hn) as Hi.
  unfold Fs.entry in H. by rewrite Hi in H.
Qed.

Lemma fix_uris_fixes w points_dir f t data :
  Fs.entry w f = Some (File true t (Doc data)) →
  (PassB.fix_uris_in_data w points_dir data).2 = true →
  pass_b_fixes w points_dir f
  = Some (PassB.fix_uris_in_data w points_dir data).1.
Proof.
  intros He Hm. unfold pass_b_fixes. rewrite He.
  destruct (PassB.fix_uris_in_data _ _ _) as [data' m]. simpl in *.
  by subst m.
Qed.

(** C7, as the code has it.  When [points/] is a directory, Pass B loads and
    rewrites exactly the entries directly inside [points/] whose name
    matches the pattern [tileset.*.json]: [tileset.], then any text --
    an integer or not -- then [.json].  No other path is changed, and every
    writable manifest of such a name in which the walk rewrites a uri is
    written back with the rewritten tree. *)
Theorem pass_b_visits_names_matching_the_pattern
    (w : world) (tiles_dir : Path)
    (Hdir : Fs.entry w (tiles_dir // "points") = Some Dir) :
  let points_dir := tiles_dir // "points" in
  ∃ n w',
    PassB.normalize_sub_tileset_uris_in_points tiles_dir w = (inr n, w')
    ∧ (∀ p, Fs.entry w' p ≠ Fs.entry w p →
            ∃ mid, p = points_dir ++ ["tileset." +:+ mid +:+ ".json"])
    ∧ (∀ mid t data,
         let f := points_dir ++ ["tileset." +:+ mid +:+ ".json"] in
         Fs.entry w f = Some (File true t (Doc data)) →
         (PassB.fix_uris_in_data w points_dir data).2 = true →
         json_load f w'
         = (inr (PassB.fix_uris_in_data w points_dir data).1, w')).
Proof.
  intros points_dir.
  destruct (pass_b_run w tiles_dir Hdir) as (w' & Hrun & _ & Hother & Hfiles).
  fold points_dir in Hrun, Hother, Hfiles.
  eexists _, w'. split; [exact Hrun|]. split.
  - intros p Hp.
    destruct (decide (p ∈ pass_b_files w points_dir)) as [Hin|Hout].
    + apply elem_of_pass_b_files in Hin as (n' & -> & Hm & _).
      apply fnmatch_tileset in Hm as [mid ->]. by exists mid.
    + by destruct Hp; apply Hother.
  - intros mid t data f Hent Hm.
    assert (Hin : f ∈ pass_b_files w points_dir).
    { apply elem_of_pass_b_files. eexists. split; [done|].
      split; [apply fnmatch_tileset; by eexists|].
      eexists. by eapply entry_lookup. }
    specialize (Hfiles f Hin).
    rewrite (fix_uris_fixes _ _ _ _ _ Hent Hm) in Hfiles.
    destruct Hfiles as [t' Ht']. by eapply json_load_doc.
Qed.

Lemma pass_b_visits_witness :
  ∃ n w',
    PassB.normalize_sub_tileset_uris_in_points Sample.out Sample.lettered_dir
    = (inr n, w')
    ∧ (∀ p, Fs.entry w' p ≠ Fs.entry Sample.lettered_dir p →
            ∃ mid, p = (Sample.out // "points")
                       ++ ["tileset." +:+ mid +:+ ".json"])
    ∧ (∀ mid t data,
         let f := (Sample.out // "points")
                  ++ ["tileset." +:+ mid +:+ ".json"] in
         Fs.entry Sample.lettered_dir f = Some (File true t (Doc data)) →
         (PassB.fix_uris_in_data Sample.lettered_dir
            (Sample.out // "points") data).2 = true →
         json_load f w'
         = (inr (PassB.fix_uris_in_data Sample.lettered_dir
                   (Sample.out // "points") data).1, w')).
Proof.
  apply (pass_b_visits_names_matching_the_pattern
           Sample.lettered_dir Sample.out).
  vm_compute. reflexivity.
Defined.

(** C7, as the claim states it, fails: a manifest named [tileset.abc.json]
    is loaded, rewritten and counted. *)
Lemma pass_b_processes_lettered_name :
  ∃ w',
    PassB.normalize_sub_tileset_uris_in_points Sample.out Sample.lettered_dir
    = (inr 2%nat, w')
    ∧ manifest_uri_at (Sample.aux_manifest "tile_7.pnts") [AtContent]
      = Some "points/tile_7.pnts"
    ∧ ∃ data',
        json_load ["out"; "points"; "tileset.abc.json"] w' = (inr data', w')
        ∧ manifest_uri_at data' [AtContent] = Some "tile_7.pnts".
Proof.
  eexists. split; [vm_compute; reflexivity|]. split; [reflexivity|].
  eexists. split; vm_compute; reflexivity.
Qed.

Lemma filter_without {A} (P : A → Prop) `{∀ x, Decision (P x)}
    `{EqDecision A} (bad : A) (l : list A) :
  ¬ P bad → filter P (filter (λ x, x ≠ bad) l) = filter P l.
Proof.
  intros Hbad. induction l as [|x l IH]; [done|].
  destruct (decide (x = bad)) as [->|Hx].
  - rewrite (filter_cons_False (λ x, x ≠ bad)) by (intros ?; done).
    by rewrite (filter_cons_False P).
  - rewrite (filter_cons_True (λ x, x ≠ bad)) by done.
    destruct (decide (P x)).
    + rewrite !(filter_cons_True P) by done. by rewrite IH.
    + by rewrite !(filter_cons_False P).
Qed.

(** what Pass B does to one manifest it visits, by the rule *)
Lemma pass_b_manifest w w' points_dir f wr t data :
  let stripped u := Str.drop (String.length "points/") u in
  let redundant u :=
    Str.startswith u "points/" && reaches_file w points_dir (stripped u) in
  let persisted f := is_Some (pass_b_fixes w points_dir f) in
  Fs.entry w f = Some (File wr t (Doc data)) →
  match pass_b_fixes w points_dir f with
  | Some data' => ∃ t, Fs.entry w' f = Some (File true t (Doc data'))
  | None => Fs.entry w' f = Fs.entry w f
  end →
  let some_rewrite :=
    ∃ pos u, manifest_uri_at data pos = Some u ∧ redundant u = true in
  ∃ data',
    (∀ pos, manifest_uri_at data' pos
            = (λ u, if redundant u then stripped u else u)
                <$> manifest_uri_at data pos)
    ∧ (persisted f ↔ some_rewrite ∧ wr = true)
    ∧ (persisted f → json_load f w' = (inr data', w'))
    ∧ (¬ persisted f → Fs.entry w' f = Fs.entry w f).
Proof.
  intros stripped redundant persisted Hent Hfiles some_rewrite.
  destruct (fix_uris_spec w points_dir data) as [Huri Hmod].
  unfold persisted, pass_b_fixes in *. rewrite Hent in *.
  destruct (PassB.fix_uris_in_data w points_dir data) as [data' m].
  simpl in Huri, Hmod. exists data'.
  assert (Hsome : m = true ↔ some_rewrite).
  { rewrite Hmod. unfold some_rewrite, redundant.
    split; intros (pos & u & Hu & Hr); exists pos, u; (split; [done|]);
      by apply is_Some_pass_b. }
  split.
  { intros pos. rewrite Huri.
    destruct (manifest_uri_at data pos) as [u|]; [|done]. simpl.
    by rewrite rewritten_pass_b. }
  destruct wr, m; simpl in *.
  - split; [split; [intros _; split; [by apply Hsome|done]|done]|].
    split; [|by intros []]. intros _. destruct Hfiles as [t' Ht'].
    by eapply json_load_doc.
  - split; [split; [by intros []|]|].
    { intros [Hs _]. by apply Hsome in Hs. }
    split; [by intros []|done].
  - split; [split; [by intros []|by intros [_ ?]]|].
    split; [by intros []|done].
  - split; [split; [by intros []|by intros [_ ?]]|].
    split; [by intros []|done].
Qed.

(** C8. When [points/] is a directory and one of the files Pass B visits
    does not hold a JSON document, the pass does not raise: it leaves that
    file as it is and goes on to every other file.  In each other manifest
    a reference's uri becomes the rest after the leading [points/] if and
    only if it starts with [points/] and that rest, joined to the
    [points/] directory, names a regular file; the manifest is written
    back exactly when some uri was rewritten and the file is writable; and
    the pass returns the number of manifests written back among those
    others. *)
Theorem pass_b_skips_malformed_manifest
    (w : world) (tiles_dir bad : Path) (wr : bool) (t : Z) (c : content)
    (Hdir : Fs.entry w (tiles_dir // "points") = Some Dir)
    (Hbad : bad ∈ pass_b_files w (tiles_dir // "points"))
    (Hent : Fs.entry w bad = Some (File wr t c))
    (Hmalformed : ∀ j, c ≠ Doc j) :
  let points_dir := tiles_dir // "points" in
  let stripped u := Str.drop (String.length "points/") u in
  let redundant u :=
    Str.startswith u "points/" && reaches_file w points_dir (stripped u) in
  let persisted f := is_Some (pass_b_fixes w points_dir f) in
  ∃ n w',
    PassB.normalize_sub_tileset_uris_in_points tiles_dir w = (inr n, w')
    ∧ Fs.entry w' bad = Fs.entry w bad
    ∧ n = length (filter persisted
                    (filter (λ f, f ≠ bad) (pass_b_files w points_dir)))
    ∧ ∀ f wr' t' data,
        f ∈ pass_b_files w points_dir → f ≠ bad →
        Fs.entry w f = Some (File wr' t' (Doc data)) →
        let some_rewrite :=
          ∃ pos u, manifest_uri_at data pos = Some u ∧ redundant u = true in
        ∃ data',
          (∀ pos, manifest_uri_at data' pos
                  = (λ u, if redundant u then stripped u else u)
                      <$> manifest_uri_at data pos)
          ∧ (persisted f ↔ some_rewrite ∧ wr' = true)
          ∧ (persisted f → json_load f w' = (inr data', w'))
          ∧ (¬ persisted f → Fs.entry w' f = Fs.entry w f).
Proof.
  intros points_dir stripped redundant persisted.
  destruct (pass_b_run w tiles_dir Hdir) as (w' & Hrun & _ & _ & Hfiles).
  fold points_dir in Hrun, Hfiles.
  assert (Hnone : pass_b_fixes w points_dir bad = None).
  { unfold pass_b_fixes. rewrite Hent. destruct wr, c; try done.
    by destruct (Hmalformed j). }
  eexists _, w'. split; [exact Hrun|]. split; [|split].
  - specialize (Hfiles bad Hbad). by rewrite Hnone in Hfiles.
  - rewrite filter_without; [done|].
    unfold persisted. rewrite Hnone. by intros [].
  - intros f wr' t' data Hf _ Hdoc.
    by apply (pass_b_manifest w w' points_dir f wr' t' data Hdoc (Hfiles f Hf)).
Qed.

Lemma pass_b_skips_malformed_witness :
  let w := Sample.output_dir in
  let points_dir := Sample.out // "points" in
  let bad := ["out"; "points"; "tileset.3.json"] in
  let stripped u := Str.drop (String.length "points/") u in
  let redundant u :=
    Str.startswith u "points/" && reaches_file w points_dir (stripped u) in
  let persisted f := is_Some (pass_b_fixes w points_dir f) in
  ∃ n w',
    PassB.normalize_sub_tileset_uris_in_points Sample.out w = (inr n, w')
    ∧ Fs.entry w' bad = Fs.entry w bad
    ∧ n = length (filter persisted
                    (filter (λ f, f ≠ bad) (pass_b_files w points_dir)))
    ∧ ∀ f wr' t' data,
        f ∈ pass_b_files w points_dir → f ≠ bad →
        Fs.entry w f = Some (File wr' t' (Doc data)) →
        let some_rewrite :=
          ∃ pos u, manifest_uri_at data pos = Some u ∧ redundant u = true in
        ∃ data',
          (∀ pos, manifest_uri_at data' pos
                  = (λ u, if redundant u then stripped u else u)
                      <$> manifest_uri_at data pos)
          ∧ (persisted f ↔ some_rewrite ∧ wr' = true)
          ∧ (persisted f → json_load f w' = (inr data', w'))
          ∧ (¬ persisted f → Fs.entry w' f = Fs.entry w f).
Proof.
  apply (pass_b_skips_malformed_manifest
           Sample.output_dir Sample.out ["out"; "points"; "tileset.3.json"]
           true 0 (Text "{ oops")).
  - vm_compute. reflexivity.
  - apply list_elem_of_In. vm_compute. tauto.
  - vm_compute. reflexivity.
  - discriminate.
Defined.

(** ** Running a pass twice *)

Lemma pass_a_rule_once w points_dir u u' :
  pass_a_rule w points_dir u = Some u' → pass_a_rule w points_dir u' = None.
Proof.
  unfold pass_a_rule. destruct (_ && _); [|done]. intros [= <-].
  by rewrite (contains_not_bare ("points/" +:+ u)).
Qed.

Lemma pass_b_rule_once w points_dir u u' :
  no_nested_prefix w points_dir →
  pass_b_rule w points_dir u = Some u' → pass_b_rule w points_dir u' = None.
Proof.
  intros Hno. unfold pass_b_rule.
  destruct (Str.startswith u "points/" && _) eqn:E; [|done].
  intros H. apply (inj Some) in H. subst u'.
  apply andb_true_iff in E as [_ E].
  destruct (Str.startswith (Str.drop (String.length "points/") u) "points/")
    eqn:E'; [|done].
  by rewrite (Hno _ E' E).
Qed.

(** the outcomes of Pass A *)
Lemma pass_a_cases w tiles_dir :
  let main_tileset := tiles_dir // "tileset.json" in
  (∃ e, PassA.rewrite_child_tileset_uris_if_needed tiles_dir w = (inl e, w))
  ∨ PassA.rewrite_child_tileset_uris_if_needed tiles_dir w = (inr false, w)
  ∨ ∃ t data data',
      Fs.entry w main_tileset = Some (File true t (Doc data))
      ∧ walk_root (PassA.maybe_fix_uri w (tiles_dir // "points")) data
        = inr (data', true)
      ∧ PassA.rewrite_child_tileset_uris_if_needed tiles_dir w
        = (inr true, Fs.put main_tileset (Doc data') w).
Proof.
  intros main_tileset.
  assert (Hfail : ∀ b, Fs.exists_ main_tileset w = (inr b, w) →
            (∀ wr t j, Fs.entry w main_tileset ≠ Some (File wr t (Doc j))) →
            PassA.rewrite_child_tileset_uris_if_needed tiles_dir w
            = (inr false, w)).
  { intros b Hb Hnd. unfold PassA.rewrite_child_tileset_uris_if_needed.
    fold main_tileset. step Hb. destruct b; [|done]. simpl.
    destruct (json_load_fails w main_tileset Hnd) as [e He].
    by step (try_ok _ _ _ _ He). }
  destruct (Fs.entry w main_tileset) as [[wr t c| |]|] eqn:E.
  - destruct c as [s|data|z o].
    + right; left. apply (Hfail true); [by eapply exists_file|congruence].
    + rewrite (pass_a_run _ _ _ _ _ E).
      destruct (walk_root _ data) as [e|[data' []]] eqn:Hw; [by auto| |by auto].
      destruct wr; [|by auto]. right; right. by exists t, data, data'.
    + right; left. apply (Hfail true); [by eapply exists_file|congruence].
  - right; left. apply (Hfail true); [|congruence].
    unfold Fs.exists_. by rewrite E.
  - left. eexists. unfold PassA.rewrite_child_tileset_uris_if_needed.
    fold main_tileset.
    assert (Hr : Fs.exists_ main_tileset w = (inl (OSError "stat"), w))
      by (unfold Fs.exists_; by rewrite E).
    by step Hr.
  - right; left. apply (Hfail false); [|congruence].
    unfold Fs.exists_. by rewrite E.
Qed.

Lemma pass_a_idempotent w tiles_dir m w1 :
  PassA.rewrite_child_tileset_uris_if_needed tiles_dir w = (inr m, w1) →
  PassA.rewrite_child_tileset_uris_if_needed tiles_dir w1 = (inr false, w1).
Proof.
  intros Hrun.
  destruct (pass_a_cases w tiles_dir)
    as [[e He]|[Hf|(t & data & data' & Hent & Hw & Hr)]].
  - congruence.
  - rewrite Hf in Hrun. injection Hrun as <- <-. done.
  - rewrite Hr in Hrun. injection Hrun as <- <-.
    assert (Hent' : Fs.entry (Fs.put (tiles_dir // "tileset.json")
                                     (Doc data') w)
                             (tiles_dir // "tileset.json")
                    = Some (File true (clock w) (Doc data'))).
    { rewrite entry_put, decide_True; [done..|].
      by eapply entry_not_implicit. }
    rewrite (pass_a_run _ _ _ _ _ Hent').
    rewrite (walk_root_ext _ (PassA.maybe_fix_uri w (tiles_dir // "points"))).
    + rewrite (walk_root_twice _ _ (pass_a_maybe_fix w _) _ _ _
                 (pass_a_rule_once w _) Hw). done.
    + intros obj. rewrite !pass_a_maybe_fix. unfold rewrite_uri, pass_a_rule.
      destruct obj as [| | | | | |d]; try done.
      destruct (Dict.get "uri" d) as [[| | | |u| |]|]; try done.
      rewrite is_regular_put; [done|].
      unfold is_regular. by rewrite Hent.
Qed.

Lemma for_each_noop points_dir files : ∀ w count,
  (∀ f, f ∈ files → pass_b_fixes w points_dir f = None) →
  PassB.for_each points_dir files count w = (inr count, w).
Proof.
  induction files as [|f files IH]; intros w count Hnone; [done|].
  cbn [PassB.for_each].
  pose proof (visit_run points_dir f count w) as Hv.
  rewrite Hnone in Hv by left. step Hv. apply IH.
  intros g Hg. apply Hnone. by right.
Qed.

Lemma points_child_not_implicit tiles_dir n :
  Fs.implicit ((tiles_dir // "points") ++ [n]) = false.
Proof.
  change (tiles_dir // "points") with (tiles_dir ++ ["points"]).
  by destruct tiles_dir as [|a [|b l]].
Qed.

Lemma points_not_visited w tiles_dir :
  tiles_dir // "points" ∉ pass_b_files w (tiles_dir // "points").
Proof.
  intros (n & H & _)%elem_of_pass_b_files.
  apply (f_equal length) in H. rewrite length_app in H. simpl in H. lia.
Qed.

Lemma pass_b_idempotent w tiles_dir n w1 :
  no_nested_prefix w (tiles_dir // "points") →
  PassB.normalize_sub_tileset_uris_in_points tiles_dir w = (inr n, w1) →
  PassB.normalize_sub_tileset_uris_in_points tiles_dir w1 = (inr O, w1).
Proof.
  intros Hno Hrun. set (points_dir := tiles_dir // "points") in *.
  destruct (Fs.entry w points_dir) as [[wr t c| |]|] eqn:E.
  - (* [points] is a file *)
    unfold PassB.normalize_sub_tileset_uris_in_points in *.
    fold points_dir in Hrun |- *.
    assert (He : Fs.exists_ points_dir w = (inr true, w))
      by (unfold Fs.exists_; by rewrite E).
    assert (Hd : Fs.is_dir points_dir w = (inr false, w))
      by (unfold Fs.is_dir; by rewrite E).
    revert Hrun. step He. step Hd. intros [= <- <-]. step He. by step Hd.
  - (* [points] is a directory *)
    destruct (pass_b_run w tiles_dir E)
      as (w' & Hrun' & Hsame & Hother & Hfiles).
    fold points_dir in Hrun', Hother, Hfiles.
    rewrite Hrun' in Hrun. injection Hrun as _ <-.
    assert (E' : Fs.entry w' points_dir = Some Dir)
      by (rewrite Hother; [done|apply points_not_visited]).
    unfold PassB.normalize_sub_tileset_uris_in_points. fold points_dir.
    assert (He : Fs.exists_ points_dir w' = (inr true, w'))
      by (unfold Fs.exists_; by rewrite E').
    assert (Hd : Fs.is_dir points_dir w' = (inr true, w'))
      by (unfold Fs.is_dir; by rewrite E').
    step He. step Hd. step (glob_dir _ _ E').
    apply for_each_noop. intros f Hf.
    destruct (decide (f ∈ pass_b_files w points_dir)) as [Hin|Hout].
    + specialize (Hfiles f Hin).
      destruct (pass_b_fixes w points_dir f) as [data'|] eqn:Hfix.
      * destruct Hfiles as [t' Ht']. unfold pass_b_fixes. rewrite Ht'.
        rewrite (fix_uris_same w' w) by done.
        unfold pass_b_fixes in Hfix.
        destruct (Fs.entry w f) as [[[] t []| |]|]; try done.
        unfold PassB.fix_uris_in_data in *.
        destruct (walk_root (PassB.maybe_fix w points_dir) j)
          as [e|[data'' []]] eqn:Hw; try done.
        injection Hfix as ->.
        by rewrite (walk_root_twice _ _ (pass_b_maybe_fix w _) _ _ _
                      (λ u u', pass_b_rule_once w _ u u' Hno) Hw).
      * rewrite <- Hfix. by apply pass_b_fixes_same.
    + specialize (Hother _ Hout). destruct Hout. apply elem_of_pass_b_files.
      apply elem_of_pass_b_files in Hf as (n' & -> & Hm & Hs).
      exists n'. split; [done|]. split; [done|].
      unfold Fs.entry, points_dir in Hother, Hs |- *.
      rewrite points_child_not_implicit in Hother. by rewrite <- Hother.
  - (* [stat] fails on [points] *)
    unfold PassB.normalize_sub_tileset_uris_in_points in Hrun.
    fold points_dir in Hrun.
    assert (He : Fs.exists_ points_dir w = (inl (OSError "stat"), w))
      by (unfold Fs.exists_; by rewrite E).
    revert Hrun. by step He.
  - (* there is no [points] *)
    unfold PassB.normalize_sub_tileset_uris_in_points in *.
    fold points_dir in Hrun |- *.
    assert (He : Fs.exists_ points_dir w = (inr false, w))
      by (unfold Fs.exists_; by rewrite E).
    revert Hrun. step He. intros [= <- <-]. by step He.
Qed.

(** C3, as the code has it.  Pass A is idempotent: once it has returned, a
    second run reports no modification and leaves the file system -- the
    root manifest, byte for byte -- as the first run left it.  Pass B is
    idempotent when nothing that it strips a uri to can be stripped again:
    when no string that starts with [points/] and, joined to the [points/]
    directory, names a regular file leaves, once that prefix is taken off,
    a string that joined to the directory names a regular file again --
    under [points/] or, for an absolute rest or one with [..], anywhere
    else.  Then a second run returns zero and changes nothing. *)
Theorem repair_passes_idempotent (w : world) (tiles_dir : Path) :
  (∀ modified w1,
     PassA.rewrite_child_tileset_uris_if_needed tiles_dir w
     = (inr modified, w1) →
     PassA.rewrite_child_tileset_uris_if_needed tiles_dir w1
     = (inr false, w1))
  ∧ (no_nested_prefix w (tiles_dir // "points") →
     ∀ n w1,
       PassB.normalize_sub_tileset_uris_in_points tiles_dir w = (inr n, w1) →
       PassB.normalize_sub_tileset_uris_in_points tiles_dir w1
       = (inr O, w1)).
Proof.
  split.
  - intros modified w1. apply pass_a_idempotent.
  - intros Hno n w1. by apply pass_b_idempotent.
Qed.

Lemma sample_no_nested_prefix :
  no_nested_prefix Sample.output_dir (Sample.out // "points").
Proof.
  intros s Hs Hreg. exfalso.
  do 7 (let a := fresh "a" in
        destruct s as [|a s]; [done|]; simpl in Hs;
        apply andb_true_iff in Hs as [Ha Hs];
        apply Ascii.eqb_eq in Ha; subst a).
  unfold reaches_file, Fs.reach, Pathlib.components in Hreg.
  simpl in Hreg.
  destruct (Fs.follow _ _ _) as [q|] eqn:Hq; [|done].
  apply (follow_nowhere _ ["out"; "points"; "points"]) in Hq as [k ->];
    [|intros q' [k ->]|done].
  - unfold is_regular in Hreg.
    destruct (Fs.entry _ _) as [[wr t c| |]|] eqn:E; try done.
    apply entry_lookup in E; [|done].
    apply elem_of_list_to_map_2 in E.
    repeat (apply elem_of_cons in E as [E|E]; [discriminate E|]).
    by apply elem_of_nil in E.
  - unfold Fs.entry. simpl. by rewrite !lookup_insert_ne.
Qed.

Lemma repair_passes_idempotent_witness :
  let w := Sample.output_dir in
  let after_a :=
    (PassA.rewrite_child_tileset_uris_if_needed Sample.out w).2 in
  let after_b :=
    (PassB.normalize_sub_tileset_uris_in_points Sample.out w).2 in
  PassA.rewrite_child_tileset_uris_if_needed Sample.out after_a
  = (inr false, after_a)
  ∧ PassB.normalize_sub_tileset_uris_in_points Sample.out after_b
    = (inr O, after_b).
Proof.
  destruct (repair_passes_idempotent Sample.output_dir Sample.out)
    as [Ha Hb].
  split.
  - apply (Ha true). vm_compute. reflexivity.
  - apply (Hb sample_no_nested_prefix 1%nat). vm_compute. reflexivity.
Defined.

(** C3, as the claim states it, fails for Pass B: where [points/] has a
    [points/] of its own, the first run strips one prefix and the second
    run strips the next, so the second run modifies a file again. *)
Lemma pass_b_strips_again_on_second_run :
  ∃ w1 w2 once twice,
    PassB.normalize_sub_tileset_uris_in_points Sample.out Sample.nested_dir
    = (inr 1%nat, w1)
    ∧ PassB.normalize_sub_tileset_uris_in_points Sample.out w1
      = (inr 1%nat, w2)
    ∧ json_load ["out"; "points"; "tileset.1.json"] w1 = (inr once, w1)
    ∧ manifest_uri_at once [AtContent] = Some "points/a.pnts"
    ∧ json_load ["out"; "points"; "tileset.1.json"] w2 = (inr twice, w2)
    ∧ manifest_uri_at twice [AtContent] = Some "a.pnts".
Proof.
  do 4 eexists.
  split; [vm_compute; reflexivity|].
  split; [vm_compute; reflexivity|].
  split; [vm_compute; reflexivity|].
  split; [vm_compute; reflexivity|].
  split; vm_compute; reflexivity.
Qed.

(** C10. Pass A's test on a uri looks at its prefix and its suffix only:
    [tileset.json] itself passes it, and so does a name with letters
    between the dots; with files of those names under [points/], Pass A
    rewrites both references to the [points/] form. *)
Theorem pass_a_rewrites_names_without_an_integer :
  PassA.bare_name "tileset.json" = true
  ∧ PassA.bare_name "tileset.abc.json" = true
  ∧ manifest_uri_at Sample.odd_names_manifest [AtContent]
    = Some "tileset.json"
  ∧ manifest_uri_at Sample.odd_names_manifest [AtChild 0; AtContent]
    = Some "tileset.abc.json"
  ∧ ∃ w' data',
      PassA.rewrite_child_tileset_uris_if_needed Sample.out
        Sample.odd_names_dir = (inr true, w')
      ∧ json_load (Sample.out // "tileset.json") w' = (inr data', w')
      ∧ manifest_uri_at data' [AtContent] = Some "points/tileset.json"
      ∧ manifest_uri_at data' [AtChild 0; AtContent]
        = Some "points/tileset.abc.json".
Proof.
  split; [reflexivity|]. split; [reflexivity|].
  split; [reflexivity|]. split; [reflexivity|].
  do 2 eexists. split; [vm_compute; reflexivity|].
  split; [vm_compute; reflexivity|].
  split; vm_compute; reflexivity.
Qed.

(** ** What the steps of the pipeline leave in place *)

Lemma bind_inv {A B} (m : M A) (k : A → M B) w b w' :
  (m ≫= k) w = (inr b, w') →
  ∃ a w1, m w = (inr a, w1) ∧ k a w1 = (inr b, w').
Proof.
  unfold mbind, M_bind, bind. destruct (m w) as [[e|a] w1]; [done|]. eauto.
Qed.

Section Preserving.

Variable R : world → world → Prop.
Hypothesis R_refl : ∀ w, R w w.
Hypothesis R_trans : ∀ w1 w2 w3, R w1 w2 → R w2 w3 → R w1 w3.

Lemma preserving_pure {A} (m : M A) :
  (∀ w, (m w).2 = w) → preserving R m.
Proof using R_refl.
  intros H w r w' E. specialize (H w). rewrite E in H. simpl in H.
  subst w'. apply R_refl.
Qed.

Lemma preserving_ret {A} (a : A) : preserving R (ret a).
Proof using R_refl. by apply preserving_pure. Qed.

Lemma preserving_raise {A} e : preserving R (raise (A:=A) e).
Proof using R_refl. by apply preserving_pure. Qed.

Lemma preserving_lift {A} (r : exc + A) : preserving R (lift r).
Proof using R_refl. by apply preserving_pure. Qed.

Lemma preserving_bind {A B} (m : M A) (k : A → M B) :
  preserving R m → (∀ a, preserving R (k a)) → preserving R (m ≫= k).
Proof using R_trans.
  intros Hm Hk w r w'. unfold mbind, M_bind, bind.
  destruct (m w) as [[e|a] w1] eqn:E.
  - intros [= <- <-]. by eapply Hm.
  - intros Hka. eapply R_trans; [by eapply Hm|by eapply Hk].
Qed.

Lemma preserving_try {A} (m : M A) : preserving R m → preserving R (try m).
Proof.
  intros Hm w r w'. unfold try. destruct (m w) as [r1 w1] eqn:E.
  intros [= <- <-]. by eapply Hm.
Qed.

Lemma preserving_exists p : preserving R (Fs.exists_ p).
Proof using R_refl.
  apply preserving_pure. intros w. unfold Fs.exists_.
  by destruct (Fs.entry w p) as [[]|].
Qed.

Lemma preserving_is_dir p : preserving R (Fs.is_dir p).
Proof using R_refl.
  apply preserving_pure. intros w. unfold Fs.is_dir.
  by destruct (Fs.entry w p) as [[]|].
Qed.

Lemma preserving_st_mtime p : preserving R (Fs.st_mtime p).
Proof using R_refl.
  apply preserving_pure. intros w. unfold Fs.st_mtime.
  by destruct (Fs.entry w p) as [[]|].
Qed.

Lemma preserving_read p : preserving R (Fs.read p).
Proof using R_refl.
  apply preserving_pure. intros w. unfold Fs.read.
  by destruct (Fs.entry w p) as [[]|].
Qed.

Lemma preserving_laspy_read lb p : preserving R (laspy_read lb p).
Proof using R_refl R_trans.
  apply preserving_bind; [apply preserving_read|].
  intros [| |compressed crs]; try apply preserving_raise.
  destruct (compressed && negb lb);
    [apply preserving_raise|apply preserving_ret].
Qed.

Lemma preserving_detect_crs lb p : preserving R (detect_crs lb p).
Proof using R_refl R_trans.
  apply preserving_bind; [apply preserving_try, preserving_laspy_read|].
  intros [e|[crs|]]; apply preserving_ret.
Qed.

Lemma preserving_resolve exe which :
  preserving R (resolve_py3dtiles_executable exe which).
Proof using R_refl R_trans.
  apply preserving_bind; [apply preserving_lift|]. intros p.
  apply preserving_bind; [apply preserving_exists|]. intros [].
  - apply preserving_ret.
  - destruct (which "py3dtiles") as [found|]; [|apply preserving_raise].
    destruct (Str.truthy found); [apply preserving_ret|apply preserving_raise].
Qed.

(** the input is chosen without touching anything but the [.las] file *)
Lemma preserving_choose lb input :
  (∀ p c, preserving R (Fs.write p c)) →
  preserving R (choose_tiles_input lb input).
Proof using R_refl R_trans.
  intros Hwrite. unfold choose_tiles_input.
  destruct (String.eqb _ _); [|apply preserving_ret].
  apply preserving_bind.
  - apply preserving_try. unfold uncompress_laz_to_las.
    apply preserving_bind; [apply preserving_lift|]. intros las_path.
    apply preserving_bind; [apply preserving_exists|]. intros e.
    apply preserving_bind.
    + destruct e; [|apply preserving_ret].
      apply preserving_bind.
      * apply preserving_try.
        apply preserving_bind; [apply preserving_st_mtime|]. intros t1.
        apply preserving_bind; [apply preserving_st_mtime|]. intros t2.
        apply preserving_ret.
      * intros [?|?]; apply preserving_ret.
    + intros []; [apply preserving_ret|].
      apply preserving_bind.
      * apply preserving_try.
        apply preserving_bind; [apply preserving_laspy_read|]. intros las.
        apply Hwrite.
      * intros [?|?]; [apply preserving_raise|apply preserving_ret].
  - intros [?|?]; apply preserving_ret.
Qed.

End Preserving.

Lemma keeps_dirs_refl w : keeps_dirs w w.
Proof. by intros q. Qed.

Lemma keeps_dirs_trans w1 w2 w3 :
  keeps_dirs w1 w2 → keeps_dirs w2 w3 → keeps_dirs w1 w3.
Proof. intros H1 H2 q Hq. by apply H2, H1. Qed.

Lemma write_keeps_dirs p c : preserving keeps_dirs (Fs.write p c).
Proof.
  intros w r w' Hw q Hq. unfold Fs.write in Hw.
  assert (Hput : Fs.implicit p = false → q ≠ p →
                 Fs.entry (Fs.put p c w) q = Some Dir).
  { intros Hi Hne. by rewrite entry_put, decide_False. }
  destruct (Fs.entry w p) as [[[] t c'| |]|] eqn:E;
    try (injection Hw as <- <-; done).
  - injection Hw as <- <-. apply Hput; [by eapply entry_not_implicit|].
    intros ->. congruence.
  - assert (Hi : Fs.implicit p = false).
    { unfold Fs.entry in E. by destruct (Fs.implicit p). }
    destruct (Fs.entry w (Pathlib.parent p)) as [[]|];
      injection Hw as <- <-; try done.
    apply Hput; [done|]. intros ->. congruence.
Qed.

Lemma choose_total lb input w :
  ∃ tiles_input w', choose_tiles_input lb input w = (inr tiles_input, w').
Proof.
  unfold choose_tiles_input. destruct (String.eqb _ _); [|by eexists _, _].
  unfold mbind, M_bind, bind, try.
  destruct (uncompress_laz_to_las lb input w) as [[e|las] w']; by eexists _, _.
Qed.

Lemma detect_crs_total lb tiles_input w :
  ∃ has_crs, detect_crs lb tiles_input w = (inr has_crs, w).
Proof.
  destruct (detect_crs lb tiles_input w) as [r w'] eqn:E.
  assert (w = w') as <-
    by (eapply (preserving_detect_crs eq); [done|congruence|done]).
  revert E. unfold detect_crs, mbind, M_bind, bind, try.
  destruct (laspy_read lb tiles_input w) as [[e|[crs|]] w1];
    intros [= <- _]; by eexists.
Qed.

Lemma resolve_pure exe which w r w' :
  resolve_py3dtiles_executable exe which w = (r, w') → w' = w.
Proof.
  intros H. symmetry.
  eapply (preserving_resolve eq); [done|congruence|done].
Qed.

(** ** Making the output directory *)

Lemma mkdir_each_dirs ps : ∀ w w',
  Fs.mkdir_each ps w = (inr tt, w') →
  keeps_dirs w w' ∧ ∀ p, p ∈ ps → Fs.entry w' p = Some Dir.
Proof.
  induction ps as [|p ps IH]; intros w w'; simpl.
  - intros [= <-]. split; [apply keeps_dirs_refl|].
    intros p Hp. by apply elem_of_nil in Hp.
  - destruct (Fs.entry w p) as [[]| ] eqn:E; try done.
    + intros H. destruct (IH _ _ H) as [Hk Hps]. split; [done|].
      intros q [->|Hq]%elem_of_cons; [by apply Hk|by apply Hps].
    + intros H. destruct (IH _ _ H) as [Hk Hps].
      assert (Hi : Fs.implicit p = false).
      { unfold Fs.entry in E. by destruct (Fs.implicit p). }
      assert (Hp : Fs.entry (Fs.made p w) p
                   = Some Dir).
      { unfold Fs.entry. simpl. by rewrite Hi, lookup_insert_eq. }
      split.
      * intros q Hq. apply Hk. unfold Fs.entry in *. simpl.
        destruct (Fs.implicit q) eqn:Hiq; [done|].
        rewrite lookup_insert_ne; [done|]. intros ->.
        rewrite Hiq in E. congruence.
      * intros q [->|Hq]%elem_of_cons; [by apply Hk|by apply Hps].
Qed.

Lemma mkdir_parents_dir p w w' :
  Fs.mkdir_parents p w = (inr tt, w') → Fs.entry w' p = Some Dir.
Proof.
  intros H. destruct p as [|a p]; [done|].
  apply mkdir_each_dirs in H as [_ H]. apply H.
  unfold Fs.ancestors. apply list_elem_of_In, in_map_iff.
  exists (length (a :: p)). split; [by rewrite firstn_all|].
  apply in_seq. simpl. lia.
Qed.

Lemma prepare_output_dir_dir output overwrite w w1 :
  prepare_output_dir output overwrite w = (inr tt, w1) →
  Fs.entry w1 output = Some Dir.
Proof.
  unfold prepare_output_dir. intros H.
  apply bind_inv in H as ([] & wa & Hmk & H). destruct overwrite.
  - apply bind_inv in H as (e & wb & _ & H).
    apply bind_inv in H as ([] & wc & _ & H).
    by eapply mkdir_parents_dir.
  - injection H as <-. by eapply mkdir_parents_dir.
Qed.

(** ** The conversion, up to the engine *)

Section Pipeline.

Variable sys_executable : string.
Variable which : string → option string.
Variable laz_backend : bool.
Variable subprocess_run : list string → M (string * Z).

Variables (input_path output_dir : Path).
Variables (extra_fields srs_out : option string) (overwrite : bool).

Lemma convert_after_preparation w w1 tiles_input w2 has_crs :
  prepare_output_dir output_dir overwrite w = (inr tt, w1) →
  choose_tiles_input laz_backend input_path w1 = (inr tiles_input, w2) →
  detect_crs laz_backend tiles_input w2 = (inr has_crs, w2) →
  convert_las_to_3dtiles sys_executable which laz_backend subprocess_run
    input_path output_dir extra_fields srs_out overwrite w
  = match resolve_py3dtiles_executable sys_executable which w2 with
    | (inr py3dtiles_exe, _) =>
        run_and_check subprocess_run
          (build_command py3dtiles_exe output_dir has_crs srs_out
                         extra_fields tiles_input)
          output_dir w2
    | (inl e, _) => (inl e, w2)
    end.
Proof.
  intros Hprep Hin Hcrs. unfold convert_las_to_3dtiles.
  step Hprep. step Hin. step Hcrs.
  destruct (resolve_py3dtiles_executable sys_executable which w2)
    as [[e|exe] w2'] eqn:E; pose proof (resolve_pure _ _ _ _ _ E) as ->.
  - by step E.
  - by step E.
Qed.

Lemma resolve_not_found w py3dtiles_exe :
  given (which "py3dtiles") = false →
  Pathlib.with_name (Pathlib.of_string sys_executable) "py3dtiles"
  = inr py3dtiles_exe →
  Fs.entry w py3dtiles_exe = None →
  resolve_py3dtiles_executable sys_executable which w
  = (inl (RuntimeError "py3dtiles not found in venv or PATH"), w).
Proof.
  intros Hwhich Hname Hnone. unfold resolve_py3dtiles_executable.
  rewrite Hname.
  assert (Hl : lift (inr py3dtiles_exe) w = (inr py3dtiles_exe, w)) by done.
  step Hl.
  assert (He : Fs.exists_ py3dtiles_exe w = (inr false, w))
    by (unfold Fs.exists_; by rewrite Hnone).
  step He. unfold given in Hwhich.
  destruct (which "py3dtiles") as [found|]; [|done]. by rewrite Hwhich.
Qed.

End Pipeline.

(** ** The engine's log and the repair stage *)

Lemma write_can w p c :
  can_write w p →
  Fs.write p c w = (inr tt, Fs.put p c w) ∧ Fs.implicit p = false.
Proof.
  unfold can_write, Fs.write.
  destruct (Fs.entry w p) as [[[] t c'| |]|] eqn:E; try done.
  - intros _. split; [done|]. by eapply entry_not_implicit.
  - intros ->. split; [done|]. unfold Fs.entry in E.
    by destruct (Fs.implicit p).
Qed.

Lemma keeps_refl p w : keeps p w w.
Proof. done. Qed.

Lemma keeps_trans p w1 w2 w3 : keeps p w1 w2 → keeps p w2 w3 → keeps p w1 w3.
Proof. unfold keeps. congruence. Qed.

(** Pass A writes the root manifest only *)
Lemma pass_a_keeps tiles_dir p :
  p ≠ tiles_dir // "tileset.json" →
  preserving (keeps p) (PassA.rewrite_child_tileset_uris_if_needed tiles_dir).
Proof.
  intros Hp w r w' Hrun. unfold keeps.
  destruct (pass_a_cases w tiles_dir)
    as [[e He]|[Hf|(t & data & data' & Hent & _ & Hr)]].
  - rewrite He in Hrun. by injection Hrun as <- <-.
  - rewrite Hf in Hrun. by injection Hrun as <- <-.
  - rewrite Hr in Hrun. injection Hrun as <- <-.
    rewrite entry_put, decide_False; [done..|].
    by eapply entry_not_implicit.
Qed.

(** the outcomes of Pass B *)
Lemma pass_b_cases w tiles_dir :
  (∃ e, PassB.normalize_sub_tileset_uris_in_points tiles_dir w = (inl e, w))
  ∨ PassB.normalize_sub_tileset_uris_in_points tiles_dir w = (inr O, w)
  ∨ Fs.entry w (tiles_dir // "points") = Some Dir.
Proof.
  set (points_dir := tiles_dir // "points").
  unfold PassB.normalize_sub_tileset_uris_in_points. fold points_dir.
  destruct (Fs.entry w points_dir) as [[wr t c| |]|] eqn:E.
  - right; left.
    assert (He : Fs.exists_ points_dir w = (inr true, w))
      by (unfold Fs.exists_; by rewrite E).
    assert (Hd : Fs.is_dir points_dir w = (inr false, w))
      by (unfold Fs.is_dir; by rewrite E).
    step He. by step Hd.
  - by right; right.
  - left. eexists.
    assert (He : Fs.exists_ points_dir w = (inl (OSError "stat"), w))
      by (unfold Fs.exists_; by rewrite E).
    by step He.
  - right; left.
    assert (He : Fs.exists_ points_dir w = (inr false, w))
      by (unfold Fs.exists_; by rewrite E).
    by step He.
Qed.

(** Pass B writes nothing but entries directly inside [points/] *)
Lemma pass_b_keeps tiles_dir p :
  (∀ n, p ≠ (tiles_dir // "points") ++ [n]) →
  preserving (keeps p) (PassB.normalize_sub_tileset_uris_in_points tiles_dir).
Proof.
  intros Hp w r w' Hrun. unfold keeps.
  destruct (pass_b_cases w tiles_dir) as [[e He]|[Hz|Hdir]].
  - rewrite He in Hrun. by injection Hrun as <- <-.
  - rewrite Hz in Hrun. by injection Hrun as <- <-.
  - destruct (pass_b_run w tiles_dir Hdir) as (w1 & Hrun' & _ & Hother & _).
    rewrite Hrun' in Hrun. injection Hrun as <- <-. apply Hother.
    intros (n & -> & _)%elem_of_pass_b_files. by eapply Hp.
Qed.

Lemma post_process_total output_dir w :
  post_process output_dir w = (inr tt, (post_process output_dir w).2).
Proof.
  unfold post_process, mbind, M_bind, bind, try.
  by destruct (PassA.rewrite_child_tileset_uris_if_needed output_dir w)
    as [[e|m] wa]; [|destruct
      (PassB.normalize_sub_tileset_uris_in_points output_dir wa)
      as [[e|n] wb]].
Qed.

Lemma post_process_keeps output_dir p :
  p ≠ output_dir // "tileset.json" →
  (∀ n, p ≠ (output_dir // "points") ++ [n]) →
  preserving (keeps p) (post_process output_dir).
Proof.
  intros Ha Hb. unfold post_process.
  apply preserving_bind; [apply keeps_trans| |intros ?; by apply preserving_ret].
  apply preserving_try.
  apply preserving_bind; [apply keeps_trans|by apply pass_a_keeps|].
  intros m.
  apply preserving_bind; [apply keeps_trans|by apply pass_b_keeps|].
  intros n. by apply preserving_ret.
Qed.

Lemma log_is_not_repaired output_dir :
  output_dir // "tiles_log.txt" ≠ output_dir // "tileset.json"
  ∧ ∀ n, output_dir // "tiles_log.txt" ≠ (output_dir // "points") ++ [n].
Proof.
  change (output_dir // "tiles_log.txt")
    with (output_dir ++ ["tiles_log.txt"]).
  change (output_dir // "tileset.json") with (output_dir ++ ["tileset.json"]).
  change (output_dir // "points") with (output_dir ++ ["points"]).
  split.
  - by intros [_ [=]]%app_inj_tail.
  - intros n H. apply (f_equal length) in H.
    rewrite !length_app in H. simpl in H. lia.
Qed.

Section Engine.

Variable subprocess_run : list string → M (string * Z).
Variables (cmd : list string) (output_dir : Path).
Variables (w w3 : world) (stdout : string) (returncode : Z).

Hypothesis Hrun : subprocess_run cmd w = (inr (stdout, returncode), w3).
Hypothesis Hlog : can_write w3 (output_dir // "tiles_log.txt").

(** the file system once the log is written *)
Let w4 := Fs.put (output_dir // "tiles_log.txt") (Text stdout) w3.

(** after the engine has run: the log is written, then the checks *)
Lemma run_and_check_after_engine :
  run_and_check subprocess_run cmd output_dir w
  = if negb (returncode =? 0) then (inl (engine_failed returncode), w4)
    else match Fs.exists_ (output_dir // "tileset.json") w4 with
         | (inr true, _) =>
             (inr (output_dir // "tileset.json"),
              (post_process output_dir w4).2)
         | (inr false, _) => (inl missing_output, w4)
         | (inl e, _) => (inl e, w4)
         end.
Proof using Hrun Hlog.
  unfold run_and_check. step Hrun.
  destruct (write_can _ _ (Text stdout) Hlog) as [Hw _]. step Hw.
  fold w4. destruct (returncode =? 0); [|done]. simpl.
  destruct (Fs.exists_ (output_dir // "tileset.json") w4)
    as [[e|[]] w4'] eqn:E;
    pose proof (preserving_exists eq (λ _, eq_refl) _ _ _ _ E) as <-.
  - by step E.
  - step E. by step (post_process_total output_dir w4).
  - by step E.
Qed.

Lemma log_after_engine :
  Fs.entry w4 (output_dir // "tiles_log.txt")
  = Some (File true (clock w3) (Text stdout)).
Proof using Hlog.
  destruct (write_can _ _ (Text stdout) Hlog) as [_ Hi].
  unfold w4. by rewrite entry_put, decide_True.
Qed.

Lemma log_after_run_and_check r w5 :
  run_and_check subprocess_run cmd output_dir w = (r, w5) →
  Fs.entry w5 (output_dir // "tiles_log.txt")
  = Some (File true (clock w3) (Text stdout)).
Proof using Hrun Hlog.
  rewrite run_and_check_after_engine.
  destruct (negb _); [intros [= <- <-]; apply log_after_engine|].
  destruct (Fs.exists_ _ w4) as [[e|[]] w4'];
    try (intros [= <- <-]; apply log_after_engine).
  intros [= <- <-]. rewrite <- log_after_engine.
  destruct (log_is_not_repaired output_dir) as [Ha Hb].
  eapply (post_process_keeps output_dir _ Ha Hb).
  apply post_process_total.
Qed.

End Engine.

Lemma append_assoc (s1 s2 s3 : string) :
  (s1 +:+ s2) +:+ s3 = s1 +:+ s2 +:+ s3.
Proof.
  induction s1 as [|a s1 IH]; [done|].
  change (String a ((s1 +:+ s2) +:+ s3) = String a (s1 +:+ s2 +:+ s3)).
  by f_equal.
Qed.

Lemma engine_failed_mentions_log returncode :
  ∃ text, engine_failed returncode = RuntimeError (text +:+ "tiles_log.txt").
Proof.
  exists ("tiles conversion (py3dtiles) failed with exit code "
          +:+ pretty returncode +:+ "; see ").
  unfold engine_failed. f_equal.
  by rewrite !append_assoc.
Qed.

Lemma engine_failed_not_missing_output returncode :
  engine_failed returncode ≠ missing_output.
Proof. unfold engine_failed, missing_output. intros [= H]. Qed.

(** C6. Once the engine has terminated, with the log file writable (a
    writable file is in its place, or nothing is and the output directory
    is still there), the transcript is written to [tiles_log.txt] whatever
    the exit code, and it is still there however the conversion ends.  Then
    a nonzero exit code makes the conversion fail with an error that names
    the log file, and a zero exit code with no root manifest makes it fail
    with a different error, the missing-output one. *)
Theorem log_is_kept_and_failures_are_told_apart
    (sys_executable : string) (which : string → option string)
    (laz_backend : bool) (subprocess_run : list string → M (string * Z))
    (input_path output_dir : Path) (extra_fields srs_out : option string)
    (overwrite : bool) (w w1 w2 w3 : world)
    (tiles_input py3dtiles_exe : Path) (has_crs : bool)
    (stdout : string) (returncode : Z)
    (Hprep : prepare_output_dir output_dir overwrite w = (inr tt, w1))
    (Hin : choose_tiles_input laz_backend input_path w1
           = (inr tiles_input, w2))
    (Hcrs : detect_crs laz_backend tiles_input w2 = (inr has_crs, w2))
    (Hexe : resolve_py3dtiles_executable sys_executable which w2
            = (inr py3dtiles_exe, w2))
    (Hrun : subprocess_run
              (build_command py3dtiles_exe output_dir has_crs srs_out
                             extra_fields tiles_input) w2
            = (inr (stdout, returncode), w3))
    (Hlog : can_write w3 (output_dir // "tiles_log.txt")) :
  let convert :=
    convert_las_to_3dtiles sys_executable which laz_backend subprocess_run
      input_path output_dir extra_fields srs_out overwrite in
  let log_file := output_dir // "tiles_log.txt" in
  let w4 := Fs.put log_file (Text stdout) w3 in
  Fs.entry w4 log_file = Some (File true (clock w3) (Text stdout))
  ∧ (∀ r w5, convert w = (r, w5) →
             Fs.entry w5 log_file
             = Some (File true (clock w3) (Text stdout)))
  ∧ (returncode ≠ 0 → convert w = (inl (engine_failed returncode), w4))
  ∧ (returncode = 0 →
     Fs.entry w3 (output_dir // "tileset.json") = None →
     convert w = (inl missing_output, w4))
  ∧ engine_failed returncode ≠ missing_output
  ∧ ∃ text, engine_failed returncode
            = RuntimeError (text +:+ "tiles_log.txt").
Proof.
  intros convert log_file w4.
  assert (Hconv : convert w
                  = run_and_check subprocess_run
                      (build_command py3dtiles_exe output_dir has_crs srs_out
                                     extra_fields tiles_input)
                      output_dir w2).
  { unfold convert.
    rewrite (convert_after_preparation _ _ _ _ _ _ _ _ _ _ _ _ _ _
               Hprep Hin Hcrs).
    by rewrite Hexe. }
  split; [by eapply log_after_engine|].
  split; [intros r w5; rewrite Hconv; by eapply log_after_run_and_check|].
  rewrite Hconv, (run_and_check_after_engine _ _ _ _ _ _ _ Hrun Hlog).
  fold log_file w4.
  split; [|split; [|split]].
  - intros Hne. by apply Z.eqb_neq in Hne as ->.
  - intros -> Hnone. simpl.
    destruct (write_can _ _ (Text stdout) Hlog) as [_ Hi].
    destruct (log_is_not_repaired output_dir) as [Hne _].
    unfold Fs.exists_, w4, log_file.
    rewrite entry_put, decide_False by done. by rewrite Hnone.
  - apply engine_failed_not_missing_output.
  - apply engine_failed_mentions_log.
Qed.

Lemma log_is_kept_witness :
  let convert :=
    convert_las_to_3dtiles Sample.python Sample.venv_path true
      Sample.failing_engine ["in"; "plot.las"] Sample.out None (Some "4978")
      false in
  let w := Sample.input_dir in
  let w3 := (prepare_output_dir Sample.out false w).2 in
  let log_file := Sample.out // "tiles_log.txt" in
  let w4 := Fs.put log_file (Text "error: cannot read input") w3 in
  Fs.entry w4 log_file
  = Some (File true (clock w3) (Text "error: cannot read input"))
  ∧ (∀ r w5, convert w = (r, w5) →
             Fs.entry w5 log_file
             = Some (File true (clock w3) (Text "error: cannot read input")))
  ∧ (2 ≠ 0 → convert w = (inl (engine_failed 2), w4))
  ∧ (2 = 0 →
     Fs.entry w3 (Sample.out // "tileset.json") = None →
     convert w = (inl missing_output, w4))
  ∧ engine_failed 2 ≠ missing_output
  ∧ ∃ text, engine_failed 2 = RuntimeError (text +:+ "tiles_log.txt").
Proof.
  pose (w1 := (prepare_output_dir Sample.out false Sample.input_dir).2).
  apply (log_is_kept_and_failures_are_told_apart
           Sample.python Sample.venv_path true Sample.failing_engine
           ["in"; "plot.las"] Sample.out None (Some "4978") false
           Sample.input_dir w1 w1 w1 ["in"; "plot.las"]
           ["/"; "venv"; "bin"; "py3dtiles"] true);
    vm_compute; reflexivity.
Defined.

(** C9. When the engine has exited with code zero and left a root manifest,
    the conversion returns the path of that manifest whatever the repair
    stage does: an exception raised by Pass A (Pass B is then not run) or
    by Pass B is swallowed, and changes nothing in the result. *)
Theorem repair_failures_are_swallowed
    (sys_executable : string) (which : string → option string)
    (laz_backend : bool) (subprocess_run : list string → M (string * Z))
    (input_path output_dir : Path) (extra_fields srs_out : option string)
    (overwrite : bool) (w w1 w2 w3 : world)
    (tiles_input py3dtiles_exe : Path) (has_crs : bool)
    (stdout : string) (manifest : node)
    (Hprep : prepare_output_dir output_dir overwrite w = (inr tt, w1))
    (Hin : choose_tiles_input laz_backend input_path w1
           = (inr tiles_input, w2))
    (Hcrs : detect_crs laz_backend tiles_input w2 = (inr has_crs, w2))
    (Hexe : resolve_py3dtiles_executable sys_executable which w2
            = (inr py3dtiles_exe, w2))
    (Hrun : subprocess_run
              (build_command py3dtiles_exe output_dir has_crs srs_out
                             extra_fields tiles_input) w2
            = (inr (stdout, 0), w3))
    (Hlog : can_write w3 (output_dir // "tiles_log.txt"))
    (Hmanifest : Fs.entry w3 (output_dir // "tileset.json") = Some manifest)
    (Hstat : manifest ≠ Broken) :
  let convert :=
    convert_las_to_3dtiles sys_executable which laz_backend subprocess_run
      input_path output_dir extra_fields srs_out overwrite in
  let tileset_json := output_dir // "tileset.json" in
  let w4 := Fs.put (output_dir // "tiles_log.txt") (Text stdout) w3 in
  let pass_a := PassA.rewrite_child_tileset_uris_if_needed output_dir in
  let pass_b := PassB.normalize_sub_tileset_uris_in_points output_dir in
  (∃ w5, convert w = (inr tileset_json, w5))
  ∧ (∀ e wa, pass_a w4 = (inl e, wa) → convert w = (inr tileset_json, wa))
  ∧ (∀ m wa e wb, pass_a w4 = (inr m, wa) → pass_b wa = (inl e, wb) →
                  convert w = (inr tileset_json, wb))
  ∧ (∀ m wa n wb, pass_a w4 = (inr m, wa) → pass_b wa = (inr n, wb) →
                  convert w = (inr tileset_json, wb)).
Proof.
  intros convert tileset_json w4 pass_a pass_b.
  assert (Hconv : convert w
                  = (inr tileset_json, (post_process output_dir w4).2)).
  { unfold convert.
    rewrite (convert_after_preparation _ _ _ _ _ _ _ _ _ _ _ _ _ _
               Hprep Hin Hcrs).
    rewrite Hexe, (run_and_check_after_engine _ _ _ _ _ _ _ Hrun Hlog).
    simpl negb. cbv iota. fold w4.
    destruct (write_can _ _ (Text stdout) Hlog) as [_ Hi].
    destruct (log_is_not_repaired output_dir) as [Hne _].
    unfold Fs.exists_.
    replace (Fs.entry w4 (output_dir // "tileset.json")) with (Some manifest)
      by (unfold w4; by rewrite entry_put, decide_False by done).
    by destruct manifest. }
  rewrite Hconv. split; [by eexists|].
  unfold post_process, mbind, M_bind, bind, try. fold pass_a pass_b.
  split; [|split].
  - intros e wa ->. done.
  - intros m wa e wb -> ->. done.
  - intros m wa n wb -> ->. done.
Qed.

Lemma repair_failures_witness :
  let convert :=
    convert_las_to_3dtiles Sample.python Sample.venv_path true
      Sample.careless_engine ["in"; "plot.las"] Sample.out None
      (Some "4978") false in
  let w := Sample.input_dir in
  let w3 :=
    (Sample.careless_engine []
       (prepare_output_dir Sample.out false w).2).2 in
  let tileset_json := Sample.out // "tileset.json" in
  let w4 := Fs.put (Sample.out // "tiles_log.txt") (Text "done") w3 in
  let pass_a := PassA.rewrite_child_tileset_uris_if_needed Sample.out in
  let pass_b := PassB.normalize_sub_tileset_uris_in_points Sample.out in
  (∃ w5, convert w = (inr tileset_json, w5))
  ∧ (∀ e wa, pass_a w4 = (inl e, wa) → convert w = (inr tileset_json, wa))
  ∧ (∀ m wa e wb, pass_a w4 = (inr m, wa) → pass_b wa = (inl e, wb) →
                  convert w = (inr tileset_json, wb))
  ∧ (∀ m wa n wb, pass_a w4 = (inr m, wa) → pass_b wa = (inr n, wb) →
                  convert w = (inr tileset_json, wb)).
Proof.
  pose (w1 := (prepare_output_dir Sample.out false Sample.input_dir).2).
  apply (repair_failures_are_swallowed
           Sample.python Sample.venv_path true Sample.careless_engine
           ["in"; "plot.las"] Sample.out None (Some "4978") false
           Sample.input_dir w1 w1 (Sample.careless_engine [] w1).2
           ["in"; "plot.las"] ["/"; "venv"; "bin"; "py3dtiles"] true
           "done" (Sample.file (Doc Sample.root_manifest)));
    try (vm_compute; reflexivity).
  discriminate.
Defined.

(** in that run Pass B does raise, and the conversion returns all the same *)
Example repair_stage_raises_and_conversion_returns :
  let w := Sample.input_dir in
  let w3 :=
    (Sample.careless_engine []
       (prepare_output_dir Sample.out false w).2).2 in
  let w4 := Fs.put (Sample.out // "tiles_log.txt") (Text "done") w3 in
  PassB.normalize_sub_tileset_uris_in_points Sample.out w4
  = (inl (OSError "stat"), w4)
  ∧ convert_las_to_3dtiles Sample.python Sample.venv_path true
      Sample.careless_engine ["in"; "plot.las"] Sample.out None
      (Some "4978") false w
    = (inr ["out"; "tileset.json"], w4).
Proof. split; vm_compute; reflexivity. Qed.

(** * Further properties of the code *)

(** ** What a repair pass leaves of a manifest *)

Lemma forall2_dict_set (E : string * json → string * json → Prop)
    k v' (d0 d : list (string * json)) :
  (∀ kv kv', E kv kv' → kv.1 = kv'.1) →
  Forall2 E d0 d →
  is_Some (Dict.get k d) →
  (∀ v0, Dict.get k d0 = Some v0 → E (k, v0) (k, v')) →
  Forall2 E d0 (Dict.set k v' d).
Proof.
  intros Hkey H. induction H as [|[k0 v0] [k1 v1] r0 r HE Hr IH];
    intros Hsome Hat; simpl in *.
  - by destruct Hsome.
  - pose proof (Hkey _ _ HE) as Hk. simpl in Hk. subst k1.
    destruct (String.eqb k0 k) eqn:Ek.
    + apply String.eqb_eq in Ek as ->. constructor; [|done].
      by apply Hat.
    + constructor; [done|]. by apply IH.
Qed.

Lemma forall2_same {A} (R : A → A → Prop) (l : list A) :
  (∀ x, x ∈ l → R x x) → Forall2 R l l.
Proof.
  intros H. apply Forall_Forall2_diag, Forall_forall. exact H.
Qed.

Lemma forall2_fmap_of {A} (R : A → A → Prop) (f : A → A) (l : list A) :
  (∀ x, x ∈ l → R x (f x)) → Forall2 R l (f <$> l).
Proof.
  intros H. apply Forall2_fmap_r, Forall_Forall2_diag, Forall_forall.
  exact H.
Qed.

Lemma rewrite_uri_variant rw obj : ref_variant obj (rewrite_uri rw obj).1.
Proof.
  unfold rewrite_uri. destruct obj as [| | | | | |d]; try by left.
  destruct (Dict.get "uri" d) as [[| | | |u| |]|] eqn:E; try by left.
  destruct (rw u) as [u'|]; [|by left]. right. do 2 eexists.
  split; [done|]. split; [done|].
  apply forall2_dict_set.
  - by intros ?? [? _].
  - apply forall2_same. intros kv _. split; [done|by left].
  - by rewrite E.
  - intros v0 Hv0. rewrite E in Hv0. injection Hv0 as <-.
    split; [done|]. right. split; [done|]. by exists u, u'.
Qed.

Section Frame.

Variable maybe_fix : json → json * bool.
Variable rw : string → option string.
Hypothesis maybe_fix_rw : ∀ obj, maybe_fix obj = rewrite_uri rw obj.

Lemma maybe_fix_variant obj : ref_variant obj (maybe_fix obj).1.
Proof using maybe_fix_rw. rewrite maybe_fix_rw. apply rewrite_uri_variant. Qed.

(** a walked tile differs from the tile in its references only *)
Lemma walk_variant node : tile_variant node (walk maybe_fix node).1.
Proof using maybe_fix_rw.
  induction node as [node IH] using tile_ind.
  destruct node as [| | | | | |d]; try apply tile_same.
  set (E := λ kv kv' : string * json,
              kv.1 = kv'.1
              ∧ (kv.2 = kv'.2
                 ∨ (kv.1 = "content" ∧ ref_variant kv.2 kv'.2)
                 ∨ (kv.1 = "contents" ∧ refs_variant kv.2 kv'.2)
                 ∨ (kv.1 = "children"
                    ∧ ∃ l l', kv.2 = JArr l ∧ kv'.2 = JArr l'
                              ∧ Forall2 tile_variant l l'))).
  assert (Ekey : ∀ kv kv', E kv kv' → kv.1 = kv'.1) by (by intros ?? [? _]).
  cut (∃ d', (walk maybe_fix (JObj d)).1 = JObj d' ∧ Forall2 E d d').
  { intros (d' & -> & H). by apply tile_repaired. }
  rewrite walk_eq.
  (* the reference under "content" *)
  assert (H1 : Forall2 E d (fix_content maybe_fix d).1).
  { unfold fix_content.
    destruct (Dict.get "content" d) as [c|] eqn:Ec;
      [|apply forall2_same; intros; split; [done|by left]].
    destruct c as [| | | | | |o];
      try (apply forall2_same; intros; split; [done|by left]).
    pose proof (maybe_fix_variant (JObj o)) as Hv.
    destruct (maybe_fix (JObj o)) as [c m]. simpl in *.
    apply forall2_dict_set; [done| |by rewrite Ec|].
    - apply forall2_same. intros; split; [done|by left].
    - intros v0 Hv0. rewrite Ec in Hv0. injection Hv0 as <-.
      split; [done|]. right; left. done. }
  pose proof (fix_content_get maybe_fix "contents" d) as G1s.
  pose proof (fix_content_get maybe_fix "children" d) as G1c.
  destruct (fix_content maybe_fix d) as [d1 m1]. simpl in H1, G1s, G1c.
  (* the references under "contents" *)
  assert (H2 : Forall2 E d (fix_contents maybe_fix d1).1).
  { unfold fix_contents.
    destruct (Dict.get "contents" d1) as [v|] eqn:Ec; [|done].
    destruct v as [| | | | |cs|]; try done.
    rewrite (fix_each_eq _ _ maybe_fix_rw). simpl.
    apply forall2_dict_set; [done|done|by rewrite Ec|].
    intros v0 Hv0. rewrite <- G1s in Hv0 by done. injection Hv0 as <-.
    split; [done|]. right; right; left. split; [done|].
    do 2 eexists. split; [done|]. split; [done|].
    apply forall2_fmap_of. intros c _. apply maybe_fix_variant. }
  pose proof (fix_contents_get maybe_fix "children" d1) as G2c.
  destruct (fix_contents maybe_fix d1) as [d2 m2]. simpl in H2, G2c.
  rewrite G1c in G2c by done. specialize (G2c ltac:(done)).
  (* the tiles under "children" *)
  destruct (Dict.get "children" d2) as [v|] eqn:Ec; [|by eexists].
  destruct v as [| | | | |cs|]; try by eexists.
  rewrite walk_each_eq. eexists. split; [done|].
  apply forall2_dict_set; [done|done|by rewrite Ec|].
  intros v0 Hv0. rewrite <- G2c in Hv0. injection Hv0 as <-.
  split; [done|]. right; right; right. split; [done|].
  do 2 eexists. split; [done|]. split; [done|].
  apply forall2_fmap_of. intros c Hc.
  apply (IH d cs c eq_refl); [by rewrite <- G2c|done].
Qed.

Lemma walk_root_variant data data' m :
  walk_root maybe_fix data = inr (data', m) → manifest_variant data data'.
Proof using maybe_fix_rw.
  unfold walk_root. destruct data as [| | | | | |d]; try done.
  destruct (Dict.get "root" d) as [root|] eqn:E;
    [|intros [= <- _]; by left].
  pose proof (walk_variant root) as Hv.
  destruct (walk maybe_fix root) as [root' m']. intros [= <- _].
  right. do 2 eexists. split; [done|]. split; [done|].
  apply forall2_dict_set.
  - by intros ?? [? _].
  - apply forall2_same. intros; split; [done|by left].
  - by rewrite E.
  - intros v0 Hv0. rewrite E in Hv0. injection Hv0 as <-.
    split; [done|]. right. done.
Qed.

End Frame.

(** ** Decompressing the input *)

Lemma laspy_read_ok lb p w crs :
  readable_cloud lb w p = Some crs → laspy_read lb p w = (inr crs, w).
Proof.
  unfold laspy_read, readable_cloud, mbind, M_bind, bind, Fs.read.
  destruct (Fs.entry w p) as [[wr t [s|j|compressed c]| |]|]; try done.
  destruct (compressed && negb lb); [done|]. by intros [= ->].
Qed.

Lemma laspy_read_fails lb p w :
  readable_cloud lb w p = None → ∃ e, laspy_read lb p w = (inl e, w).
Proof.
  unfold laspy_read, readable_cloud, mbind, M_bind, bind, Fs.read.
  destruct (Fs.entry w p) as [[wr t [s|j|compressed c]| |]|];
    try (by eexists).
  destruct (compressed && negb lb); [by eexists|done].
Qed.

Lemma write_fails_in_place p c w e w' :
  Fs.write p c w = (inl e, w') → w' = w.
Proof.
  unfold Fs.write.
  destruct (Fs.entry w p) as [[[] ? ?| |]|]; try by intros [= _ <-].
  by destruct (Fs.entry w (Pathlib.parent p)) as [[]|]; intros [= _ <-].
Qed.

Lemma write_succeeds p c w w' :
  Fs.write p c w = (inr tt, w') → can_write w p ∧ w' = Fs.put p c w.
Proof.
  unfold Fs.write, can_write.
  destruct (Fs.entry w p) as [[[] ? ?| |]|]; try done.
  - by intros [= <-].
  - by destruct (Fs.entry w (Pathlib.parent p)) as [[]|]; intros [= <-].
Qed.

(** the freshness test of [uncompress_laz_to_las], as one condition *)
Lemma uncompress_freshness lb laz_path las_path w :
  Pathlib.with_suffix laz_path ".las" = inr las_path →
  Fs.entry w las_path ≠ Some Broken →
  uncompress_laz_to_las lb laz_path w
  = if las_is_fresh w las_path laz_path then (inr las_path, w)
    else match try (las ← laspy_read lb laz_path;
                    las_write las las_path) w with
         | (inr (inr _), w') => (inr las_path, w')
         | (inr (inl e), w') =>
             (inl (RuntimeError
                     ("Failed to uncompress " +:+ Pathlib.name laz_path
                      +:+ " to LAS: " +:+ exc_str e)), w')
         | (inl e, w') => (inl e, w')
         end.
Proof.
  intros Hs Hb. unfold uncompress_laz_to_las, las_is_fresh. rewrite Hs.
  assert (Hl : lift (inr las_path) w = (inr las_path, w)) by done. step Hl.
  destruct (Fs.entry w las_path) as [n|] eqn:E.
  - assert (He : Fs.exists_ las_path w = (inr true, w))
      by (unfold Fs.exists_; rewrite E; by destruct n).
    step He.
    assert (Hfresh :
      (r ← try (t_las ← Fs.st_mtime las_path;
                t_laz ← Fs.st_mtime laz_path;
                ret (t_laz <=? t_las));
       match r with inr b => ret b | inl _ => ret false end) w
      = (inr match Fs.st_mtime las_path w, Fs.st_mtime laz_path w with
             | (inr t_las, _), (inr t_laz, _) => t_laz <=? t_las
             | _, _ => false
             end, w)).
    { unfold mbind, M_bind, bind, try, Fs.st_mtime. rewrite E.
      destruct n; [|by destruct (Fs.entry w laz_path) as [[]|]|done].
      by destruct (Fs.entry w laz_path) as [[]|]. }
    step Hfresh.
    destruct (match Fs.st_mtime las_path w with
              | (inr t_las, _) => _ | _ => _ end); [done|].
    unfold mbind, M_bind, bind.
    by destruct (try _ w) as [[e|[e|[]]] w'].
  - assert (He : Fs.exists_ las_path w = (inr false, w))
      by (unfold Fs.exists_; by rewrite E).
    step He.
    assert (Hr : ret (A:=bool) false w = (inr false, w)) by done. step Hr.
    unfold mbind, M_bind, bind.
    by destruct (try _ w) as [[e|[e|[]]] w'].
Qed.

Lemma decode_attempt lb laz_path las_path w r w' :
  try (las ← laspy_read lb laz_path; las_write las las_path) w = (r, w') →
  match readable_cloud lb w laz_path with
  | Some crs =>
      (r = inr (inr tt) ∧ can_write w las_path
       ∧ w' = Fs.put las_path (Cloud false crs) w)
      ∨ (∃ e, r = inr (inl e) ∧ ¬ can_write w las_path ∧ w' = w)
  | None => ∃ e, r = inr (inl e) ∧ w' = w
  end.
Proof.
  unfold try, mbind, M_bind, bind.
  destruct (readable_cloud lb w laz_path) as [crs|] eqn:E.
  - rewrite (laspy_read_ok _ _ _ _ E). unfold las_write.
    destruct (Fs.write las_path (Cloud false crs) w) as [[e|[]] w1] eqn:Hw;
      intros [= <- <-].
    + right. exists e. split; [done|].
      split; [|by eapply write_fails_in_place].
      intros Hc. destruct (write_can _ _ (Cloud false crs) Hc) as [Hok _].
      congruence.
    + left. by destruct (write_succeeds _ _ _ _ Hw).
  - destruct (laspy_read_fails _ _ _ E) as [e ->]. intros [= <- <-]. eauto.
Qed.

Lemma fresh_not_broken w las_path :
  can_write w las_path → Fs.entry w las_path ≠ Some Broken.
Proof. unfold can_write. by destruct (Fs.entry w las_path) as [[]|]. Qed.

Lemma readable_is_file lb w p crs :
  readable_cloud lb w p = Some crs →
  ∃ wr t c, Fs.entry w p = Some (File wr t c).
Proof.
  unfold readable_cloud. destruct (Fs.entry w p) as [[wr t c| |]|]; eauto;
    done.
Qed.

(** a readable cloud is as fresh as itself: the path written differs from
    the path read whenever the copy is not fresh *)
Lemma stale_copy_is_another_file lb w las_path laz_path crs :
  readable_cloud lb w laz_path = Some crs →
  las_is_fresh w las_path laz_path = false →
  las_path ≠ laz_path.
Proof.
  intros Hr Hf ->. destruct (readable_is_file _ _ _ _ Hr) as (wr & t & c & E).
  unfold las_is_fresh, Fs.st_mtime in Hf. rewrite E in Hf.
  by apply Z.leb_gt in Hf; lia.
Qed.

(** X1. The decompression cache: when the [.las] sibling of the input is a
    file that is not older than the input, [uncompress_laz_to_las] returns
    that sibling and leaves the file system as it is -- it neither decodes
    the input nor writes anything, whatever the two files hold. *)
Theorem uncompress_reuses_fresh_copy
    (laz_backend : bool) (laz_path las_path : Path) (w : world)
    (wr1 wr2 : bool) (t_las t_laz : Z) (c1 c2 : content)
    (Hsibling : Pathlib.with_suffix laz_path ".las" = inr las_path)
    (Hlas : Fs.entry w las_path = Some (File wr1 t_las c1))
    (Hlaz : Fs.entry w laz_path = Some (File wr2 t_laz c2))
    (Hfresh : t_laz ≤ t_las) :
  uncompress_laz_to_las laz_backend laz_path w = (inr las_path, w).
Proof.
  rewrite (uncompress_freshness _ _ _ _ Hsibling) by congruence.
  unfold las_is_fresh, Fs.st_mtime. rewrite Hlas, Hlaz.
  by apply Z.leb_le in Hfresh as ->.
Qed.

Lemma uncompress_reuses_witness :
  uncompress_laz_to_las false ["in"; "plot.laz"] Sample.laz_and_las_dir
  = (inr ["in"; "plot.las"], Sample.laz_and_las_dir).
Proof.
  apply (uncompress_reuses_fresh_copy false ["in"; "plot.laz"]
           ["in"; "plot.las"] Sample.laz_and_las_dir true true 7 5
           (Cloud false (Some true)) (Cloud true (Some true)));
    vm_compute; first [reflexivity | discriminate].
Defined.

(** the freshness test does not ask what the sibling is: a directory of
    that name, not older than the input, is returned as the copy *)
Example uncompress_takes_a_directory_for_the_copy :
  uncompress_laz_to_las true ["in"; "plot.laz"] Sample.laz_and_directory_dir
  = (inr ["in"; "plot.las"], Sample.laz_and_directory_dir)
  ∧ las_is_fresh Sample.laz_and_directory_dir ["in"; "plot.las"]
      ["in"; "plot.laz"] = true.
Proof. split; reflexivity. Qed.

(** X2. Decompression proper: when there is no fresh [.las] sibling, laspy
    can decode the input and the sibling can be written, the function
    writes the uncompressed cloud -- with the CRS record of the input -- to
    the sibling and returns its path; the input itself and every other
    path are left as they were. *)
Theorem uncompress_writes_uncompressed_sibling
    (laz_backend : bool) (laz_path las_path : Path) (w : world)
    (crs : option bool)
    (Hsibling : Pathlib.with_suffix laz_path ".las" = inr las_path)
    (Hstale : las_is_fresh w las_path laz_path = false)
    (Hcloud : readable_cloud laz_backend w laz_path = Some crs)
    (Hwrite : can_write w las_path) :
  let w' := Fs.put las_path (Cloud false crs) w in
  uncompress_laz_to_las laz_backend laz_path w = (inr las_path, w')
  ∧ Fs.entry w' las_path = Some (File true (clock w) (Cloud false crs))
  ∧ Fs.entry w' laz_path = Fs.entry w laz_path
  ∧ ∀ q, q ≠ las_path → Fs.entry w' q = Fs.entry w q.
Proof.
  intros w'. destruct (write_can _ _ (Cloud false crs) Hwrite) as [_ Hi].
  assert (Hother : ∀ q, q ≠ las_path → Fs.entry w' q = Fs.entry w q).
  { intros q Hq. unfold w'. by rewrite entry_put, decide_False. }
  split; [|split; [|split; [|done]]].
  - rewrite (uncompress_freshness _ _ _ _ Hsibling)
      by (by apply fresh_not_broken).
    rewrite Hstale.
    destruct (try _ w) as [r w1] eqn:Ht.
    apply decode_attempt in Ht. rewrite Hcloud in Ht.
    by destruct Ht as [(-> & _ & ->)|(e & _ & Hn & _)].
  - unfold w'. by rewrite entry_put, decide_True.
  - apply Hother. intros Heq.
    by eapply stale_copy_is_another_file.
Qed.

Lemma uncompress_writes_witness :
  let w := Sample.laz_dir in
  let w' := Fs.put ["in"; "plot.las"] (Cloud false (Some true)) w in
  uncompress_laz_to_las true ["in"; "plot.laz"] w
  = (inr ["in"; "plot.las"], w')
  ∧ Fs.entry w' ["in"; "plot.las"]
    = Some (File true (clock w) (Cloud false (Some true)))
  ∧ Fs.entry w' ["in"; "plot.laz"] = Fs.entry w ["in"; "plot.laz"]
  ∧ ∀ q, q ≠ ["in"; "plot.las"] → Fs.entry w' q = Fs.entry w q.
Proof.
  apply (uncompress_writes_uncompressed_sibling true ["in"; "plot.laz"]
           ["in"; "plot.las"] Sample.laz_dir (Some true));
    vm_compute; reflexivity.
Defined.

(** X3. Failure of the decompression: when the input has a name and the
    [.las] sibling can be inspected, every failure -- the input missing, not
    a point cloud, compressed with no LAZ backend at hand, the sibling not
    writable -- is raised as a [RuntimeError] whose message starts with
    "Failed to uncompress <name> to LAS: ", and nothing has been written. *)
Theorem uncompress_failure_is_a_runtime_error
    (laz_backend : bool) (laz_path las_path : Path) (w w' : world) (e : exc)
    (Hsibling : Pathlib.with_suffix laz_path ".las" = inr las_path)
    (Hstat : Fs.entry w las_path ≠ Some Broken)
    (Hraise : uncompress_laz_to_las laz_backend laz_path w = (inl e, w')) :
  w' = w
  ∧ ∃ detail,
      e = RuntimeError ("Failed to uncompress " +:+ Pathlib.name laz_path
                        +:+ " to LAS: " +:+ detail).
Proof.
  rewrite (uncompress_freshness _ _ _ _ Hsibling Hstat) in Hraise.
  destruct (las_is_fresh w las_path laz_path); [done|].
  destruct (try _ w) as [r w1] eqn:Ht. apply decode_attempt in Ht.
  destruct (readable_cloud laz_backend w laz_path) as [crs|].
  - destruct Ht as [(-> & _ & ->)|(e0 & -> & _ & ->)]; [done|].
    injection Hraise as <- <-. eauto.
  - destruct Ht as (e0 & -> & ->). injection Hraise as <- <-. eauto.
Qed.

Lemma uncompress_failure_witness :
  (uncompress_laz_to_las false ["in"; "plot.laz"] Sample.laz_dir).2
  = Sample.laz_dir
  ∧ ∃ detail,
      (uncompress_laz_to_las false ["in"; "plot.laz"] Sample.laz_dir).1
      = inl (RuntimeError ("Failed to uncompress "
                           +:+ Pathlib.name ["in"; "plot.laz"]
                           +:+ " to LAS: " +:+ detail)).
Proof.
  destruct (uncompress_failure_is_a_runtime_error false ["in"; "plot.laz"]
              ["in"; "plot.las"] Sample.laz_dir Sample.laz_dir
              (RuntimeError "Failed to uncompress plot.laz to LAS: laspy error"))
    as [Hw [detail Hd]].
  - vm_compute. reflexivity.
  - vm_compute. discriminate.
  - vm_compute. reflexivity.
  - split; [vm_compute; reflexivity|].
    exists "laspy error". vm_compute. reflexivity.
Defined.

Lemma uncompress_fresh lb laz_path las_path w :
  Pathlib.with_suffix laz_path ".las" = inr las_path →
  las_is_fresh w las_path laz_path = true →
  uncompress_laz_to_las lb laz_path w = (inr las_path, w).
Proof.
  intros Hs Hf. rewrite (uncompress_freshness _ _ _ _ Hs), Hf; [done|].
  intros Hb. unfold las_is_fresh, Fs.st_mtime in Hf. by rewrite Hb in Hf.
Qed.

Lemma uncompress_returns_sibling lb laz_path w p w1 :
  uncompress_laz_to_las lb laz_path w = (inr p, w1) →
  Pathlib.with_suffix laz_path ".las" = inr p
  ∧ Fs.entry w p ≠ Some Broken.
Proof.
  intros H.
  destruct (Pathlib.with_suffix laz_path ".las") as [e|las_path] eqn:Hs.
  { revert H. unfold uncompress_laz_to_las. rewrite Hs.
    by unfold mbind, M_bind, bind, lift. }
  assert (Hb : Fs.entry w las_path ≠ Some Broken).
  { intros Hb. revert H. unfold uncompress_laz_to_las. rewrite Hs.
    unfold mbind, M_bind, bind, lift, Fs.exists_. by rewrite Hb. }
  rewrite (uncompress_freshness _ _ _ _ Hs Hb) in H.
  destruct (las_is_fresh w las_path laz_path).
  - by injection H as <- <-.
  - destruct (try _ w) as [[e|[e|[]]] w2]; [done|done|].
    by injection H as <- <-.
Qed.

Lemma uncompress_raises_in_place lb laz_path w e w' :
  uncompress_laz_to_las lb laz_path w = (inl e, w') → w' = w.
Proof.
  intros H.
  destruct (Pathlib.with_suffix laz_path ".las") as [e0|las_path] eqn:Hs.
  { revert H. unfold uncompress_laz_to_las. rewrite Hs.
    unfold mbind, M_bind, bind, lift. by intros [= _ <-]. }
  assert (Fs.entry w las_path = Some Broken
          ∨ Fs.entry w las_path ≠ Some Broken) as [Hb|Hb]
    by (destruct (Fs.entry w las_path) as [[]|]; eauto).
  { revert H. unfold uncompress_laz_to_las. rewrite Hs.
    unfold mbind, M_bind, bind, lift, Fs.exists_. rewrite Hb.
    by intros [= _ <-]. }
  rewrite (uncompress_freshness _ _ _ _ Hs Hb) in H.
  destruct (las_is_fresh w las_path laz_path); [done|].
  destruct (try _ w) as [r w1] eqn:Ht. apply decode_attempt in Ht.
  destruct (readable_cloud lb w laz_path) as [crs|].
  - destruct Ht as [(-> & _ & ->)|(e0 & -> & _ & ->)]; [done|].
    by injection H as _ <-.
  - destruct Ht as (e0 & -> & ->). by injection H as _ <-.
Qed.

(** X4. The copy written by one call is the cache of the next: when no
    file carries a modification time later than the clock, a call that
    returns a path leaves the file system such that a second call returns
    the same path and writes nothing. *)
Theorem uncompress_second_call_reuses_the_copy
    (laz_backend : bool) (laz_path las_path : Path) (w w1 : world)
    (Hclock : ∀ wr t c,
        Fs.entry w laz_path = Some (File wr t c) → t ≤ clock w)
    (Hfirst : uncompress_laz_to_las laz_backend laz_path w
              = (inr las_path, w1)) :
  uncompress_laz_to_las laz_backend laz_path w1 = (inr las_path, w1).
Proof.
  destruct (uncompress_returns_sibling _ _ _ _ _ Hfirst) as [Hs Hb].
  rewrite (uncompress_freshness _ _ _ _ Hs Hb) in Hfirst.
  destruct (las_is_fresh w las_path laz_path) eqn:Hf.
  { injection Hfirst as <-. by apply uncompress_fresh. }
  destruct (try _ w) as [r w2] eqn:Ht. apply decode_attempt in Ht.
  destruct (readable_cloud laz_backend w laz_path) as [crs|] eqn:Hr.
  - destruct Ht as [(-> & Hc & ->)|(e0 & -> & _ & ->)]; [|done].
    injection Hfirst as <-.
    pose proof (stale_copy_is_another_file _ _ _ _ _ Hr Hf) as Hne.
    destruct (readable_is_file _ _ _ _ Hr) as (wr & t & c & E).
    destruct (write_can _ _ (Cloud false crs) Hc) as [_ Hi].
    apply uncompress_fresh; [done|].
    unfold las_is_fresh, Fs.st_mtime.
    rewrite !entry_put, decide_True, decide_False, E by done.
    apply Z.leb_le. eauto.
  - by destruct Ht as (e0 & -> & ->).
Qed.

Lemma uncompress_second_call_witness :
  let w1 := Fs.put ["in"; "plot.las"] (Cloud false (Some true))
                   Sample.laz_dir in
  uncompress_laz_to_las true ["in"; "plot.laz"] w1
  = (inr ["in"; "plot.las"], w1).
Proof.
  apply (uncompress_second_call_reuses_the_copy true ["in"; "plot.laz"]
           ["in"; "plot.las"] Sample.laz_dir).
  - intros wr t c. vm_compute. intros [= _ <- _]. discriminate.
  - vm_compute. reflexivity.
Defined.

(** X5. Choosing the engine's input never fails.  It yields either the
    input path itself, with the file system untouched -- also when a
    failed decompression is recovered from -- or, for an input whose suffix is [.laz] in any letter case, the path
    that [uncompress_laz_to_las] returned, with what that call wrote. *)
Theorem choose_tiles_input_falls_back_to_the_input
    (laz_backend : bool) (input_path : Path) (w : world) :
  ∃ tiles_input w',
    choose_tiles_input laz_backend input_path w = (inr tiles_input, w')
    ∧ ((tiles_input = input_path ∧ w' = w)
       ∨ (Str.lower (Pathlib.suffix input_path) = ".laz"
          ∧ uncompress_laz_to_las laz_backend input_path w
            = (inr tiles_input, w'))).
Proof.
  unfold choose_tiles_input.
  destruct (String.eqb _ _) eqn:Hsuf; [|by eexists _, _; split; [|left]].
  apply String.eqb_eq in Hsuf.
  unfold mbind, M_bind, bind, try.
  destruct (uncompress_laz_to_las laz_backend input_path w)
    as [[e|las] w'] eqn:E; do 2 eexists; (split; [done|]).
  - left. split; [done|]. by eapply uncompress_raises_in_place.
  - by right.
Qed.

(** X6. CRS detection never fails and never changes the file system; it
    answers yes exactly when the engine's input is a point cloud that laspy
    can decode (a compressed one needs the LAZ backend) and whose CRS
    record parses to a truthy value. *)
Theorem detect_crs_reads_the_header
    (laz_backend : bool) (tiles_input : Path) (w : world) :
  detect_crs laz_backend tiles_input w
  = (inr (bool_decide
            (readable_cloud laz_backend w tiles_input = Some (Some true))),
     w).
Proof.
  unfold detect_crs, mbind, M_bind, bind, try.
  destruct (readable_cloud laz_backend w tiles_input) as [crs|] eqn:E.
  - rewrite (laspy_read_ok _ _ _ _ E). by destruct crs as [[]|].
  - by destruct (laspy_read_fails _ _ _ E) as [e ->].
Qed.

(** ** Finding the engine *)

Lemma removelast_snoc {A} (l : list A) (x : A) : removelast (l ++ [x]) = l.
Proof. by rewrite removelast_app, app_nil_r. Qed.

(** [with_name] stays in the directory and gives the name asked for *)
Lemma with_name_sibling q n p :
  Pathlib.is_anchor n = false →
  Pathlib.with_name q n = inr p →
  Pathlib.name p = n ∧ Pathlib.parent p = Pathlib.parent q.
Proof.
  intros Hn. unfold Pathlib.with_name.
  destruct (String.eqb (Pathlib.name q) "") eqn:E; [done|].
  intros [= <-]. destruct q as [|a [|b r]].
  - done.
  - simpl in *. rewrite Hn. split; [done|].
    destruct (Pathlib.is_anchor a); [done|done].
  - split.
    + change (removelast (a :: b :: r) ++ [n])
        with (a :: (removelast (b :: r) ++ [n])).
      unfold Pathlib.name. by rewrite last_snoc.
    + change (removelast (a :: b :: r) ++ [n])
        with (a :: (removelast (b :: r) ++ [n])).
      unfold Pathlib.parent.
      destruct (removelast (b :: r) ++ [n]) as [|c l] eqn:El.
      { by destruct (removelast (b :: r)). }
      rewrite <- El.
      change (a :: (removelast (b :: r) ++ [n]))
        with ((a :: removelast (b :: r)) ++ [n]).
      by rewrite removelast_snoc.
Qed.

(** X7. The engine next to the interpreter wins: when an entry named
    [py3dtiles] exists in the directory of [sys.executable] -- a file or a
    directory, the code does not look -- it is returned whatever the search
    path holds, and the file system is not changed. *)
Theorem resolve_prefers_the_interpreter_directory
    (sys_executable : string) (which : string → option string)
    (w : world) (py3dtiles_exe : Path) (n : node)
    (Hname : Pathlib.with_name (Pathlib.of_string sys_executable) "py3dtiles"
             = inr py3dtiles_exe)
    (Hentry : Fs.entry w py3dtiles_exe = Some n)
    (Hstat : n ≠ Broken) :
  resolve_py3dtiles_executable sys_executable which w
  = (inr py3dtiles_exe, w)
  ∧ Pathlib.name py3dtiles_exe = "py3dtiles"
  ∧ Pathlib.parent py3dtiles_exe
    = Pathlib.parent (Pathlib.of_string sys_executable).
Proof.
  split; [|by apply with_name_sibling].
  unfold resolve_py3dtiles_executable. rewrite Hname.
  unfold mbind, M_bind, bind, lift, Fs.exists_. rewrite Hentry.
  by destruct n.
Qed.

Lemma resolve_prefers_witness :
  resolve_py3dtiles_executable Sample.venv_python Sample.empty_path
    Sample.venv_dir
  = (inr ["/"; "venv"; "bin"; "py3dtiles"], Sample.venv_dir)
  ∧ Pathlib.name ["/"; "venv"; "bin"; "py3dtiles"] = "py3dtiles"
  ∧ Pathlib.parent ["/"; "venv"; "bin"; "py3dtiles"]
    = Pathlib.parent (Pathlib.of_string Sample.venv_python).
Proof.
  apply (resolve_prefers_the_interpreter_directory Sample.venv_python
           Sample.empty_path Sample.venv_dir
           ["/"; "venv"; "bin"; "py3dtiles"]
           (Sample.file (Text "#!python")));
    [vm_compute; reflexivity..|discriminate].
Defined.

(** X8. When [resolve_py3dtiles_executable] returns a path.  It does so in
    two cases only, and never changes the file system: the entry next to
    the interpreter exists, and is returned; or it does not, and the search
    path yields a non-empty string, which is returned as a path without
    being looked at. *)
Theorem resolve_returns_sibling_or_search_result
    (sys_executable : string) (which : string → option string)
    (w w' : world) (q : Path) :
  resolve_py3dtiles_executable sys_executable which w = (inr q, w')
  ↔ w' = w
    ∧ ∃ p, Pathlib.with_name (Pathlib.of_string sys_executable) "py3dtiles"
           = inr p
           ∧ ((q = p ∧ ∃ n, Fs.entry w p = Some n ∧ n ≠ Broken)
              ∨ (Fs.entry w p = None
                 ∧ ∃ found, which "py3dtiles" = Some found ∧ found ≠ ""
                            ∧ q = Pathlib.of_string found)).
Proof.
  unfold resolve_py3dtiles_executable.
  destruct (Pathlib.with_name _ "py3dtiles") as [e|p] eqn:Hname.
  { unfold mbind, M_bind, bind, lift. split; [done|].
    by intros (_ & p & [=] & _). }
  unfold mbind, M_bind, bind, lift, Fs.exists_. split.
  - destruct (Fs.entry w p) as [[wr t c| |]|] eqn:E.
    + intros [= <- <-]. split; [done|]. exists p. split; [done|].
      left. split; [done|]. eexists. by split; [exact E|].
    + intros [= <- <-]. split; [done|]. exists p. split; [done|].
      left. split; [done|]. eexists. by split; [exact E|].
    + done.
    + destruct (which "py3dtiles") as [found|] eqn:Hw; [|done].
      destruct found as [|a found]; [done|]. intros [= <- <-].
      split; [done|]. exists p. split; [done|]. right. split; [done|].
      by eexists.
  - intros (-> & p' & Hp & H). injection Hp as <-.
    destruct H as [[-> (n & Hn & Hne)]|[Hnone (found & Hw & Hf & ->)]].
    + rewrite Hn. by destruct n.
    + rewrite Hnone, Hw. by destruct found.
Qed.

(** ** Preparing the output directory *)

Lemma elem_of_ancestors p q :
  q ∈ Fs.ancestors p ↔ q `prefix_of` p ∧ q ≠ [].
Proof.
  unfold Fs.ancestors. rewrite list_elem_of_In, in_map_iff. split.
  - intros (n & <- & Hn%in_seq). split; [apply prefix_take|].
    destruct p; simpl in *; [lia|]. destruct n; [lia|done].
  - intros [[k ->] Hq]. exists (length q). split; [apply take_app_length|].
    apply in_seq. rewrite length_app. destruct q; [done|]. simpl. lia.
Qed.

Lemma ancestors_snoc p x :
  Fs.ancestors (p ++ [x]) = Fs.ancestors p ++ [p ++ [x]].
Proof.
  unfold Fs.ancestors. rewrite length_app. simpl. rewrite Nat.add_1_r.
  rewrite seq_S, map_app. simpl. f_equal.
  - apply map_ext_in. intros n Hn%in_seq. apply take_app_le. lia.
  - f_equal. apply take_ge. rewrite length_app. simpl. lia.
Qed.

(** [mkdir] creates directories where nothing was, and changes nothing
    else, also when it fails on the way *)
Lemma mkdir_each_frame ps : ∀ w r w',
  Fs.mkdir_each ps w = (r, w') →
  ∀ q, Fs.entry w' q = Fs.entry w q
       ∨ (q ∈ ps ∧ Fs.entry w q = None ∧ Fs.entry w' q = Some Dir).
Proof.
  induction ps as [|p ps IH]; intros w r w'; simpl.
  - intros [= <- <-]. by left.
  - destruct (Fs.entry w p) as [[wr t c| |]|] eqn:E.
    + intros [= <- <-]. by left.
    + intros H q. destruct (IH _ _ _ H q) as [?|(? & ? & ?)]; [by left|right].
      split; [by right|done].
    + intros [= <- <-]. by left.
    + intros H q.
      assert (Hi : Fs.implicit p = false).
      { unfold Fs.entry in E. by destruct (Fs.implicit p). }
      destruct (decide (q = p)) as [->|Hne].
      * right. split; [by left|]. split; [done|].
        destruct (IH _ _ _ H p) as [->|(_ & Hn & _)].
        -- unfold Fs.entry. simpl. by rewrite Hi, lookup_insert_eq.
        -- unfold Fs.entry in Hn. simpl in Hn.
           by rewrite Hi, lookup_insert_eq in Hn.
      * assert (Hq : Fs.entry (Fs.made p w) q
                     = Fs.entry w q).
        { unfold Fs.entry. simpl. by rewrite lookup_insert_ne. }
        destruct (IH _ _ _ H q) as [?|(? & ? & ?)]; [left; congruence|right].
        split; [by right|]. split; congruence.
Qed.

Lemma mkdir_each_skip ps rest w :
  (∀ q, q ∈ ps → Fs.entry w q = Some Dir) →
  Fs.mkdir_each (ps ++ rest) w = Fs.mkdir_each rest w.
Proof.
  induction ps as [|p ps IH]; intros H; [done|]. simpl.
  rewrite (H p) by left. apply IH. intros q Hq. apply H. by right.
Qed.

Lemma inside_prefix (p q : Path) :
  p ≠ [] → Fs.inside p q ↔ p `prefix_of` q.
Proof.
  intros Hp. unfold Fs.inside. destruct p as [|a p]; [done|].
  rewrite andb_true_r. apply bool_decide_spec.
Qed.

Lemma rmtree_entry p w w' :
  Fs.rmtree p w = (inr tt, w') →
  ∀ q, Fs.entry w' q
       = if bool_decide (p `prefix_of` q)
         then (if Fs.implicit q then Some Dir else None)
         else Fs.entry w q.
Proof.
  unfold Fs.rmtree. destruct (Fs.entry w p) as [[]|]; try done.
  destruct (Fs.implicit p) eqn:Hi; [done|].
  assert (Hne : p ≠ []) by (by intros ->).
  intros [= <-] q. unfold Fs.entry. simpl.
  destruct (Fs.implicit q); [by case_bool_decide|].
  case_bool_decide as Hp.
  - apply map_lookup_filter_None. right. intros x _ Hn. apply Hn.
    by apply inside_prefix.
  - destruct (nodes w !! q) as [x|] eqn:Hq.
    + apply map_lookup_filter_Some. split; [done|].
      simpl. by rewrite inside_prefix.
    + apply map_lookup_filter_None. by left.
Qed.

Lemma below_not_implicit (out q : Path) :
  out ≠ [] → out `prefix_of` q → q ≠ out → Fs.implicit q = false.
Proof.
  intros Hout [k ->] Hq. destruct out as [|a out]; [done|].
  by destruct out, k.
Qed.

(** X9. Overwriting: when the output directory has been prepared with
    [overwrite] set, it is a directory with nothing below it -- whatever
    an earlier run had left there is gone -- and a path outside it holds
    what it held, or is one of its ancestors, created as a directory where
    nothing was. *)
Theorem prepare_with_overwrite_empties_the_directory
    (output_dir : Path) (w w1 : world)
    (Hnamed : output_dir ≠ [])
    (Hrun : prepare_output_dir output_dir true w = (inr tt, w1)) :
  Fs.entry w1 output_dir = Some Dir
  ∧ (∀ q, output_dir `prefix_of` q → q ≠ output_dir → Fs.entry w1 q = None)
  ∧ (∀ q, ¬ output_dir `prefix_of` q →
          Fs.entry w1 q = Fs.entry w q
          ∨ (q `prefix_of` output_dir ∧ Fs.entry w q = None
             ∧ Fs.entry w1 q = Some Dir)).
Proof.
  split; [by eapply prepare_output_dir_dir|].
  unfold prepare_output_dir in Hrun.
  apply bind_inv in Hrun as ([] & wa & Hmk & H).
  apply bind_inv in H as (e & wb & He & H).
  apply bind_inv in H as ([] & wc & Hrm & Hmk').
  pose proof (mkdir_parents_dir _ _ _ Hmk) as Hdir.
  unfold Fs.exists_ in He. rewrite Hdir in He. injection He as <- <-.
  pose proof (rmtree_entry _ _ _ Hrm) as Hc.
  pose proof (mkdir_each_frame _ _ _ _ Hmk) as Ha.
  pose proof (mkdir_each_frame _ _ _ _ Hmk') as Hb.
  split.
  - intros q Hpre Hq. destruct (Hb q) as [->|(Hin & _)].
    + rewrite Hc, bool_decide_true by done.
      by rewrite (below_not_implicit output_dir).
    + apply elem_of_ancestors in Hin as [Hin _]. destruct Hq.
      by apply (anti_symm prefix).
  - intros q Hpre.
    assert (Hcq : Fs.entry wc q = Fs.entry wa q)
      by (by rewrite Hc, bool_decide_false).
    destruct (Ha q) as [Ea|(Hin & Hn & Hd)].
    + destruct (Hb q) as [Eb|(Hin & Hn & Hd)]; [left; congruence|].
      right. apply elem_of_ancestors in Hin as [Hin _].
      split; [done|]. split; congruence.
    + right. apply elem_of_ancestors in Hin as [Hin _].
      split; [done|]. split; [done|].
      destruct (Hb q) as [Eb|(_ & _ & Hd')]; congruence.
Qed.

Lemma prepare_with_overwrite_witness :
  let w1 := (prepare_output_dir ["out"] true Sample.input_and_output_dir).2 in
  Fs.entry w1 ["out"] = Some Dir
  ∧ (∀ q, ["out"] `prefix_of` q → q ≠ ["out"] → Fs.entry w1 q = None)
  ∧ (∀ q, ¬ ["out"] `prefix_of` q →
          Fs.entry w1 q = Fs.entry Sample.input_and_output_dir q
          ∨ (q `prefix_of` ["out"]
             ∧ Fs.entry Sample.input_and_output_dir q = None
             ∧ Fs.entry w1 q = Some Dir)).
Proof.
  apply (prepare_with_overwrite_empties_the_directory ["out"]
           Sample.input_and_output_dir).
  - discriminate.
  - vm_compute. reflexivity.
Defined.

(** X10. Without [overwrite] the preparation never removes or replaces
    anything, whether it succeeds or fails: every path holds what it held,
    or is the output directory or one of its ancestors, created as a
    directory where nothing was. *)
Theorem prepare_without_overwrite_only_adds_directories
    (output_dir : Path) (w : world) :
  let w1 := (prepare_output_dir output_dir false w).2 in
  ∀ q, Fs.entry w1 q = Fs.entry w q
       ∨ (q `prefix_of` output_dir ∧ q ≠ [] ∧ Fs.entry w q = None
          ∧ Fs.entry w1 q = Some Dir).
Proof.
  intros w1 q. subst w1. unfold prepare_output_dir, mbind, M_bind, bind.
  destruct (Fs.mkdir_parents output_dir w) as [[e|[]] wa] eqn:Hmk; simpl;
    (destruct (mkdir_each_frame _ _ _ _ Hmk q) as [?|(Hin & ? & ?)];
     [by left|right]; by apply elem_of_ancestors in Hin as [? ?]).
Qed.

(** X11. A regular file where the output directory should be stops the
    conversion at its first step, with [FileExistsError]: [overwrite] does
    not replace the file, nothing is changed, and the engine is not
    run. *)
Theorem file_in_place_of_output_dir_stops_conversion
    (sys_executable : string) (which : string → option string)
    (laz_backend : bool) (subprocess_run : list string → M (string * Z))
    (input_path output_dir : Path) (extra_fields srs_out : option string)
    (overwrite : bool) (w : world) (wr : bool) (t : Z) (c : content)
    (Hfile : Fs.entry w output_dir = Some (File wr t c))
    (Hdirs : ∀ q, proper_ancestor q output_dir → Fs.entry w q = Some Dir) :
  convert_las_to_3dtiles sys_executable which laz_backend subprocess_run
    input_path output_dir extra_fields srs_out overwrite w
  = (inl FileExistsError, w).
Proof.
  assert (Hmk : Fs.mkdir_parents output_dir w = (inl FileExistsError, w)).
  { destruct output_dir as [|x p _] using rev_ind; [done|].
    unfold Fs.mkdir_parents. rewrite ancestors_snoc, mkdir_each_skip.
    - simpl. by rewrite Hfile.
    - intros q [Hq Hne]%elem_of_ancestors. apply Hdirs.
      split; [by apply prefix_app_r|]. split; [|done].
      intros ->. apply prefix_length in Hq. rewrite length_app in Hq.
      simpl in Hq. lia. }
  unfold convert_las_to_3dtiles, prepare_output_dir.
  unfold mbind, M_bind, bind. by rewrite Hmk.
Qed.

Lemma file_in_place_of_output_dir_witness :
  convert_las_to_3dtiles Sample.python Sample.venv_path true
    Sample.idle_engine ["in"; "plot.las"] ["out"] None (Some "4978") true
    Sample.blocked_dir
  = (inl FileExistsError, Sample.blocked_dir).
Proof.
  apply (file_in_place_of_output_dir_stops_conversion Sample.python
           Sample.venv_path true Sample.idle_engine ["in"; "plot.las"]
           ["out"] None (Some "4978") true Sample.blocked_dir
           true 0 (Text "notes")).
  - vm_compute. reflexivity.
  - intros q ([k Hk] & Hne & Hnil). destruct q as [|a [|b q]]; try done.
    injection Hk as <- _. done.
Defined.

(** ** From the command line to the conversion *)

Lemma build_command_empty_srs exe out has_crs extra inp :
  build_command exe out has_crs None extra inp
  = build_command exe out has_crs (Some "") extra inp.
Proof. unfold build_command. by destruct has_crs. Qed.

Lemma convert_empty_srs se wh lb run inp out extra ov w :
  convert_las_to_3dtiles se wh lb run inp out extra None ov w
  = convert_las_to_3dtiles se wh lb run inp out extra (Some "") ov w.
Proof.
  unfold convert_las_to_3dtiles, mbind, M_bind, bind.
  destruct (prepare_output_dir out ov w) as [[?|?] ?]; [done|].
  destruct (choose_tiles_input lb inp _) as [[?|?] ?]; [done|].
  destruct (detect_crs lb _ _) as [[?|?] ?]; [done|].
  destruct (resolve_py3dtiles_executable se wh _) as [[?|?] ?]; [done|].
  by rewrite build_command_empty_srs.
Qed.

(** X12. What [from_args] does to [--srs-out] makes no difference to the
    conversion: the parameters never hold an empty output CRS, and the
    conversion run on them is the conversion run on the parsed values as
    they are -- the converter itself takes an empty string for no request. *)
Theorem from_args_normalisation_is_transparent
    (sys_executable : string) (which : string → option string)
    (laz_backend : bool) (subprocess_run : list string → M (string * Z))
    (parsed : Parameters.Namespace) (w : world) :
  let params := Parameters.from_args parsed in
  Parameters.srs_out params ≠ Some ""
  ∧ convert_las_to_3dtiles sys_executable which laz_backend subprocess_run
      (Parameters.input_path params) (Parameters.output_dir params)
      (Parameters.extra_fields params) (Parameters.srs_out params)
      (Parameters.overwrite params) w
    = convert_las_to_3dtiles sys_executable which laz_backend subprocess_run
        (Parameters.ns_input_path parsed) (Parameters.ns_output_dir parsed)
        (Parameters.ns_extra_fields parsed)
        (Some (Parameters.ns_srs_out parsed))
        (Parameters.ns_overwrite parsed) w.
Proof.
  unfold Parameters.from_args. simpl.
  destruct (Parameters.ns_srs_out parsed) as [|a s]; simpl.
  - split; [done|]. apply convert_empty_srs.
  - split; [|done]. by intros [=].
Qed.

(** ** When the log cannot be written *)

Lemma write_cannot w p c :
  ¬ can_write w p →
  ∃ e, Fs.write p c w = (inl e, w) ∧ ∀ msg, e ≠ RuntimeError msg.
Proof.
  unfold can_write, Fs.write. intros H.
  destruct (Fs.entry w p) as [[[] t c'| |]|]; [by destruct H|eauto..|].
  destruct (Fs.entry w (Pathlib.parent p)) as [[]|]; [eauto|by destruct H|eauto..].
Qed.

(** X13. An unwritable log hides the outcome of the engine.  The log is
    written before the exit code is looked at, outside any [try]: when the
    engine has terminated and [tiles_log.txt] cannot be opened for writing
    (a read-only file or a directory is in its place, or the output
    directory is gone), the conversion fails with the error of that write
    -- no [RuntimeError] -- whatever the exit code was, with the file system
    as the engine left it and the manifests not repaired. *)
Theorem unwritable_log_hides_the_engine_outcome
    (sys_executable : string) (which : string → option string)
    (laz_backend : bool) (subprocess_run : list string → M (string * Z))
    (input_path output_dir : Path) (extra_fields srs_out : option string)
    (overwrite : bool) (w w1 w2 w3 : world)
    (tiles_input py3dtiles_exe : Path) (has_crs : bool)
    (stdout : string) (returncode : Z)
    (Hprep : prepare_output_dir output_dir overwrite w = (inr tt, w1))
    (Hin : choose_tiles_input laz_backend input_path w1
           = (inr tiles_input, w2))
    (Hcrs : detect_crs laz_backend tiles_input w2 = (inr has_crs, w2))
    (Hexe : resolve_py3dtiles_executable sys_executable which w2
            = (inr py3dtiles_exe, w2))
    (Hrun : subprocess_run
              (build_command py3dtiles_exe output_dir has_crs srs_out
                             extra_fields tiles_input) w2
            = (inr (stdout, returncode), w3))
    (Hlog : ¬ can_write w3 (output_dir // "tiles_log.txt")) :
  ∃ e,
    convert_las_to_3dtiles sys_executable which laz_backend subprocess_run
      input_path output_dir extra_fields srs_out overwrite w
    = (inl e, w3)
    ∧ Fs.write (output_dir // "tiles_log.txt") (Text stdout) w3 = (inl e, w3)
    ∧ ∀ msg, e ≠ RuntimeError msg.
Proof.
  destruct (write_cannot _ _ (Text stdout) Hlog) as (e & Hw & He).
  exists e. split; [|done].
  rewrite (convert_after_preparation _ _ _ _ _ _ _ _ _ _ _ _ _ _
             Hprep Hin Hcrs), Hexe.
  unfold run_and_check. step Hrun. by step Hw.
Qed.

Lemma unwritable_log_witness :
  ∃ e,
    convert_las_to_3dtiles Sample.python Sample.venv_path true
      Sample.failing_engine ["in"; "plot.las"] ["out"] None (Some "4978")
      false Sample.read_only_log_dir
    = (inl e, Sample.read_only_log_dir)
    ∧ Fs.write (["out"] // "tiles_log.txt") (Text "error: cannot read input")
        Sample.read_only_log_dir
      = (inl e, Sample.read_only_log_dir)
    ∧ ∀ msg, e ≠ RuntimeError msg.
Proof.
  apply (unwritable_log_hides_the_engine_outcome Sample.python
           Sample.venv_path true Sample.failing_engine ["in"; "plot.las"]
           ["out"] None (Some "4978") false
           Sample.read_only_log_dir Sample.read_only_log_dir
           Sample.read_only_log_dir Sample.read_only_log_dir
           ["in"; "plot.las"] ["/"; "venv"; "bin"; "py3dtiles"] true
           "error: cannot read input" 2);
    try (vm_compute; reflexivity).
  vm_compute. intros H. exact H.
Defined.

(** ** What the repair passes change, and what they report *)

Lemma length_append (s1 s2 : string) :
  String.length (s1 +:+ s2) = (String.length s1 + String.length s2)%nat.
Proof.
  induction s1 as [|a s1 IH]; [done|].
  change (S (String.length (s1 +:+ s2))
          = S (String.length s1 + String.length s2)%nat).
  by rewrite IH.
Qed.

Lemma length_drop n : ∀ s,
  String.length (Str.drop n s) = (String.length s - n)%nat.
Proof. induction n as [|n IH]; intros [|a s]; simpl; auto. Qed.

Lemma startswith_length s p :
  Str.startswith s p = true → (String.length p ≤ String.length s)%nat.
Proof.
  revert s. induction p as [|a p IH]; intros s; simpl; [lia|].
  destruct s as [|b s]; [done|]. intros [_ H]%andb_true_iff.
  apply IH in H. simpl. lia.
Qed.

Lemma pass_a_rule_changes w points_dir u u' :
  pass_a_rule w points_dir u = Some u' → u' ≠ u.
Proof.
  unfold pass_a_rule. destruct (_ && _); [|done]. intros [= <-] H.
  apply (f_equal String.length) in H. rewrite length_append in H.
  simpl in H. lia.
Qed.

Lemma pass_b_rule_changes w points_dir u u' :
  pass_b_rule w points_dir u = Some u' → u' ≠ u.
Proof.
  unfold pass_b_rule.
  destruct (Str.startswith u "points/") eqn:E; [|done].
  destruct (reaches_file w _ _); [|done]. cbn [andb].
  intros H. apply (inj Some) in H. subst u'. intros H.
  apply (f_equal String.length) in H. rewrite length_drop in H.
  apply startswith_length in E. simpl in *. lia.
Qed.

Section Changes.

Variable maybe_fix : json → json * bool.
Variable rw : string → option string.
Hypothesis maybe_fix_rw : ∀ obj, maybe_fix obj = rewrite_uri rw obj.
Hypothesis rw_changes : ∀ u u', rw u = Some u' → u' ≠ u.

(** a walk that reports a modification has changed the document *)
Lemma walk_root_changes data data' :
  walk_root maybe_fix data = inr (data', true) → data' ≠ data.
Proof using maybe_fix_rw rw_changes.
  intros Hw ->.
  destruct (proj1 (walk_root_modified _ _ maybe_fix_rw _ _ _ Hw) eq_refl)
    as (pos & u & Hu & [u' Hu']).
  pose proof (walk_root_uri_at _ _ maybe_fix_rw _ _ _ pos Hw) as H.
  rewrite Hu in H. simpl in H. injection H as H.
  unfold rewritten in H. rewrite Hu' in H. simpl in H.
  by eapply rw_changes.
Qed.

End Changes.

Lemma node_variant_refl n : node_variant n n.
Proof. by left. Qed.

Lemma repaired_refl w : repaired w w.
Proof.
  intros p. destruct (Fs.entry w p); constructor. apply node_variant_refl.
Qed.

Lemma repaired_same w w' : (∀ p, Fs.entry w' p = Fs.entry w p) → repaired w w'.
Proof. intros H p. rewrite H. apply repaired_refl. Qed.

(** what Pass A does, by what it returns *)
Lemma pass_a_outcomes w tiles_dir :
  let main_tileset := tiles_dir // "tileset.json" in
  match PassA.rewrite_child_tileset_uris_if_needed tiles_dir w with
  | (inr true, w') =>
      ∃ t data data',
        Fs.entry w main_tileset = Some (File true t (Doc data))
        ∧ walk_root (PassA.maybe_fix_uri w (tiles_dir // "points")) data
          = inr (data', true)
        ∧ w' = Fs.put main_tileset (Doc data') w
  | (inr false, w') => w' = w
  | (inl e, w') => w' = w ∧ Fs.entry w main_tileset = Some Broken
  end.
Proof.
  intros main_tileset.
  assert (Hfail : ∀ b, Fs.exists_ main_tileset w = (inr b, w) →
            (∀ wr t j, Fs.entry w main_tileset ≠ Some (File wr t (Doc j))) →
            PassA.rewrite_child_tileset_uris_if_needed tiles_dir w
            = (inr false, w)).
  { intros b Hb Hnd. unfold PassA.rewrite_child_tileset_uris_if_needed.
    fold main_tileset. step Hb. destruct b; [|done]. simpl.
    destruct (json_load_fails w main_tileset Hnd) as [e He].
    by step (try_ok _ _ _ _ He). }
  destruct (Fs.entry w main_tileset) as [[wr t c| |]|] eqn:E.
  - destruct c as [s|data|z o].
    + by rewrite (Hfail true); [|by eapply exists_file|congruence].
    + rewrite (pass_a_run _ _ _ _ _ E).
      destruct (walk_root _ data) as [e|[data' []]] eqn:Hw; [done| |done].
      destruct wr; [|done]. by exists t, data, data'.
    + by rewrite (Hfail true); [|by eapply exists_file|congruence].
  - rewrite (Hfail true); [done| |congruence].
    unfold Fs.exists_. by rewrite E.
  - unfold PassA.rewrite_child_tileset_uris_if_needed.
    fold main_tileset.
    assert (Hr : Fs.exists_ main_tileset w = (inl (OSError "stat"), w))
      by (unfold Fs.exists_; by rewrite E).
    by step Hr.
  - rewrite (Hfail false); [done| |congruence].
    unfold Fs.exists_. by rewrite E.
Qed.

(** X14. Pass A reports what it did.  It returns [True] exactly when it
    has rewritten the root manifest: then the manifest was a writable
    document, the document written differs from it, and differs in uri
    strings of references only -- same keys, same order, same other values
    -- while every other path is left alone.  When it returns [False], or
    fails (which it does only if the manifest cannot be inspected), the
    file system is as it was. *)
Theorem pass_a_returns_true_iff_it_changed_the_manifest
    (w : world) (tiles_dir : Path) :
  let main_tileset := tiles_dir // "tileset.json" in
  match PassA.rewrite_child_tileset_uris_if_needed tiles_dir w with
  | (inr true, w') =>
      ∃ t data data',
        Fs.entry w main_tileset = Some (File true t (Doc data))
        ∧ Fs.entry w' main_tileset = Some (File true (clock w) (Doc data'))
        ∧ data' ≠ data
        ∧ manifest_variant data data'
        ∧ ∀ p, p ≠ main_tileset → Fs.entry w' p = Fs.entry w p
  | (inr false, w') => w' = w
  | (inl e, w') => w' = w ∧ Fs.entry w main_tileset = Some Broken
  end.
Proof.
  intros main_tileset. pose proof (pass_a_outcomes w tiles_dir) as H.
  fold main_tileset in H.
  destruct (PassA.rewrite_child_tileset_uris_if_needed tiles_dir w)
    as [[e|[]] w']; [done| |done].
  destruct H as (t & data & data' & Hent & Hw & ->).
  assert (Hi : Fs.implicit main_tileset = false)
    by (by eapply entry_not_implicit).
  exists t, data, data'. split; [done|].
  split; [by rewrite entry_put, decide_True|].
  split; [by eapply walk_root_changes;
          [apply pass_a_maybe_fix|apply pass_a_rule_changes|]|].
  split; [by eapply walk_root_variant; [apply pass_a_maybe_fix|]|].
  intros p Hp. by rewrite entry_put, decide_False.
Qed.

Lemma pass_b_fixes_inv w points_dir f data' :
  pass_b_fixes w points_dir f = Some data' →
  ∃ t data,
    Fs.entry w f = Some (File true t (Doc data))
    ∧ walk_root (PassB.maybe_fix w points_dir) data = inr (data', true).
Proof.
  unfold pass_b_fixes, PassB.fix_uris_in_data.
  destruct (Fs.entry w f) as [[[] t [s|data|z o]| |]|]; try done.
  destruct (walk_root _ data) as [e|[data'' []]] eqn:Hw; try done.
  intros [= <-]. eauto.
Qed.

(** X15. Pass B counts what it changed.  The number it returns is the
    number of files it has rewritten: there are that many distinct paths,
    each a writable manifest before and after, whose document now differs
    from the one it held -- in uri strings of references only -- and every
    other path holds what it held. *)
Theorem pass_b_returns_the_number_of_changed_manifests
    (w w' : world) (tiles_dir : Path) (n : nat)
    (Hrun : PassB.normalize_sub_tileset_uris_in_points tiles_dir w
            = (inr n, w')) :
  ∃ changed : list Path,
    NoDup changed ∧ length changed = n
    ∧ (∀ f, f ∈ changed →
         ∃ t t' data data',
           Fs.entry w f = Some (File true t (Doc data))
           ∧ Fs.entry w' f = Some (File true t' (Doc data'))
           ∧ data' ≠ data ∧ manifest_variant data data')
    ∧ (∀ p, p ∉ changed → Fs.entry w' p = Fs.entry w p).
Proof.
  destruct (pass_b_cases w tiles_dir) as [[e He]|[Hz|Hdir]].
  - congruence.
  - rewrite Hz in Hrun. injection Hrun as <- <-. exists [].
    split; [constructor|]. split; [done|]. split; [|done].
    intros f Hf. by apply elem_of_nil in Hf.
  - destruct (pass_b_run w tiles_dir Hdir)
      as (w1 & Hrun' & _ & Hother & Hfiles).
    rewrite Hrun' in Hrun. injection Hrun as <- <-.
    set (points_dir := tiles_dir // "points") in *.
    exists (filter (λ f, is_Some (pass_b_fixes w points_dir f))
                   (pass_b_files w points_dir)).
    split; [apply NoDup_filter, pass_b_files_NoDup|]. split; [done|]. split.
    + intros f [[data' Hfix] Hf]%list_elem_of_filter.
      specialize (Hfiles f Hf). rewrite Hfix in Hfiles.
      destruct Hfiles as [t' Ht'].
      destruct (pass_b_fixes_inv _ _ _ _ Hfix) as (t & data & Hent & Hw).
      exists t, t', data, data'. split; [done|]. split; [done|].
      split; [by eapply walk_root_changes;
              [apply pass_b_maybe_fix|apply pass_b_rule_changes|]|].
      by eapply walk_root_variant; [apply pass_b_maybe_fix|].
    + intros p Hp.
      destruct (decide (p ∈ pass_b_files w points_dir)) as [Hin|Hout];
        [|by apply Hother].
      specialize (Hfiles p Hin).
      destruct (pass_b_fixes w points_dir p) as [data'|] eqn:Hfix; [|done].
      destruct Hp. apply list_elem_of_filter. split; [|done].
      by rewrite Hfix.
Qed.

Lemma pass_b_returns_witness :
  ∃ changed : list Path,
    NoDup changed ∧ length changed = 1%nat
    ∧ (∀ f, f ∈ changed →
         ∃ t t' data data',
           Fs.entry Sample.output_dir f = Some (File true t (Doc data))
           ∧ Fs.entry
               (PassB.normalize_sub_tileset_uris_in_points Sample.out
                  Sample.output_dir).2 f
             = Some (File true t' (Doc data'))
           ∧ data' ≠ data ∧ manifest_variant data data')
    ∧ (∀ p, p ∉ changed →
         Fs.entry
           (PassB.normalize_sub_tileset_uris_in_points Sample.out
              Sample.output_dir).2 p
         = Fs.entry Sample.output_dir p).
Proof.
  apply (pass_b_returns_the_number_of_changed_manifests Sample.output_dir
           (PassB.normalize_sub_tileset_uris_in_points Sample.out
              Sample.output_dir).2 Sample.out 1).
  vm_compute. reflexivity.
Defined.

(** ** The repair stage as a whole *)

Lemma pass_a_repaired tiles_dir :
  preserving repaired (PassA.rewrite_child_tileset_uris_if_needed tiles_dir).
Proof.
  intros w r w' Hrun. pose proof (pass_a_outcomes w tiles_dir) as H.
  rewrite Hrun in H. simpl in H. destruct r as [e|[]].
  - destruct H as [-> _]. apply repaired_refl.
  - destruct H as (t & data & data' & Hent & Hw & ->). intros p.
    rewrite entry_put by (by eapply entry_not_implicit).
    case_decide as Hp; [|apply repaired_refl].
    subst p. rewrite Hent. constructor. right.
    exists t, (clock w), data, data'. split; [done|]. split; [done|].
    by eapply walk_root_variant; [apply pass_a_maybe_fix|].
  - subst w'. apply repaired_refl.
Qed.

Lemma pass_b_repaired tiles_dir :
  preserving repaired (PassB.normalize_sub_tileset_uris_in_points tiles_dir).
Proof.
  intros w r w' Hrun.
  destruct (pass_b_cases w tiles_dir) as [[e He]|[Hz|Hdir]].
  - rewrite He in Hrun. injection Hrun as <- <-. apply repaired_refl.
  - rewrite Hz in Hrun. injection Hrun as <- <-. apply repaired_refl.
  - destruct (pass_b_run w tiles_dir Hdir)
      as (w1 & Hrun' & _ & Hother & Hfiles).
    rewrite Hrun' in Hrun. injection Hrun as <- <-. intros p.
    destruct (decide (p ∈ pass_b_files w (tiles_dir // "points")))
      as [Hin|Hout].
    + specialize (Hfiles p Hin).
      destruct (pass_b_fixes w (tiles_dir // "points") p)
        as [data'|] eqn:Hfix.
      * destruct Hfiles as [t' ->].
        destruct (pass_b_fixes_inv _ _ _ _ Hfix) as (t & data & -> & Hw).
        constructor. right. exists t, t', data, data'.
        split; [done|]. split; [done|].
        by eapply walk_root_variant; [apply pass_b_maybe_fix|].
      * rewrite Hfiles. apply repaired_refl.
    + rewrite Hother by done. apply repaired_refl.
Qed.

Lemma manifest_is_not_under_points tiles_dir n :
  tiles_dir // "tileset.json" ≠ (tiles_dir // "points") ++ [n].
Proof.
  change (tiles_dir // "tileset.json") with (tiles_dir ++ ["tileset.json"]).
  change (tiles_dir // "points") with (tiles_dir ++ ["points"]).
  intros H. apply (f_equal length) in H.
  rewrite !length_app in H. simpl in H. lia.
Qed.

Lemma post_process_repaired output_dir w :
  repaired w (post_process output_dir w).2.
Proof.
  unfold post_process, mbind, M_bind, bind, try.
  destruct (PassA.rewrite_child_tileset_uris_if_needed output_dir w)
    as [[e|m] wa] eqn:Ha; simpl.
  { by eapply pass_a_repaired. }
  assert (Hb : ∃ rb wb,
            PassB.normalize_sub_tileset_uris_in_points output_dir wa
            = (rb, wb)) by (destruct (PassB.normalize_sub_tileset_uris_in_points
                                        output_dir wa); eauto).
  destruct Hb as (rb & wb & Hb). rewrite Hb.
  assert (Hgoal : repaired w wb).
  { intros p. destruct (decide (p = output_dir // "tileset.json")) as [->|Hp].
    - rewrite (pass_b_keeps output_dir _
                 (manifest_is_not_under_points output_dir) _ _ _ Hb).
      by eapply pass_a_repaired.
    - pose proof (pass_a_keeps output_dir p Hp _ _ _ Ha) as Hk.
      unfold keeps in Hk. rewrite <- Hk. by eapply pass_b_repaired. }
  by destruct rb.
Qed.

(** X16. The repair stage never fails, and it edits in place: no path is
    created, removed or changed in kind, and a file that differs afterwards
    is a writable manifest that differs from what it held in uri strings
    of references only -- same keys, same order, every other value the
    same. *)
Theorem repair_stage_edits_only_uris (output_dir : Path) (w : world) :
  post_process output_dir w = (inr tt, (post_process output_dir w).2)
  ∧ repaired w (post_process output_dir w).2.
Proof. split; [apply post_process_total|apply post_process_repaired]. Qed.

Lemma pass_a_walk_same w w0 points_dir data :
  same_files w w0 →
  walk_root (PassA.maybe_fix_uri w points_dir) data
  = walk_root (PassA.maybe_fix_uri w0 points_dir) data.
Proof.
  intros H. apply walk_root_ext. intros obj. rewrite !pass_a_maybe_fix.
  unfold rewrite_uri, pass_a_rule.
  destruct obj as [| | | | | |d]; try done.
  destruct (Dict.get "uri" d) as [[| | | |u| |]|]; try done.
  by rewrite (proj1 (H _)).
Qed.

Lemma pass_a_same_files tiles_dir :
  preserving (λ w w', same_files w' w)
             (PassA.rewrite_child_tileset_uris_if_needed tiles_dir).
Proof.
  intros w r w' Hrun. pose proof (pass_a_outcomes w tiles_dir) as H.
  rewrite Hrun in H. simpl in H. destruct r as [e|[]].
  - destruct H as [-> _]. apply same_files_refl.
  - destruct H as (t & data & data' & Hent & Hw & ->).
    apply same_files_put; [|apply same_files_refl].
    unfold is_regular. by rewrite Hent.
  - subst w'. apply same_files_refl.
Qed.

Lemma pass_b_same_files tiles_dir :
  preserving (λ w w', same_files w' w)
             (PassB.normalize_sub_tileset_uris_in_points tiles_dir).
Proof.
  intros w r w' Hrun.
  destruct (pass_b_cases w tiles_dir) as [[e He]|[Hz|Hdir]].
  - rewrite He in Hrun. injection Hrun as <- <-. apply same_files_refl.
  - rewrite Hz in Hrun. injection Hrun as <- <-. apply same_files_refl.
  - destruct (pass_b_run w tiles_dir Hdir) as (w1 & Hrun' & Hs & _).
    rewrite Hrun' in Hrun. by injection Hrun as <- <-.
Qed.

(** a run of Pass A that changes nothing changes nothing either once
    manifests under [points/] have been edited in place *)
Lemma pass_a_stable tiles_dir w w0 :
  PassA.rewrite_child_tileset_uris_if_needed tiles_dir w0 = (inr false, w0) →
  same_files w w0 →
  Fs.entry w (tiles_dir // "tileset.json")
  = Fs.entry w0 (tiles_dir // "tileset.json") →
  PassA.rewrite_child_tileset_uris_if_needed tiles_dir w = (inr false, w).
Proof.
  intros Hrun Hsame Hent. pose proof (pass_a_outcomes w tiles_dir) as H.
  destruct (PassA.rewrite_child_tileset_uris_if_needed tiles_dir w)
    as [[e|[]] w'].
  - destruct H as [_ Hb]. rewrite Hent in Hb.
    pose proof (pass_a_outcomes w0 tiles_dir) as H0.
    rewrite Hrun in H0. simpl in H0.
    revert Hrun. unfold PassA.rewrite_child_tileset_uris_if_needed.
    assert (Hr : Fs.exists_ (tiles_dir // "tileset.json") w0
                 = (inl (OSError "stat"), w0))
      by (unfold Fs.exists_; by rewrite Hb).
    by step Hr.
  - destruct H as (t & data & data' & Hent' & Hw & _).
    rewrite Hent in Hent'. rewrite (pass_a_run _ _ _ _ _ Hent') in Hrun.
    rewrite (pass_a_walk_same w w0) in Hw by done. by rewrite Hw in Hrun.
  - simpl in H. by subst w'.
Qed.

Lemma no_nested_prefix_same w w0 points_dir :
  same_files w w0 → no_nested_prefix w0 points_dir →
  no_nested_prefix w points_dir.
Proof.
  intros Hs Hno s H1 H2. rewrite !(reaches_file_same w w0) in * by done.
  by apply Hno.
Qed.

(** X17. The repair stage as a whole is idempotent when nothing that
    Pass B strips a uri to can be stripped again -- no string that starts
    with [points/] and, joined to the [points/] directory, names a regular
    file leaves, once that prefix is taken off, a string that joined to
    the directory names a regular file again, under [points/] or anywhere
    else: run again on what it left, the stage changes nothing -- the
    edits of Pass B do not give Pass A new work, nor the other way
    round. *)
Theorem repair_stage_is_idempotent
    (output_dir : Path) (w : world)
    (Hflat : no_nested_prefix w (output_dir // "points")) :
  let w' := (post_process output_dir w).2 in
  post_process output_dir w' = (inr tt, w').
Proof.
  intros w'. subst w'.
  destruct (PassA.rewrite_child_tileset_uris_if_needed output_dir w)
    as [ra wa] eqn:Ha.
  pose proof (pass_a_outcomes w output_dir) as Hout. rewrite Ha in Hout.
  destruct ra as [e|m].
  { destruct Hout as [-> _].
    assert (Hp : (post_process output_dir w).2 = w)
      by (unfold post_process, mbind, M_bind, bind, try; by rewrite Ha).
    rewrite Hp, (post_process_total output_dir w). by rewrite Hp. }
  destruct (PassB.normalize_sub_tileset_uris_in_points output_dir wa)
    as [rb wb] eqn:Hb.
  assert (Hp : (post_process output_dir w).2 = wb).
  { unfold post_process, mbind, M_bind, bind, try. rewrite Ha, Hb.
    by destruct rb. }
  rewrite Hp.
  pose proof (pass_a_idempotent _ _ _ _ Ha) as Ha'.
  pose proof (pass_a_same_files _ _ _ _ Ha) as Hsa.
  pose proof (pass_b_same_files _ _ _ _ Hb) as Hsb.
  assert (Ha'' : PassA.rewrite_child_tileset_uris_if_needed output_dir wb
                 = (inr false, wb)).
  { apply (pass_a_stable _ _ wa); [done|exact Hsb|].
    apply (pass_b_keeps output_dir _
             (manifest_is_not_under_points output_dir) _ _ _ Hb). }
  assert (Hb' : ∃ rb',
            PassB.normalize_sub_tileset_uris_in_points output_dir wb
            = (rb', wb)).
  { destruct rb as [e|n].
    - destruct (pass_b_cases wa output_dir) as [[e' He]|[Hz|Hdir]].
      + rewrite He in Hb. injection Hb as <- <-. eauto.
      + congruence.
      + destruct (pass_b_run wa output_dir Hdir) as (w1 & Hrun' & _).
        congruence.
    - exists (inr O). eapply pass_b_idempotent; [|done].
      apply (no_nested_prefix_same wa w); [exact Hsa|done]. }
  destruct Hb' as [rb' Hb'].
  unfold post_process, mbind, M_bind, bind, try. rewrite Ha'', Hb'.
  by destruct rb'.
Qed.

Lemma repair_stage_is_idempotent_witness :
  let w' := (post_process Sample.out Sample.output_dir).2 in
  post_process Sample.out w' = (inr tt, w').
Proof.
  apply (repair_stage_is_idempotent Sample.out Sample.output_dir
           sample_no_nested_prefix).
Defined.

(** ** What a returned conversion guarantees *)

Lemma repaired_exists w w' p n :
  repaired w w' → Fs.entry w p = Some n → n ≠ Broken →
  ∃ n', Fs.entry w' p = Some n' ∧ n' ≠ Broken.
Proof.
  intros Hr Hn Hb. specialize (Hr p). rewrite Hn in Hr.
  inversion Hr as [? n' Hv|]; subst. exists n'. split; [done|].
  destruct Hv as [<-|(? & ? & ? & ? & _ & -> & _)]; done.
Qed.

(** X18. What a returned conversion guarantees.  When
    [convert_las_to_3dtiles] returns, the path it returns is
    [tileset.json] in the output directory and something is there, so the
    returned path exists; the engine was run and exited with code zero; and
    [tiles_log.txt] holds the transcript of that run. *)
Theorem conversion_returns_an_existing_manifest
    (sys_executable : string) (which : string → option string)
    (laz_backend : bool) (subprocess_run : list string → M (string * Z))
    (input_path output_dir : Path) (extra_fields srs_out : option string)
    (overwrite : bool) (w w5 : world) (tileset_json : Path)
    (Hret : convert_las_to_3dtiles sys_executable which laz_backend
              subprocess_run input_path output_dir extra_fields srs_out
              overwrite w
            = (inr tileset_json, w5)) :
  tileset_json = output_dir // "tileset.json"
  ∧ (∃ n, Fs.entry w5 tileset_json = Some n ∧ n ≠ Broken)
  ∧ ∃ cmd w2 w3 stdout,
      subprocess_run cmd w2 = (inr (stdout, 0), w3)
      ∧ Fs.entry w5 (output_dir // "tiles_log.txt")
        = Some (File true (clock w3) (Text stdout)).
Proof.
  unfold convert_las_to_3dtiles in Hret.
  apply bind_inv in Hret as ([] & w1 & _ & Hret).
  apply bind_inv in Hret as (tiles_input & w2 & _ & Hret).
  apply bind_inv in Hret as (has_crs & w2' & _ & Hret).
  apply bind_inv in Hret as (py3dtiles_exe & w2'' & _ & Hret).
  pose proof Hret as Hall. unfold run_and_check in Hret.
  apply bind_inv in Hret as ([stdout returncode] & w3 & Hrun & Hret).
  apply bind_inv in Hret as ([] & w4 & Hw & Hret).
  apply write_succeeds in Hw as [Hlog Hw4].
  destruct (returncode =? 0) eqn:Hrc; [|done]. apply Z.eqb_eq in Hrc as ->.
  simpl in Hret.
  apply bind_inv in Hret as (e & w4' & He & Hret).
  destruct e; [|done]. simpl in Hret.
  apply bind_inv in Hret as ([] & w5' & Hpost & Hret).
  injection Hret as <- <-.
  split; [done|]. split.
  - unfold Fs.exists_ in He.
    destruct (Fs.entry w4 (output_dir // "tileset.json")) as [n|] eqn:En;
      [|done].
    assert (Hn : n ≠ Broken) by (by intros ->).
    assert (w4' = w4) as -> by (destruct n; congruence).
    pose proof (post_process_repaired output_dir w4) as Hr.
    rewrite Hpost in Hr. simpl in Hr.
    by eapply repaired_exists.
  - exists (build_command py3dtiles_exe output_dir has_crs srs_out
                          extra_fields tiles_input), w2'', w3, stdout.
    split; [done|].
    by eapply (log_after_run_and_check subprocess_run _ output_dir w2'' w3
                 stdout 0 Hrun Hlog).
Qed.

Lemma conversion_returns_witness :
  let w := Sample.input_dir in
  let w5 :=
    (convert_las_to_3dtiles Sample.python Sample.venv_path true
       Sample.careless_engine ["in"; "plot.las"] Sample.out None
       (Some "4978") false w).2 in
  ["out"; "tileset.json"] = Sample.out // "tileset.json"
  ∧ (∃ n, Fs.entry w5 ["out"; "tileset.json"] = Some n ∧ n ≠ Broken)
  ∧ ∃ cmd w2 w3 stdout,
      Sample.careless_engine cmd w2 = (inr (stdout, 0), w3)
      ∧ Fs.entry w5 (Sample.out // "tiles_log.txt")
        = Some (File true (clock w3) (Text stdout)).
Proof.
  apply (conversion_returns_an_existing_manifest Sample.python
           Sample.venv_path true Sample.careless_engine ["in"; "plot.las"]
           Sample.out None (Some "4978") false Sample.input_dir).
  vm_compute. reflexivity.
Defined.

(** ** run.py: the exit code *)

Lemma rglob_all_pure d w r w' : rglob_all d w = (r, w') → w' = w.
Proof.
  unfold rglob_all, mbind, M_bind, bind, Fs.is_dir, snapshot.
  destruct (Fs.entry w d) as [[]|]; simpl; by intros [= _ <-].
Qed.

(** X19. [main] turns a bad input away before anything is touched: when
    the arguments are parsed and the input path does not exist, cannot be
    inspected, or has a suffix that is neither [.las] nor [.laz] in any
    letter case, the exit code is 1, the file system is as it was, and
    neither the output directory is prepared nor the engine run. *)
Theorem main_rejects_bad_input_untouched
    (parse_args : list string → Z + Parameters.Namespace)
    (sys_executable : string) (which : string → option string)
    (laz_backend : bool) (subprocess_run : list string → M (string * Z))
    (args : list string) (parsed : Parameters.Namespace) (w : world)
    (Hparsed : parse_args args = inr parsed)
    (Hbad : Fs.entry w (Parameters.ns_input_path parsed) = None
            ∨ Fs.entry w (Parameters.ns_input_path parsed) = Some Broken
            ∨ accepted_suffix (Parameters.ns_input_path parsed) = false) :
  main parse_args sys_executable which laz_backend subprocess_run args w
  = (inr 1, w).
Proof.
  unfold main. rewrite Hparsed.
  unfold try, mbind, M_bind, bind, Fs.exists_. simpl.
  destruct Hbad as [->|[->|Hs]]; [done|done|]. rewrite Hs.
  by destruct (Fs.entry w (Parameters.ns_input_path parsed)) as [[]|].
Qed.

Lemma main_rejects_witness :
  main Sample.argparse Sample.python Sample.venv_path true
    Sample.idle_engine ["--input"; "in/plot.txt"; "--output-dir"; "out"]
    Sample.input_and_output_dir
  = (inr 1, Sample.input_and_output_dir).
Proof.
  apply (main_rejects_bad_input_untouched Sample.argparse Sample.python
           Sample.venv_path true Sample.idle_engine
           ["--input"; "in/plot.txt"; "--output-dir"; "out"]
           {| Parameters.ns_input_path := ["in"; "plot.txt"];
              Parameters.ns_output_dir := ["out"];
              Parameters.ns_extra_fields := None;
              Parameters.ns_srs_out := "4978";
              Parameters.ns_overwrite := false |}).
  - vm_compute. reflexivity.
  - right. right. vm_compute. reflexivity.
Defined.

(** X20. The exit code of [main].  No exception escapes [main]: it ends
    with an exit code.  When argparse refuses the arguments or prints the
    help, the code is the one argparse exits with (2 or 0) and nothing is
    touched.  When the arguments are parsed, the code is 0 or 1; code 0
    means that the input existed with an accepted suffix and that the
    conversion, run on the parameters of [from_args], returned; and
    whenever the conversion of an accepted input returns and the output
    directory can then be listed, the code is 0 and [main] leaves the file
    system as the conversion left it. *)
Theorem main_exit_code_tells_whether_conversion_returned
    (parse_args : list string → Z + Parameters.Namespace)
    (sys_executable : string) (which : string → option string)
    (laz_backend : bool) (subprocess_run : list string → M (string * Z))
    (args : list string) (w : world) :
  ∃ code w',
    main parse_args sys_executable which laz_backend subprocess_run args w
    = (inr code, w')
    ∧ match parse_args args with
      | inl exit_code => code = exit_code ∧ w' = w
      | inr parsed =>
          let params := Parameters.from_args parsed in
          let convert :=
            convert_las_to_3dtiles sys_executable which laz_backend
              subprocess_run
              (Parameters.input_path params) (Parameters.output_dir params)
              (Parameters.extra_fields params) (Parameters.srs_out params)
              (Parameters.overwrite params) in
          let accepted :=
            (∃ n, Fs.entry w (Parameters.input_path params) = Some n
                  ∧ n ≠ Broken)
            ∧ accepted_suffix (Parameters.input_path params) = true in
          (code = 0 ∨ code = 1)
          ∧ (code = 0 →
             accepted ∧ ∃ tileset_json, convert w = (inr tileset_json, w'))
          ∧ (accepted →
             ∀ tileset_json w5,
               convert w = (inr tileset_json, w5) →
               Fs.entry w5 (Parameters.output_dir params) ≠ Some Broken →
               code = 0 ∧ w' = w5)
      end.
Proof.
  unfold main. destruct (parse_args args) as [exit_code|parsed].
  { by exists exit_code, w. }
  set (params := Parameters.from_args parsed).
  set (convert := convert_las_to_3dtiles _ _ _ _ _ _ _ _ _).
  cbv zeta.
  unfold try, mbind, M_bind, bind, Fs.exists_.
  destruct (Fs.entry w (Parameters.input_path params)) as [n|] eqn:E.
  2:{ do 2 eexists. split; [done|]. split; [by right|].
      split; [done|]. by intros [(n & [=] & _) _]. }
  destruct n as [wr t c| |] eqn:En.
  3:{ do 2 eexists. split; [done|]. split; [by right|].
      split; [done|]. by intros [(n' & [= <-] & Hn) _]. }
  all: destruct (accepted_suffix (Parameters.input_path params)) eqn:Hs;
    cbn [negb];
    [|do 2 eexists; split; [done|]; split; [by right|];
      split; [done|]; by intros [_ [=]]].
  all: destruct (convert w) as [[e|tileset_json] w5] eqn:Hc;
    [do 2 eexists; split; [done|]; split; [by right|]; split; [done|];
     intros _ ? ? [=]|].
  all: destruct (rglob_all (Parameters.output_dir params) w5)
         as [[e|files] w6] eqn:Hr;
    pose proof (rglob_all_pure _ _ _ _ Hr) as ->.
  all: do 2 eexists; (split; [done|]).
  all: try (split; [by right|]; split; [done|];
            intros _ ? ? [= <- <-] Hb; exfalso;
            revert Hr; unfold rglob_all, mbind, M_bind, bind, Fs.is_dir;
            by destruct (Fs.entry w5 _) as [[]|]).
  all: split; [by left|]; split;
    [intros _; split; [split; [by eexists|done]|by eexists]
    |by intros _ ? ? [= <- <-] _].
Qed.

Example main_exits_as_argparse_does :
  main Sample.argparse Sample.python Sample.venv_path true
    Sample.idle_engine ["--frobnicate"] Sample.input_dir
  = (inr 2, Sample.input_dir).
Proof. reflexivity. Qed.

(** ** An input that laspy cannot read *)




(** ** When the engine is not found *)

Lemma rmtree_not_implicit p w w' :
  Fs.rmtree p w = (inr tt, w') → Fs.implicit p = false.
Proof.
  unfold Fs.rmtree. destruct (Fs.entry w p) as [[]|]; try done.
  by destruct (Fs.implicit p).
Qed.

(** with [overwrite], nothing is left below the output directory *)
Lemma prepare_overwrite_clears output_dir w w1 :
  prepare_output_dir output_dir true w = (inr tt, w1) →
  ∀ q, output_dir `prefix_of` q → q ≠ output_dir → Fs.entry w1 q = None.
Proof.
  unfold prepare_output_dir. intros Hrun.
  apply bind_inv in Hrun as ([] & wa & Hmk & H).
  apply bind_inv in H as (e & wb & He & H).
  apply bind_inv in H as ([] & wc & Hrm & Hmk').
  pose proof (mkdir_parents_dir _ _ _ Hmk) as Hdir.
  unfold Fs.exists_ in He. rewrite Hdir in He. injection He as <- <-.
  pose proof (rmtree_entry _ _ _ Hrm) as Hc.
  assert (Hnamed : output_dir ≠ []).
  { apply rmtree_not_implicit in Hrm. by intros ->. }
  intros q Hpre Hq.
  destruct (mkdir_each_frame _ _ _ _ Hmk' q) as [->|(Hin & _)].
  - rewrite Hc, bool_decide_true by done.
    by rewrite (below_not_implicit output_dir).
  - apply elem_of_ancestors in Hin as [Hin _]. destruct Hq.
    by apply (anti_symm prefix).
Qed.

(** choosing the engine's input writes nothing but the decompressed copy *)
Lemma choose_frame lb input_path w1 tiles_input w2 :
  choose_tiles_input lb input_path w1 = (inr tiles_input, w2) →
  ∀ q, Fs.entry w2 q = Fs.entry w1 q
       ∨ Pathlib.with_suffix input_path ".las" = inr q.
Proof.
  unfold choose_tiles_input. destruct (String.eqb _ _).
  2:{ intros [= _ <-] q. by left. }
  unfold mbind, M_bind, bind, try.
  destruct (uncompress_laz_to_las lb input_path w1) as [[e|las] w'] eqn:E.
  - rewrite (uncompress_raises_in_place _ _ _ _ _ E).
    intros [= _ <-] q. by left.
  - intros [= _ <-] q.
    destruct (uncompress_returns_sibling _ _ _ _ _ E) as [Hs Hb].
    rewrite (uncompress_freshness _ _ _ _ Hs Hb) in E.
    destruct (las_is_fresh w1 las input_path).
    { injection E as <-. by left. }
    destruct (try _ w1) as [r w3] eqn:Ht. apply decode_attempt in Ht.
    destruct (readable_cloud lb w1 input_path) as [crs|].
    + destruct Ht as [(-> & Hc & ->)|(e0 & -> & _ & ->)]; [|done].
      injection E as <-.
      destruct (write_can _ _ (Cloud false crs) Hc) as [_ Hi].
      rewrite entry_put by done. case_decide; [right; by subst|by left].
    + by destruct Ht as (e0 & -> & ->).
Qed.

(** the decompressed copy is neither the log nor the root manifest *)
Lemma las_sibling_is_no_output input_path output_dir q :
  Pathlib.with_suffix input_path ".las" = inr q →
  q ≠ output_dir // "tiles_log.txt" ∧ q ≠ output_dir // "tileset.json".
Proof.
  unfold Pathlib.with_suffix. destruct (String.eqb _ _); [done|].
  set (stem := Str.take _ _). intros [= <-].
  change (output_dir // "tiles_log.txt")
    with (output_dir ++ ["tiles_log.txt"]).
  change (output_dir // "tileset.json") with (output_dir ++ ["tileset.json"]).
  split; intros [_ H]%app_inj_tail.
  - assert (Hl : String.length stem = 9%nat).
    { apply (f_equal String.length) in H. rewrite length_append in H.
      simpl in H. lia. }
    do 9 (destruct stem as [|? stem]; [done|]).
    destruct stem; [|done]. vm_compute in H. discriminate H.
  - assert (Hl : String.length stem = 8%nat).
    { apply (f_equal String.length) in H. rewrite length_append in H.
      simpl in H. lia. }
    do 8 (destruct stem as [|? stem]; [done|]).
    destruct stem; [|done]. vm_compute in H. discriminate H.
Qed.

(** C4, as the code has it.  When the engine executable cannot be resolved
    (no file next to the interpreter, nothing on [PATH]) and the output
    directory could be prepared, the conversion fails with the
    tool-not-found error before the engine is run and before any log or
    manifest is written: the file system is left as the choice of the
    engine's input left it, which differs from what the preparation left
    at most by the decompressed copy of the input, and the log and the
    root manifest are as the preparation left them.  The failure does not
    come before the output directory is touched: by then that directory
    has been created and, with [overwrite], removed and created again
    empty -- nothing is below it. *)
Theorem tool_not_found_after_output_dir_prepared
    (sys_executable : string) (which : string → option string)
    (laz_backend : bool) (subprocess_run : list string → M (string * Z))
    (input_path output_dir : Path) (extra_fields srs_out : option string)
    (overwrite : bool) (w w1 w2 : world) (tiles_input py3dtiles_exe : Path)
    (Hwhich : given (which "py3dtiles") = false)
    (Hname : Pathlib.with_name (Pathlib.of_string sys_executable) "py3dtiles"
             = inr py3dtiles_exe)
    (Hprep : prepare_output_dir output_dir overwrite w = (inr tt, w1))
    (Hin : choose_tiles_input laz_backend input_path w1
           = (inr tiles_input, w2))
    (Hnone : Fs.entry w2 py3dtiles_exe = None) :
  convert_las_to_3dtiles sys_executable which laz_backend subprocess_run
    input_path output_dir extra_fields srs_out overwrite w
  = (inl (RuntimeError "py3dtiles not found in venv or PATH"), w2)
  ∧ Fs.entry w1 output_dir = Some Dir
  ∧ Fs.entry w2 output_dir = Some Dir
  ∧ (overwrite = true →
     ∀ q, output_dir `prefix_of` q → q ≠ output_dir → Fs.entry w1 q = None)
  ∧ (∀ q, Fs.entry w2 q = Fs.entry w1 q
          ∨ Pathlib.with_suffix input_path ".las" = inr q)
  ∧ Fs.entry w2 (output_dir // "tiles_log.txt")
    = Fs.entry w1 (output_dir // "tiles_log.txt")
  ∧ Fs.entry w2 (output_dir // "tileset.json")
    = Fs.entry w1 (output_dir // "tileset.json").
Proof.
  pose proof (prepare_output_dir_dir _ _ _ _ Hprep) as Hdir.
  destruct (detect_crs_total laz_backend tiles_input w2) as [has_crs Hcrs].
  pose proof (choose_frame _ _ _ _ _ Hin) as Hframe.
  split; [|split; [done|split; [|split; [|split; [done|split]]]]].
  - rewrite (convert_after_preparation _ _ _ _ _ _ _ _ _ _ _ _ _ _
               Hprep Hin Hcrs).
    by rewrite (resolve_not_found _ _ _ _ Hwhich Hname Hnone).
  - eapply (preserving_choose keeps_dirs keeps_dirs_refl keeps_dirs_trans);
      [apply write_keeps_dirs|exact Hin|exact Hdir].
  - intros ->. apply (prepare_overwrite_clears _ _ _ Hprep).
  - destruct (Hframe (output_dir // "tiles_log.txt")) as [?|Hs]; [done|].
    by destruct (las_sibling_is_no_output _ output_dir _ Hs) as [? _].
  - destruct (Hframe (output_dir // "tileset.json")) as [?|Hs]; [done|].
    by destruct (las_sibling_is_no_output _ output_dir _ Hs) as [_ ?].
Qed.

Lemma tool_not_found_witness :
  let w := Sample.input_and_output_dir in
  let w1 := (prepare_output_dir Sample.out true w).2 in
  let w2 := (choose_tiles_input true ["in"; "plot.las"] w1).2 in
  convert_las_to_3dtiles Sample.python Sample.empty_path true
    Sample.idle_engine ["in"; "plot.las"] Sample.out None (Some "4978")
    true w
  = (inl (RuntimeError "py3dtiles not found in venv or PATH"), w2)
  ∧ Fs.entry w1 Sample.out = Some Dir
  ∧ Fs.entry w2 Sample.out = Some Dir
  ∧ (true = true →
     ∀ q, Sample.out `prefix_of` q → q ≠ Sample.out → Fs.entry w1 q = None)
  ∧ (∀ q, Fs.entry w2 q = Fs.entry w1 q
          ∨ Pathlib.with_suffix ["in"; "plot.las"] ".las" = inr q)
  ∧ Fs.entry w2 (Sample.out // "tiles_log.txt")
    = Fs.entry w1 (Sample.out // "tiles_log.txt")
  ∧ Fs.entry w2 (Sample.out // "tileset.json")
    = Fs.entry w1 (Sample.out // "tileset.json").
Proof.
  apply (tool_not_found_after_output_dir_prepared
           Sample.python Sample.empty_path true Sample.idle_engine
           ["in"; "plot.las"] Sample.out None (Some "4978") true
           Sample.input_and_output_dir _ _ ["in"; "plot.las"]
           ["/"; "usr"; "bin"; "py3dtiles"]);
    vm_compute; reflexivity.
Defined.

(** C4, as the claim states it, fails: when the executable is not found the
    run has already created the output directory, and with [overwrite] it
    has already removed what an earlier run left there. *)
Lemma tool_not_found_comes_after_mutation :
  (∃ w',
     convert_las_to_3dtiles Sample.python Sample.empty_path true
       Sample.idle_engine ["in"; "plot.las"] Sample.out None (Some "4978")
       false Sample.input_dir
     = (inl (RuntimeError "py3dtiles not found in venv or PATH"), w')
     ∧ Fs.entry Sample.input_dir Sample.out = None
     ∧ Fs.entry w' Sample.out = Some Dir)
  ∧ (∃ w',
       convert_las_to_3dtiles Sample.python Sample.empty_path true
         Sample.idle_engine ["in"; "plot.las"] Sample.out None (Some "4978")
         true Sample.input_and_output_dir
       = (inl (RuntimeError "py3dtiles not found in venv or PATH"), w')
       ∧ is_regular Sample.input_and_output_dir ["out"; "tileset.json"]
         = true
       ∧ Fs.entry w' ["out"; "tileset.json"] = None
       ∧ Fs.entry w' Sample.out = Some Dir).
Proof.
  split; eexists; (split; [vm_compute; reflexivity|]);
    repeat split; vm_compute; reflexivity.
Qed.

